(** * PrintInfo action: a model of [index.js] and its specification

    The action is one asynchronous function, [run], that logs diagnostics of
    the runner: a UTC timestamp, host facts, the Linux distribution, git
    metadata and, on request, the Java version and a directory tree.  It
    reads the process environment, one file and the clock, and starts
    external commands through the toolkit function [exec.exec].

    The embedding keeps the source's shape.  Text is a Rocq [string] that
    holds the UTF-8 bytes of the JavaScript string, and the JavaScript string
    methods the source calls are defined on it.  Statements run in a monad
    that threads the observable state (log, outputs, failure mark, commands
    started) and may raise, as a JavaScript statement may throw; what was
    logged before a throw stays logged.  The runner is a record [Host] that [run] receives. *)

From Stdlib Require Import String Ascii List ZArith Lia Bool DecimalString.
Import ListNotations.
Open Scope string_scope.
Open Scope Z_scope.

(** ** Text *)

Module Js.

Definition nl : ascii := "010"%char.
Definition dquote : ascii := "034"%char.
Definition chr (c : ascii) : string := String c EmptyString.

(** A string in a condition: the empty string is falsy. *)
Definition truthy (s : string) : bool :=
  match s with EmptyString => false | String _ _ => true end.

(** [a || b] on strings. *)
Definition or (a b : string) : string := if truthy a then a else b.

(** [process.env.X]: [None] is [undefined]. *)
Definition env_truthy (v : option string) : bool :=
  match v with Some s => truthy s | None => false end.

(** [process.env.X || d] *)
Definition env_or (v : option string) (d : string) : string :=
  match v with Some (String c r) => String c r | _ => d end.

(** [`${process.env.X}`] *)
Definition env_show (v : option string) : string :=
  match v with Some s => s | None => "undefined" end.

(** The text with the given bytes. *)
Definition bytes (l : list nat) : string :=
  string_of_list_ascii (map ascii_of_nat l).

(** The white space and line terminators of the language, each as its
    UTF-8 encoding: TAB, LF, VT, FF, CR, SP; U+00A0; U+1680; U+2000 to
    U+200A; U+2028, U+2029, U+202F; U+205F; U+3000; U+FEFF. *)
Definition white_space : list string :=
  map bytes
    [ [9]; [10]; [11]; [12]; [13]; [32];
      [194; 160];
      [225; 154; 128];
      [226; 128; 128]; [226; 128; 129]; [226; 128; 130]; [226; 128; 131];
      [226; 128; 132]; [226; 128; 133]; [226; 128; 134]; [226; 128; 135];
      [226; 128; 136]; [226; 128; 137]; [226; 128; 138];
      [226; 128; 168]; [226; 128; 169]; [226; 128; 175];
      [226; 129; 159];
      [227; 128; 128];
      [239; 187; 191] ]%nat.

(** The bytes are one character that [trim] strips. *)
Definition is_space (w : string) : bool := existsb (String.eqb w) white_space.

(** Strips leading white space, a character of one, two or three bytes at
    a time. *)
Fixpoint trimStart (s : string) : string :=
  match s with
  | EmptyString => EmptyString
  | String c1 r1 =>
      if is_space (chr c1) then trimStart r1
      else
        match r1 with
        | EmptyString => s
        | String c2 r2 =>
            if is_space (String c1 (chr c2)) then trimStart r2
            else
              match r2 with
              | EmptyString => s
              | String c3 r3 =>
                  if is_space (String c1 (String c2 (chr c3))) then trimStart r3
                  else s
              end
        end
  end.

(** Strips trailing white space: the text ends before the first byte from
    which on all is white space. *)
Fixpoint trimEnd (s : string) : string :=
  match s with
  | EmptyString => EmptyString
  | String c r =>
      match trimStart s with
      | EmptyString => EmptyString
      | _ => String c (trimEnd r)
      end
  end.

Definition trim (s : string) : string := trimEnd (trimStart s).

(** [s.split(c)] for a one-character separator; the result is never
    empty: [''.split('\n')] is [['']]. *)
Fixpoint split (sep : ascii) (s : string) : list string :=
  match s with
  | EmptyString => [EmptyString]
  | String c r =>
      if Ascii.eqb c sep then EmptyString :: split sep r
      else match split sep r with
           | h :: t => String c h :: t
           | [] => [chr c]
           end
  end.

(** [parts.join(sep)] *)
Definition join (sep : string) (parts : list string) : string :=
  String.concat sep parts.

(** [s.startsWith(p)] *)
Definition startsWith (p s : string) : bool := String.prefix p s.

(** [s.replace(/c/g, '')] for one character [c]. *)
Fixpoint remove_all (c : ascii) (s : string) : string :=
  match s with
  | EmptyString => EmptyString
  | String a r => if Ascii.eqb a c then remove_all c r else String a (remove_all c r)
  end.

(** [s.replace(/c/g, d)] for characters [c] and [d]. *)
Fixpoint replace_all (c d : ascii) (s : string) : string :=
  match s with
  | EmptyString => EmptyString
  | String a r => String (if Ascii.eqb a c then d else a) (replace_all c d r)
  end.

(** [s.replace(/c$/, '')]: drops one [c] at the very end. *)
Fixpoint drop_final (c : ascii) (s : string) : string :=
  match s with
  | EmptyString => EmptyString
  | String a EmptyString => if Ascii.eqb a c then EmptyString else s
  | String a r => String a (drop_final c r)
  end.

(** [s.substring(0, n)] for [n >= 0]. *)
Definition substring0 (n : nat) (s : string) : string := String.substring 0 n s.

Fixpoint repeat_to (n : nat) (pad cur : string) : string :=
  match n with
  | O => EmptyString
  | S k =>
      match cur with
      | EmptyString =>
          match pad with
          | EmptyString => EmptyString
          | String c r => String c (repeat_to k pad r)
          end
      | String c r => String c (repeat_to k pad r)
      end
  end.

(** [s.padStart(target, pad)]: [s] itself when it is long enough or [pad]
    is empty, else [pad] repeated and cut to the missing length, then [s]. *)
Definition padStart (target : nat) (pad s : string) : string :=
  repeat_to (target - String.length s) pad pad ++ s.

(** [String(n)] for an integer [n]. *)
Definition String_ (n : Z) : string := NilZero.string_of_int (Z.to_int n).

End Js.

(** ** The runner and the observable state *)

(** A JavaScript [Error]: what the top-level handler prints. *)
Record JsError := { message : string; stack : string }.

(** Outcome of a statement that may throw. *)
Inductive Res (A : Type) :=
| Ok (a : A)
| Throw (e : JsError).
Arguments Ok {A} a.
Arguments Throw {A} e.

(** An external command: its name and its argument list. *)
Definition Call : Type := string * list string.

(** A child process that ran to its exit: the data it wrote on each stream,
    chunk by chunk as the listeners receive it, and its exit code. *)
Record ProcExit := {
  out_chunks : list string;
  err_chunks : list string;
  code : Z
}.

(** What starting a command leads to.  The toolkit resolves the executable
    before it spawns it, and reports a process that did not start as an
    error, not as an exit code. *)
Inductive Spawned :=
| Started (p : ProcExit)
| FailedToStart (e : JsError).

(** [process.env], the variables the action reads. *)
Record Env := {
  RUNNER_OS : option string;
  GITHUB_WORKSPACE : option string;
  GITHUB_REPOSITORY : option string;
  GITHUB_REF_NAME : option string;
  GITHUB_SHA : option string;
  JAVA_HOME : option string
}.

(** The instant [new Date()] returns, through its UTC getters;
    [getUTCMonth] counts from 0. *)
Record UTCDate := {
  getUTCFullYear : Z;
  getUTCMonth : Z;
  getUTCDate : Z;
  getUTCHours : Z;
  getUTCMinutes : Z;
  getUTCSeconds : Z
}.

(** The [os] module.  The two memory figures are floating-point quotients
    printed with [toFixed(2)]; the record holds the printed text. *)
Record OsModule := {
  os_type : string;
  os_release : string;
  os_version : string;
  os_arch : string;
  os_hostname : string;
  totalmem_GB : string;
  freemem_GB : string
}.

(** One path of the file system, through the two [fs] calls made on it. *)
Record File := {
  existsSync : bool;
  readFileSync : Res string
}.

(** The runner.  [action_input] is the value the workflow gives an input
    of the action, the empty string when it gives none.  [spawn] answers a
    command given the commands started before it, so a command may see the
    effects of earlier ones.
    [exit_error] is the [Error] the toolkit builds for a non-zero exit code
    that the caller did not ask to ignore. *)
Record Host := {
  env : Env;
  action_input : string -> string;
  now : UTCDate;
  os : OsModule;
  etc_os_release : File;
  spawn : list Call -> Call -> Spawned;
  exit_error : Call -> Z -> JsError
}.

(** What a run leaves behind. *)
Inductive Event :=
| StartGroup (name : string)
| EndGroup
| Log (line : string)
| Warning (msg : string)
| CommandLine (text : string)
| ChildOut (data : string)
| ChildErr (data : string).

Record State := {
  log : list Event;
  outputs : list (string * string);
  failed : option string;
  calls : list Call
}.

Definition initial : State :=
  {| log := []; outputs := []; failed := None; calls := [] |}.

Definition emit (evs : list Event) (s : State) : State :=
  {| log := log s ++ evs; outputs := outputs s; failed := failed s; calls := calls s |}.

Definition record_call (c : Call) (s : State) : State :=
  {| log := log s; outputs := outputs s; failed := failed s; calls := calls s ++ [c] |}.

(** ** Statements *)

Definition M (A : Type) : Type := State -> Res A * State.

Definition ret {A} (a : A) : M A := fun s => (Ok a, s).

Definition bind {A B} (m : M A) (f : A -> M B) : M B :=
  fun s =>
    match m s with
    | (Ok a, s') => f a s'
    | (Throw e, s') => (Throw e, s')
    end.

(** [try { m } catch (e) { handler e }] *)
Definition try_catch {A} (m : M A) (handler : JsError -> M A) : M A :=
  fun s =>
    match m s with
    | (Ok a, s') => (Ok a, s')
    | (Throw e, s') => handler e s'
    end.

Definition lift {A} (r : Res A) : M A := fun s => (r, s).

Declare Scope stmt_scope.
Delimit Scope stmt_scope with stmt.
Notation "x <- m ;; k" := (bind m (fun x => k))
  (at level 61, m at next level, right associativity) : stmt_scope.
Notation "m ;; k" := (bind m (fun _ => k))
  (at level 61, right associativity) : stmt_scope.
Open Scope stmt_scope.

Definition console_log (line : string) : M unit := fun s => (Ok tt, emit [Log line] s).
Definition startGroup (name : string) : M unit := fun s => (Ok tt, emit [StartGroup name] s).
Definition endGroup : M unit := fun s => (Ok tt, emit [EndGroup] s).
Definition warning (msg : string) : M unit := fun s => (Ok tt, emit [Warning msg] s).

Definition setOutput (name value : string) : M unit :=
  fun s => (Ok tt, {| log := log s; outputs := outputs s ++ [(name, value)];
                      failed := failed s; calls := calls s |}).

Definition setFailed (msg : string) : M unit :=
  fun s => (Ok tt, {| log := log s; outputs := outputs s;
                      failed := Some msg; calls := calls s |}).

(** [core.getInput(name)]: the value of the input with the white space
    around it trimmed, as the toolkit does unless asked not to. *)
Definition getInput (h : Host) (name : string) : string :=
  Js.trim (action_input h name).

(** ** [exec.exec] of the toolkit

    The options the source passes, with the two listeners as updates of the
    variables they close over. *)
Record ExecOptions (L : Type) := {
  silent : bool;
  ignoreReturnCode : bool;
  on_stdout : string -> L -> L;
  on_stderr : string -> L -> L
}.
Arguments silent {L} _.
Arguments ignoreReturnCode {L} _.
Arguments on_stdout {L} _.
Arguments on_stderr {L} _.

Definition default_options : ExecOptions unit :=
  {| silent := false; ignoreReturnCode := false;
     on_stdout := fun _ u => u; on_stderr := fun _ u => u |}.

(** The promise is rejected when the process did not start, and when it
    exits with a non-zero code unless [ignoreReturnCode]; otherwise it
    resolves to the exit code.  The listeners receive the data of the two
    streams; unless [silent], the command line and the data are also copied
    to the streams of the parent. *)
Definition exec_exec {L} (h : Host) (command : string) (args : list string)
    (o : ExecOptions L) (l : L) : M (Z * L) :=
  fun s =>
    let s1 := record_call (command, args) s in
    match spawn h (calls s) (command, args) with
    | FailedToStart e => (Throw e, s1)
    | Started p =>
        let l1 := fold_left (fun acc data => on_stdout o data acc) (out_chunks p) l in
        let l2 := fold_left (fun acc data => on_stderr o data acc) (err_chunks p) l1 in
        let s2 := if silent o then s1
                  else emit (CommandLine (Js.join " " (command :: args))
                               :: map ChildOut (out_chunks p)
                               ++ map ChildErr (err_chunks p)) s1 in
        if (code p =? 0) || ignoreReturnCode o
        then (Ok (code p, l2), s2)
        else (Throw (exit_error h (command, args) (code p)), s2)
    end.

(** ** The program *)

Record CommandResult := {
  stdout : string;
  stderr : string;
  exitCode : Z
}.

Section Program.

Variable h : Host.

(** [getCommandOutput(command, args)], lines 8-29.  The test on line 21
    guards an empty block. *)
Definition getCommandOutput (command : string) (args : list string) : M CommandResult :=
  r <- exec_exec h command args
         {| silent := true; ignoreReturnCode := true;
            on_stdout := fun data v => (fst v ++ data, snd v);
            on_stderr := fun data v => (fst v, snd v ++ data) |}
         (EmptyString, EmptyString) ;;
  ret {| stdout := Js.trim (fst (snd r));
         stderr := Js.trim (snd (snd r));
         exitCode := fst r |}.

(** [formatBlock(text, indent)], lines 32-34. *)
Definition formatBlock (text indent : string) : string :=
  Js.join (Js.chr Js.nl) (map (fun line => indent ++ line) (Js.split Js.nl text)).

Definition default_indent : string := "    ▶ ".

(** Line 38. *)
Definition showExtendedInfo : bool :=
  String.eqb (getInput h "show_extended_info") "true".

(** Lines 43-49. *)
Definition pad2 (n : Z) : string := Js.padStart 2 "0" (Js.String_ n).

Definition timestamp_of (d : UTCDate) : string :=
  let year := Js.String_ (getUTCFullYear d) in
  let month := pad2 (getUTCMonth d + 1) in
  let day := pad2 (getUTCDate d) in
  let hours := pad2 (getUTCHours d) in
  let minutes := pad2 (getUTCMinutes d) in
  let seconds := pad2 (getUTCSeconds d) in
  year ++ "-" ++ month ++ "-" ++ day ++ " " ++ hours ++ ":" ++ minutes ++ ":" ++ seconds ++ " UTC".

(** Stage 1, lines 41-52. *)
Definition generateTimestamp : M string :=
  startGroup "🕒 Generating Timestamp" ;;
  let timestamp := timestamp_of (now h) in
  setOutput "formatted_run_timestamp" timestamp ;;
  console_log ("Generated Timestamp: " ++ timestamp) ;;
  endGroup ;;
  ret timestamp.

(** [process.env.X === name] *)
Definition env_is (v : option string) (name : string) : bool :=
  match v with Some s => String.eqb s name | None => false end.

(** [line.split('=')[1]] with every double quote removed; calling
    [replace] on a missing second part is a [TypeError]. *)
Definition field_value (line : string) : Res string :=
  match Js.split "="%char line with
  | _ :: v :: _ => Ok (Js.remove_all Js.dquote v)
  | _ => Throw {| message := "Cannot read properties of undefined (reading 'replace')";
                  stack := EmptyString |}
  end.

(** [lines.map(f)] for a callback that may throw. *)
Fixpoint map_res {A B} (f : A -> Res B) (l : list A) : Res (list B) :=
  match l with
  | [] => Ok []
  | a :: r =>
      match f a with
      | Throw e => Throw e
      | Ok b => match map_res f r with
                | Throw e => Throw e
                | Ok bs => Ok (b :: bs)
                end
      end
  end.

(** Line 70: the values of the lines that start with [PRETTY_NAME=]. *)
Definition pretty_names (osRelease : string) : Res (list string) :=
  map_res field_value
    (filter (Js.startsWith "PRETTY_NAME=") (Js.split Js.nl osRelease)).

(** Line 72: the values of the lines that start with [NAME=] or [VERSION=]. *)
Definition name_and_version (osRelease : string) : Res (list string) :=
  map_res field_value
    (filter (fun line => Js.startsWith "NAME=" line || Js.startsWith "VERSION=" line)
            (Js.split Js.nl osRelease)).

(** Lines 70-73: [distroInfo] from the text of [/etc/os-release]. *)
Definition distroInfo_of (osRelease : string) : Res string :=
  match pretty_names osRelease with
  | Throw e => Throw e
  | Ok names =>
      let distroInfo := Js.join ", " names in
      if Js.truthy distroInfo then Ok distroInfo
      else match name_and_version osRelease with
           | Throw e => Throw e
           | Ok values => Ok (Js.join " " values)
           end
  end.

(** Lines 67-77: the value of [distroInfo] on a Linux runner. *)
Definition distroInfo : M string :=
  if existsSync (etc_os_release h) then
    osRelease <- lift (readFileSync (etc_os_release h)) ;;
    lift (distroInfo_of osRelease)
  else
    lsb <- getCommandOutput "lsb_release" ["-a"] ;;
    if (exitCode lsb =? 0) && Js.truthy (stdout lsb)
    then ret (Js.chr Js.nl ++ formatBlock (stdout lsb) default_indent)
    else ret "N/A".

Definition powershell_args : list string :=
  ["-Command";
   "Get-ComputerInfo | Select-Object OsName, OsVersion, OsArchitecture, CsManufacturer, CsModel | Format-List"].

Definition rule40 : string := "========================================".

(** Lines 66-86: the branch on the family of the runner. *)
Definition platformDetails : M unit :=
  if env_is (RUNNER_OS (env h)) "Linux" then
    d <- distroInfo ;;
    console_log ("  DISTRO INFO:    " ++ d)
  else if env_is (RUNNER_OS (env h)) "macOS" then
    swVers <- getCommandOutput "sw_vers" [] ;;
    if (exitCode swVers =? 0) && Js.truthy (stdout swVers)
    then console_log (formatBlock (stdout swVers)
                        ("  MACOS VERSION:" ++ Js.chr Js.nl ++ "    ▶ "))
    else ret tt
  else if env_is (RUNNER_OS (env h)) "Windows" then
    psInfo <- getCommandOutput "powershell" powershell_args ;;
    if (exitCode psInfo =? 0) && Js.truthy (stdout psInfo)
    then console_log (formatBlock (stdout psInfo)
                        ("  WINDOWS DETAILS:" ++ Js.chr Js.nl ++ "    ▶ "))
    else ret tt
  else ret tt.

(** Stage 2, lines 55-88. *)
Definition operatingSystemDetails (timestamp : string) : M unit :=
  startGroup "🖥️ Operating System Details" ;;
  console_log rule40 ;;
  console_log ("  ACTION TIME:    " ++ timestamp) ;;
  console_log ("  KERNEL INFO:    " ++ os_type (os h) ++ " " ++ os_release (os h)
                 ++ " " ++ os_version (os h)) ;;
  console_log ("  ARCHITECTURE:   " ++ os_arch (os h)) ;;
  console_log ("  RUNNER OS:      " ++ Js.env_show (RUNNER_OS (env h))) ;;
  console_log ("  HOSTNAME:       " ++ os_hostname (os h)) ;;
  console_log ("  TOTAL MEMORY:   " ++ totalmem_GB (os h) ++ " GB") ;;
  console_log ("  FREE MEMORY:    " ++ freemem_GB (os h) ++ " GB") ;;
  platformDetails ;;
  console_log rule40 ;;
  endGroup.

(** Line 94: the one command started without the helper, so with the
    toolkit's default options. *)
Definition safe_directory_call (workspace : string) : Call :=
  ("git", ["config"; "--global"; "--add"; "safe.directory"; workspace]).

Definition configureSafeDirectory : M unit :=
  match GITHUB_WORKSPACE (env h) with
  | Some (String c r) =>
      let workspace := String c r in
      exec_exec h (fst (safe_directory_call workspace)) (snd (safe_directory_call workspace))
                default_options tt ;;
      console_log ("✅ Added " ++ workspace ++ " to git safe.directory")
  | _ =>
      warning "GITHUB_WORKSPACE not set. Skipping git safe.directory configuration."
  end.

(** [process.env.X || (await getCommandOutput('git', args)).stdout],
    lines 101 and 103. *)
Definition env_or_git (v : option string) (args : list string) : M string :=
  match v with
  | Some (String c r) => ret (String c r)
  | _ => q <- getCommandOutput "git" args ;; ret (stdout q)
  end.

Definition branchName : M string :=
  env_or_git (GITHUB_REF_NAME (env h)) ["rev-parse"; "--abbrev-ref"; "HEAD"].

Definition commitSha : M string :=
  env_or_git (GITHUB_SHA (env h)) ["rev-parse"; "HEAD"].

(** [commitSha.substring(0, 7)], line 105. *)
Definition shortSha (commitSha : string) : string := Js.substring0 7 commitSha.

Definition author_args : list string := ["log"; "-1"; "--pretty=format:%an <%ae>"].
Definition commitDate_args : list string :=
  ["log"; "-1"; "--pretty=format:%ad"; "--date=format:%Y-%m-%d %H:%M:%S %Z"].
Definition remoteUrl_args : list string := ["remote"; "get-url"; "origin"].
Definition tagsAtHead_args : list string := ["tag"; "--points-at"; "HEAD"].
Definition commitMessage_args : list string := ["log"; "-1"; "--pretty=%B"].

(** Stage 3, lines 91-120. *)
Definition gitRepositoryDetails : M unit :=
  startGroup "🌳 Git Repository Details" ;;
  configureSafeDirectory ;;
  console_log rule40 ;;
  console_log ("  REPOSITORY:       " ++ Js.env_show (GITHUB_REPOSITORY (env h))) ;;
  branch <- branchName ;;
  console_log ("  BRANCH:           " ++ branch) ;;
  sha <- commitSha ;;
  console_log ("  COMMIT SHA:       " ++ sha) ;;
  console_log ("  SHORT SHA:        " ++ shortSha sha) ;;
  author <- getCommandOutput "git" author_args ;;
  console_log ("  AUTHOR:           " ++ stdout author) ;;
  commitDate <- getCommandOutput "git" commitDate_args ;;
  console_log ("  COMMIT DATE:      " ++ stdout commitDate) ;;
  remote <- getCommandOutput "git" remoteUrl_args ;;
  console_log ("  REMOTE URL:       " ++ Js.or (stdout remote) "N/A") ;;
  tags <- getCommandOutput "git" tagsAtHead_args ;;
  console_log ("  TAGS AT HEAD:     "
                 ++ Js.or (Js.drop_final ","%char (Js.replace_all Js.nl ","%char (stdout tags)))
                          "N/A") ;;
  console_log EmptyString ;;
  commitMessage <- getCommandOutput "git" commitMessage_args ;;
  console_log "  COMMIT MESSAGE:" ;;
  console_log (formatBlock (stdout commitMessage) "    ") ;;
  console_log rule40 ;;
  endGroup.

Definition java_not_found : string :=
  "    ▶ Java not found in PATH or -version command failed.".

(** The Java probe, lines 127-137. *)
Definition javaProbe : M unit :=
  console_log "  JAVA DETAILS:" ;;
  javaVersionCmd <- getCommandOutput "java" ["-version"] ;;
  (if (exitCode javaVersionCmd =? 0)
      && (Js.truthy (stdout javaVersionCmd) || Js.truthy (stderr javaVersionCmd))
   then
     console_log "    ▶ Version:" ;;
     console_log (formatBlock (Js.or (stderr javaVersionCmd) (stdout javaVersionCmd))
                              "      --> ") ;;
     console_log ("    ▶ JAVA_HOME:    "
                    ++ Js.env_or (JAVA_HOME (env h)) "N/A (Not explicitly set or found)")
   else
     console_log java_not_found) ;;
  console_log EmptyString.

Definition tree_call : Call :=
  ("tree", ["-L"; "3"; "-a"; "-I"; ".git|.m2|target|node_modules";
            Js.env_or (GITHUB_WORKSPACE (env h)) "."]).

Definition winTree_call : Call :=
  ("cmd", ["/c"; "tree"; "/F"; "/A"; Js.env_or (GITHUB_WORKSPACE (env h)) "."]).

Definition tree_not_found : string :=
  "    ▶ 'tree' command not found or failed. Please install it on the runner for a detailed view.".
Definition winTree_failed : string :=
  "    ▶ Windows 'tree' command also failed or directory is empty.".
Definition tree_error : string :=
  "    ▶ Error executing tree command.".

(** The directory-tree probe, lines 138-157. *)
Definition treeProbe : M unit :=
  console_log "  DIRECTORY TREE (current workspace, max depth 3):" ;;
  try_catch
    (tree <- getCommandOutput (fst tree_call) (snd tree_call) ;;
     if (exitCode tree =? 0) && Js.truthy (stdout tree) then
       console_log (formatBlock (stdout tree) "    ")
     else if env_is (RUNNER_OS (env h)) "Windows" then
       console_log "    ▶ 'tree' command failed or not found. Using 'cmd /c tree /F /A' for Windows (basic):" ;;
       winTree <- getCommandOutput (fst winTree_call) (snd winTree_call) ;;
       if (exitCode winTree =? 0) && Js.truthy (stdout winTree)
       then console_log (formatBlock (stdout winTree) "      ")
       else console_log winTree_failed
     else
       console_log tree_not_found)
    (fun treeError =>
       warning ("Tree command execution error: " ++ message treeError) ;;
       console_log tree_error).

Definition extended_title : string := "☕ Java Environment & 📁 Directory Structure".
Definition rule54 : string := "======================================================".

(** Stage 4, lines 124-160. *)
Definition extendedInfo : M unit :=
  if showExtendedInfo then
    startGroup extended_title ;;
    console_log rule54 ;;
    javaProbe ;;
    treeProbe ;;
    console_log rule54 ;;
    endGroup
  else ret tt.

(** [run], lines 36-165. *)
Definition run : M unit :=
  try_catch
    (timestamp <- generateTimestamp ;;
     operatingSystemDetails timestamp ;;
     gitRepositoryDetails ;;
     extendedInfo)
    (fun error =>
       setFailed ("Action failed: " ++ message error ++ Js.chr Js.nl ++ stack error)).

End Program.

(** The state a run of the action ends in. *)
Definition final (h : Host) : State := snd (run h initial).

(** ** Vocabulary of the statements *)

(** All the data of a stream, in the order it arrived. *)
Definition all_data (chunks : list string) : string :=
  fold_right String.append EmptyString chunks.

(** The result the helper builds from a child process that ran to its exit. *)
Definition result_of (p : ProcExit) : CommandResult :=
  {| stdout := Js.trim (all_data (out_chunks p));
     stderr := Js.trim (all_data (err_chunks p));
     exitCode := code p |}.

Definition is_digit (c : ascii) : bool :=
  ((48 <=? nat_of_ascii c) && (nat_of_ascii c <=? 57))%nat.

Definition digit_value (c : ascii) : Z := Z.of_nat (nat_of_ascii c) - 48.

(** The number a string of decimal digits writes. *)
Fixpoint decimal_from (acc : Z) (s : string) : Z :=
  match s with
  | EmptyString => acc
  | String c r => decimal_from (10 * acc + digit_value c) r
  end.

Definition decimal (s : string) : Z := decimal_from 0 s.

(** [matches pat s]: [s] has the shape [pat], where the letter [d] of the
    pattern stands for any decimal digit and every other character for
    itself. *)
Fixpoint matches (pat s : string) : bool :=
  match pat, s with
  | EmptyString, EmptyString => true
  | String p pat', String c s' =>
      (if Ascii.eqb p "d" then is_digit c else Ascii.eqb p c) && matches pat' s'
  | _, _ => false
  end.

Definition timestamp_pattern : string := "dddd-dd-dd dd:dd:dd UTC".

(** The instants whose year is written with four digits. *)
Definition valid_instant (d : UTCDate) : Prop :=
  1000 <= getUTCFullYear d <= 9999 /\
  0 <= getUTCMonth d <= 11 /\
  1 <= getUTCDate d <= 31 /\
  0 <= getUTCHours d <= 23 /\
  0 <= getUTCMinutes d <= 59 /\
  0 <= getUTCSeconds d <= 59.

Definition two_digits_ok (n : Z) : bool :=
  match Js.padStart 2 "0" (Js.String_ n) with
  | String a (String b EmptyString) =>
      is_digit a && is_digit b && (10 * digit_value a + digit_value b =? n)
  | _ => false
  end.

Definition four_digits_ok (n : Z) : bool :=
  match Js.String_ n with
  | String a (String b (String c (String d EmptyString))) =>
      is_digit a && is_digit b && is_digit c && is_digit d
      && (1000 * digit_value a + 100 * digit_value b + 10 * digit_value c + digit_value d =? n)
  | _ => false
  end.

(** The [n] integers from [lo] on. *)
Definition Zrange (lo n : Z) : list Z :=
  map (fun k => lo + Z.of_nat k) (seq 0 (Z.to_nat n)).

(** ** Frames

    [grows Pc Pe s s']: from [s] to [s'] the log and the list of commands
    were extended, by events that satisfy [Pe] and commands that satisfy
    [Pc], and nothing else changed. *)
Definition grows (Pc : Call -> Prop) (Pe : Event -> Prop) (s s' : State) : Prop :=
  exists evs cs,
    log s' = (log s ++ evs)%list /\
    calls s' = (calls s ++ cs)%list /\
    Forall Pe evs /\ Forall Pc cs /\
    outputs s' = outputs s /\ failed s' = failed s.

Definition keeps (Pc : Call -> Prop) (Pe : Event -> Prop) {A} (m : M A) : Prop :=
  forall s, grows Pc Pe s (snd (m s)).

Definition any_call (c : Call) : Prop := True.
Definition any_event (e : Event) : Prop := True.

(** What a statement added to the log, and the commands it started. *)
Definition events_since (s s' : State) : list Event := skipn (length (log s)) (log s').
Definition calls_since (s s' : State) : list Call := skipn (length (calls s)) (calls s').

Definition java_call : Call := ("java", ["-version"]).

(** A query whose result does not pass the test
    [exitCode === 0 && stdout] of the probes. *)
Definition no_output (r : CommandResult) : Prop :=
  exitCode r <> 0 \/ stdout r = EmptyString.

(** The primary tree command failed: it did not start, or its result does
    not pass the test. *)
Definition primary_failed (h : Host) (s : State) : Prop :=
  match spawn h (calls s) (tree_call h) with
  | Started p => no_output (result_of p)
  | FailedToStart _ => True
  end.

(** The same for the Windows command, which is started after the primary. *)
Definition fallback_failed (h : Host) (s : State) : Prop :=
  match spawn h (calls s ++ [tree_call h]) (winTree_call h) with
  | Started p => no_output (result_of p)
  | FailedToStart _ => True
  end.

(** The messages by which the tree probe says that no listing is available. *)
Definition unavailable (e : Event) : Prop :=
  e = Log tree_not_found \/ e = Log winTree_failed \/ e = Log tree_error.

(** The runner [h] with another value of one variable. *)
Definition with_ref (h : Host) (v : option string) : Host :=
  {| env := {| RUNNER_OS := RUNNER_OS (env h);
               GITHUB_WORKSPACE := GITHUB_WORKSPACE (env h);
               GITHUB_REPOSITORY := GITHUB_REPOSITORY (env h);
               GITHUB_REF_NAME := v;
               GITHUB_SHA := GITHUB_SHA (env h);
               JAVA_HOME := JAVA_HOME (env h) |};
     action_input := action_input h; now := now h; os := os h;
     etc_os_release := etc_os_release h; spawn := spawn h;
     exit_error := exit_error h |}.

Definition with_sha (h : Host) (v : option string) : Host :=
  {| env := {| RUNNER_OS := RUNNER_OS (env h);
               GITHUB_WORKSPACE := GITHUB_WORKSPACE (env h);
               GITHUB_REPOSITORY := GITHUB_REPOSITORY (env h);
               GITHUB_REF_NAME := GITHUB_REF_NAME (env h);
               GITHUB_SHA := v;
               JAVA_HOME := JAVA_HOME (env h) |};
     action_input := action_input h; now := now h; os := os h;
     etc_os_release := etc_os_release h; spawn := spawn h;
     exit_error := exit_error h |}.

(** A text that is white space only: some white-space characters, one
    after the other. *)
Inductive white : string -> Prop :=
| white_empty : white EmptyString
| white_more (w s : string) : Js.is_space w = true -> white s -> white (w ++ s).

(** The text begins, or ends, with a white-space character. *)
Definition begins_with_space (s : string) : Prop :=
  exists w r, Js.is_space w = true /\ s = w ++ r.

Definition ends_with_space (s : string) : Prop :=
  exists r w, Js.is_space w = true /\ s = r ++ w.

(** The text is [inner] with white space, and nothing else, around it. *)
Definition padded (inner s : string) : Prop :=
  exists a b, white a /\ white b /\ s = a ++ inner ++ b.

(** The bytes that begin a white-space character. *)
Definition lead_byte (c : ascii) : bool :=
  existsb (Nat.eqb (nat_of_ascii c)) [9; 10; 11; 12; 13; 32; 194; 225; 226; 227; 239]%nat.


(** A line of [/etc/os-release]: the key, an equals sign, the value in
    double quotes. *)
Definition quoted (key value : string) : string :=
  key ++ "=" ++ Js.chr Js.dquote ++ value ++ Js.chr Js.dquote.

Fixpoint has_char (c : ascii) (s : string) : bool :=
  match s with
  | EmptyString => false
  | String a r => Ascii.eqb a c || has_char c r
  end.

(** A value without an equals sign and without a double quote. *)
Definition plain (v : string) : Prop :=
  has_char "="%char v = false /\ has_char Js.dquote v = false.

(** The lines of the file that line 70, and that line 72, keep. *)
Definition pretty_lines (osRelease : string) : list string :=
  filter (Js.startsWith "PRETTY_NAME=") (Js.split Js.nl osRelease).

Definition name_version_lines (osRelease : string) : list string :=
  filter (fun line => Js.startsWith "NAME=" line || Js.startsWith "VERSION=" line)
         (Js.split Js.nl osRelease).

(** The platform inspector reports [d] as the distribution: [distroInfo]
    evaluates to it and the run logs it. *)
Definition reports_distro (h : Host) (d : string) : Prop :=
  (forall s, distroInfo h s = (Ok d, s))
  /\ In (Log ("  DISTRO INFO:    " ++ d)) (log (final h)).

Definition lsb_call : Call := ("lsb_release", ["-a"]).

(** What stage 1 and the head of stage 2 log, before the branch on the
    family of the runner. *)
Definition timestamp_events (h : Host) : list Event :=
  [StartGroup "🕒 Generating Timestamp";
   Log ("Generated Timestamp: " ++ timestamp_of (now h));
   EndGroup].

Definition os_header (h : Host) (ts : string) : list Event :=
  [StartGroup "🖥️ Operating System Details";
   Log rule40;
   Log ("  ACTION TIME:    " ++ ts);
   Log ("  KERNEL INFO:    " ++ os_type (os h) ++ " " ++ os_release (os h)
          ++ " " ++ os_version (os h));
   Log ("  ARCHITECTURE:   " ++ os_arch (os h));
   Log ("  RUNNER OS:      " ++ Js.env_show (RUNNER_OS (env h)));
   Log ("  HOSTNAME:       " ++ os_hostname (os h));
   Log ("  TOTAL MEMORY:   " ++ totalmem_GB (os h) ++ " GB");
   Log ("  FREE MEMORY:    " ++ freemem_GB (os h) ++ " GB")].

(** The state when the branch on the family of the runner is entered. *)
Definition at_platform (h : Host) : State :=
  {| log := timestamp_events h ++ os_header h (timestamp_of (now h));
     outputs := [("formatted_run_timestamp", timestamp_of (now h))];
     failed := None;
     calls := [] |}.

(** The top-level handler, line 163. *)
Definition mark_failed (error : JsError) (s : State) : State :=
  snd (setFailed ("Action failed: " ++ message error ++ Js.chr Js.nl ++ stack error) s).

(** Commands and events of the first three stages: no command of the two
    probes, and neither the group nor the headings of the extended section. *)
Definition java_heading : string := "  JAVA DETAILS:".
Definition tree_heading : string := "  DIRECTORY TREE (current workspace, max depth 3):".

Definition basic_call (c : Call) : Prop :=
  fst c <> "java" /\ fst c <> "tree" /\ fst c <> "cmd".

Definition basic_event (e : Event) : Prop :=
  e <> StartGroup extended_title /\ e <> Log java_heading /\ e <> Log tree_heading.

(** Runners on which no command fails to start, the file can be read when
    it exists, and the safe.directory configuration exits with zero. *)
Definition every_command_starts (h : Host) : Prop :=
  forall hist c, exists p, spawn h hist c = Started p.

Definition file_is_readable (h : Host) : Prop :=
  existsSync (etc_os_release h) = true -> exists t, readFileSync (etc_os_release h) = Ok t.

Definition safe_directory_succeeds (h : Host) : Prop :=
  forall hist workspace p,
    spawn h hist (safe_directory_call workspace) = Started p -> code p = 0.

(** The commands of a run, stage by stage, as the environment fixes them. *)
Definition platform_calls (h : Host) : list Call :=
  if env_is (RUNNER_OS (env h)) "Linux" then
    if existsSync (etc_os_release h) then [] else [lsb_call]
  else if env_is (RUNNER_OS (env h)) "macOS" then [("sw_vers", [])]
  else if env_is (RUNNER_OS (env h)) "Windows" then [("powershell", powershell_args)]
  else [].

Definition safe_directory_calls (h : Host) : list Call :=
  match GITHUB_WORKSPACE (env h) with
  | Some (String c r) => [safe_directory_call (String c r)]
  | _ => []
  end.

Definition rev_parse_calls (h : Host) : list Call :=
  (if Js.env_truthy (GITHUB_REF_NAME (env h)) then []
   else [("git", ["rev-parse"; "--abbrev-ref"; "HEAD"])])
  ++ (if Js.env_truthy (GITHUB_SHA (env h)) then []
      else [("git", ["rev-parse"; "HEAD"])]).

Definition git_log_calls : list Call :=
  [("git", author_args); ("git", commitDate_args); ("git", remoteUrl_args);
   ("git", tagsAtHead_args); ("git", commitMessage_args)].

Definition extended_calls (h : Host) : list Call :=
  if showExtendedInfo h then [java_call; tree_call h] else [].

Definition planned (h : Host) : list Call :=
  platform_calls h ++ safe_directory_calls h ++ rev_parse_calls h
    ++ git_log_calls ++ extended_calls h.

(** [completes m cs]: from every state [m] returns, having started the
    commands [cs] and no other, and leaves the failure mark as it was. *)
Definition completes {A} (m : M A) (cs : list Call) : Prop :=
  forall s, exists a s',
    m s = (Ok a, s') /\ calls s' = (calls s ++ cs)%list /\ failed s' = failed s.

(** As [completes], but further commands may follow [cs]. *)
Definition completes_upto {A} (m : M A) (cs : list Call) : Prop :=
  forall s, exists a s' extra,
    m s = (Ok a, s') /\ calls s' = (calls s ++ cs ++ extra)%list /\ failed s' = failed s.

(** The run reaches the extended section in the state [s3]: the stages
    before it returned. *)
Definition reaches_extended (h : Host) (s3 : State) : Prop :=
  exists u2 s2 u3,
    (platformDetails h ;; console_log rule40 ;; endGroup) (at_platform h) = (Ok u2, s2)
    /\ gitRepositoryDetails h s2 = (Ok u3, s3).

(** What the extended section logs before the Java query. *)
Definition extended_opening : list Event :=
  [StartGroup extended_title; Log rule54; Log java_heading].

(** [extend cs evs s]: the state [s] after the commands [cs] were started
    and the events [evs] logged. *)
Definition extend (cs : list Call) (evs : list Event) (s : State) : State :=
  {| log := log s ++ evs; outputs := outputs s; failed := failed s;
     calls := calls s ++ cs |}.

(** [runs_to m hist cs evs a]: from every state in which the commands
    started so far are [hist], [m] returns [a], having started the commands
    [cs] and logged the events [evs], and changes nothing else. *)
Definition runs_to {A} (m : M A) (hist cs : list Call) (evs : list Event) (a : A) : Prop :=
  forall s, calls s = hist -> m s = (Ok a, extend cs evs s).

(** The three git queries whose output stage 3 edits before it logs it. *)
Definition branch_query : Call := ("git", ["rev-parse"; "--abbrev-ref"; "HEAD"]).
Definition sha_query : Call := ("git", ["rev-parse"; "HEAD"]).
Definition tags_query : Call := ("git", tagsAtHead_args).

(** The value a variable of the environment gives, or else the trimmed
    standard output of the query that ran in its place. *)
Definition variable_or_output (v : option string) (p : ProcExit) : string :=
  if Js.env_truthy v then Js.env_show v else Js.trim (all_data (out_chunks p)).

(** ** Sample runners *)

Module Demo.

(** 2024-03-05T07:02:09Z *)
Definition instant : UTCDate :=
  {| getUTCFullYear := 2024; getUTCMonth := 2; getUTCDate := 5;
     getUTCHours := 7; getUTCMinutes := 2; getUTCSeconds := 9 |}.

Definition os_facts : OsModule :=
  {| os_type := "Linux"; os_release := "6.5.0"; os_version := "#1 SMP";
     os_arch := "x64"; os_hostname := "runner";
     totalmem_GB := "15.61"; freemem_GB := "12.04" |}.

Definition input (value : string) : string -> string :=
  fun name => if String.eqb name "show_extended_info" then value else EmptyString.

Definition toolkit_error : Call -> Z -> JsError :=
  fun c n =>
    {| message := "The process '" ++ fst c ++ "' failed with exit code " ++ Js.String_ n;
       stack := "Error: The process failed" |}.

Definition not_located (tool : string) : JsError :=
  {| message := "Unable to locate executable file: " ++ tool;
     stack := "Error: Unable to locate executable file" |}.

(** Every command runs, prints [out] and [err], and exits with [c]. *)
Definition exits (c : Z) (out err : list string) : list Call -> Call -> Spawned :=
  fun _ _ => Started {| out_chunks := out; err_chunks := err; code := c |}.

(** As [exits 0], but the command named [tool] cannot be started. *)
Definition without (tool : string) (out err : list string) : list Call -> Call -> Spawned :=
  fun _ c =>
    if String.eqb (fst c) tool then FailedToStart (not_located tool)
    else Started {| out_chunks := out; err_chunks := err; code := 0 |}.

Definition no_file : File :=
  {| existsSync := false;
     readFileSync := Throw {| message := "ENOENT: no such file or directory, open '/etc/os-release'";
                              stack := "Error: ENOENT" |} |}.

Definition file (text : string) : File :=
  {| existsSync := true; readFileSync := Ok text |}.

Definition environment (runner_os workspace : option string) : Env :=
  {| RUNNER_OS := runner_os; GITHUB_WORKSPACE := workspace;
     GITHUB_REPOSITORY := Some "octo/repo"; GITHUB_REF_NAME := Some "main";
     GITHUB_SHA := Some "0123456789abcdef0123456789abcdef01234567";
     JAVA_HOME := None |}.

Definition host (runner_os workspace : option string) (flag : string) (f : File)
    (sp : list Call -> Call -> Spawned) : Host :=
  {| env := environment runner_os workspace;
     action_input := input flag;
     now := instant;
     os := os_facts;
     etc_os_release := f;
     spawn := sp;
     exit_error := toolkit_error |}.

Definition lines (l : list string) : string := Js.join (Js.chr Js.nl) l.

(** A Java that prints its version on standard error and exits with 0. *)
Definition java_exit : ProcExit :=
  {| out_chunks := []; err_chunks := ["openjdk version 21" ++ Js.chr Js.nl]; code := 0 |}.

Definition java_host : Host :=
  host (Some "Linux") None "true" no_file (fun _ _ => Started java_exit).

(** An os-release file whose PRETTY_NAME line is the one of the claim. *)
Definition test_os : string :=
  lines [quoted "NAME" "Test"; quoted "VERSION" "1.0"; "ID=test";
         quoted "PRETTY_NAME" "Test OS 1.0"; EmptyString].

(** An os-release file with two PRETTY_NAME lines. *)
Definition two_pretty_names : string :=
  lines [quoted "PRETTY_NAME" "Test OS 1.0"; quoted "PRETTY_NAME" "Other OS 2"].

(** An os-release file without a PRETTY_NAME line. *)
Definition name_version_only : string :=
  lines [quoted "NAME" "Test"; quoted "VERSION" "1.0"; "ID=test"].

(** A Linux runner with neither [/etc/os-release] nor [lsb_release]. *)
Definition bare_linux : Host :=
  host (Some "Linux") None "false" no_file (without "lsb_release" ["ok"] []).

(** A runner with the workspace set, on which every command exits with 1. *)
Definition all_fail (flag : string) : Host :=
  host (Some "macOS") (Some "/home/runner/work/repo") flag no_file
       (exits 1 [] ["fatal: error" ++ Js.chr Js.nl]).

(** A runner on which every command exits with 1, but for the
    safe.directory configuration, which exits with 0. *)
Definition only_config_succeeds (runner_os : option string) : Host :=
  host runner_os (Some "/home/runner/work/repo") "true" no_file
       (fun _ c =>
          Started {| out_chunks := []; err_chunks := ["fatal: error" ++ Js.chr Js.nl];
                     code := match snd c with
                             | "config" :: _ => 0
                             | _ => 1
                             end |}).

Definition linux_with (text : string) : Host :=
  host (Some "Linux") None "false" (file text) (exits 0 ["ok"] []).

(** What git prints for the queries of stage 3 in a checkout with two tags
    at its head; the branch comes with white space around it. *)
Definition git_answer (c : Call) : list string :=
  match snd c with
  | ["rev-parse"; "--abbrev-ref"; "HEAD"] => ["  feature/login "; Js.chr Js.nl]
  | ["rev-parse"; "HEAD"] => ["89abcdef0123456789abcdef0123456789abcdef" ++ Js.chr Js.nl]
  | ["tag"; "--points-at"; "HEAD"] => ["v1.2.0" ++ Js.chr Js.nl; "latest" ++ Js.chr Js.nl]
  | _ => []
  end.

(** A runner of that checkout on which the variable of the branch is unset
    and the variable of the hash is the empty string. *)
Definition detached : Host :=
  with_sha
    (with_ref
       (host (Some "macOS") (Some "/home/runner/work/repo") "false" no_file
             (fun _ c => Started {| out_chunks := git_answer c; err_chunks := []; code := 0 |}))
       None)
    (Some EmptyString).

End Demo.

(** ** Vocabulary of the further properties *)

(** The last character of a string. *)
Fixpoint last_char (s : string) : option ascii :=
  match s with
  | EmptyString => None
  | String c EmptyString => Some c
  | String _ r => last_char r
  end.

(** The text line 113 logs for the tags, from the output of the query. *)
Definition tagsAtHead_of (out : string) : string :=
  Js.or (Js.drop_final ","%char (Js.replace_all Js.nl ","%char out)) "N/A".

(** A tag name as the query prints it: not empty, on one line, and without
    a comma. *)
Definition tag_name (t : string) : Prop :=
  t <> EmptyString /\ has_char Js.nl t = false /\ has_char ","%char t = false.

(** The two platform queries that log a block under a heading. *)
Definition sw_vers_call : Call := ("sw_vers", []).
Definition powershell_call : Call := ("powershell", powershell_args).
Definition macos_heading : string := "  MACOS VERSION:".
Definition windows_heading : string := "  WINDOWS DETAILS:".
Definition bullet : string := "    ▶ ".

(** ** The commands of a run *)

Definition prefix_of {A} (pre l : list A) : Prop := exists rest, l = (pre ++ rest)%list.

(** [starts_exactly m cs]: when [m] returns it has started the commands
    [cs]; when it raises it has started the first ones of [cs]. *)
Definition starts_exactly {A} (m : M A) (cs : list Call) : Prop :=
  forall s, exists pre,
    calls (snd (m s)) = (calls s ++ pre)%list /\
    match fst (m s) with
    | Ok _ => pre = cs
    | Throw _ => prefix_of pre cs
    end.

(** [starts_within m l]: [m] starts the first commands of [l], some or all. *)
Definition starts_within {A} (m : M A) (l : list Call) : Prop :=
  forall s, exists pre,
    calls (snd (m s)) = (calls s ++ pre)%list /\ prefix_of pre l.

(** Every command a run can start, in the order of the source. *)
Definition possible (h : Host) : list Call :=
  platform_calls h ++ safe_directory_calls h ++ rev_parse_calls h ++ git_log_calls
    ++ (if showExtendedInfo h then [java_call; tree_call h; winTree_call h] else []).

(** The name of a command with its first three arguments: enough to tell
    the commands of the program apart. *)
Definition call_key (c : Call) : string :=
  Js.join " " (fst c :: firstn 3 (snd c)).

Fixpoint distinct (l : list string) : bool :=
  match l with
  | [] => true
  | a :: r => negb (existsb (String.eqb a) r) && distinct r
  end.

(** ** Groups of the log *)




(** The first part of a value, up to its first equals sign. *)
Definition before_equals (v : string) : string :=
  match Js.split "="%char v with
  | part :: _ => part
  | [] => EmptyString
  end.

(** ** The order of instants *)

(** [earlier a b]: the instant [a] comes before the instant [b]. *)
Definition earlier (a b : UTCDate) : Prop :=
  getUTCFullYear a < getUTCFullYear b \/
  (getUTCFullYear a = getUTCFullYear b /\
   (getUTCMonth a < getUTCMonth b \/
    (getUTCMonth a = getUTCMonth b /\
     (getUTCDate a < getUTCDate b \/
      (getUTCDate a = getUTCDate b /\
       (getUTCHours a < getUTCHours b \/
        (getUTCHours a = getUTCHours b /\
         (getUTCMinutes a < getUTCMinutes b \/
          (getUTCMinutes a = getUTCMinutes b /\
           getUTCSeconds a < getUTCSeconds b))))))))).

(** The fields of an instant other than the year are in their ranges. *)
Definition valid_clock (d : UTCDate) : Prop :=
  0 <= getUTCMonth d <= 11 /\
  1 <= getUTCDate d <= 31 /\
  0 <= getUTCHours d <= 23 /\
  0 <= getUTCMinutes d <= 59 /\
  0 <= getUTCSeconds d <= 59.

Definition short_year_ok (y : Z) : bool :=
  (String.length (Js.String_ y) <=? 3)%nat.

(** A macOS runner whose version query prints two lines. *)
Definition macos_exit : ProcExit :=
  {| out_chunks := ["ProductName: macOS" ++ Js.chr Js.nl; "ProductVersion: 14.5" ++ Js.chr Js.nl];
     err_chunks := [];
     code := 0 |}.

Definition macos_host : Host :=
  Demo.host (Some "macOS") None "false" Demo.no_file (fun _ _ => Started macos_exit).

(** * Properties *)

(** ** Text *)

Lemma append_assoc (a b c : string) : (a ++ b) ++ c = a ++ (b ++ c).
Proof. induction a as [|x a IH]; simpl; [reflexivity | now rewrite IH]. Qed.

Lemma append_empty_r (a : string) : a ++ EmptyString = a.
Proof. induction a as [|x a IH]; simpl; [reflexivity | now rewrite IH]. Qed.

Lemma truthy_false (s : string) : Js.truthy s = false <-> s = EmptyString.
Proof. destruct s; simpl; split; intros; congruence. Qed.

Lemma truthy_true (s : string) : Js.truthy s = true <-> s <> EmptyString.
Proof. destruct s; simpl; split; intros; congruence. Qed.

Lemma Zrange_forall (f : Z -> bool) (lo n : Z) :
  forallb f (Zrange lo n) = true ->
  forall z, lo <= z < lo + n -> f z = true.
Proof.
  intros Hall z Hz. rewrite forallb_forall in Hall. apply Hall.
  unfold Zrange. apply in_map_iff. exists (Z.to_nat (z - lo)). split.
  - lia.
  - apply in_seq. lia.
Qed.

(** ** State bookkeeping *)

Lemma log_emit evs s : log (emit evs s) = (log s ++ evs)%list.
Proof. reflexivity. Qed.

Lemma calls_emit evs s : calls (emit evs s) = calls s.
Proof. reflexivity. Qed.

Lemma outputs_emit evs s : outputs (emit evs s) = outputs s.
Proof. reflexivity. Qed.

Lemma failed_emit evs s : failed (emit evs s) = failed s.
Proof. reflexivity. Qed.

Lemma log_record_call c s : log (record_call c s) = log s.
Proof. reflexivity. Qed.

Lemma calls_record_call c s : calls (record_call c s) = (calls s ++ [c])%list.
Proof. reflexivity. Qed.

Lemma outputs_record_call c s : outputs (record_call c s) = outputs s.
Proof. reflexivity. Qed.

Lemma failed_record_call c s : failed (record_call c s) = failed s.
Proof. reflexivity. Qed.

Create Rewrite HintDb state.
#[export] Hint Rewrite log_emit calls_emit outputs_emit failed_emit
  log_record_call calls_record_call outputs_record_call failed_record_call : state.

(** ** The command helper *)

Lemma listen_stdout (chunks : list string) (o e : string) :
  fold_left (fun acc data => (fst acc ++ data, snd acc)) chunks (o, e)
  = (o ++ all_data chunks, e).
Proof.
  revert o. induction chunks as [|d chunks IH]; intros o; simpl.
  - now rewrite append_empty_r.
  - rewrite IH, append_assoc. reflexivity.
Qed.

Lemma listen_stderr (chunks : list string) (o e : string) :
  fold_left (fun acc data => (fst acc, snd acc ++ data)) chunks (o, e)
  = (o, e ++ all_data chunks).
Proof.
  revert e. induction chunks as [|d chunks IH]; intros e; simpl.
  - now rewrite append_empty_r.
  - rewrite IH, append_assoc. reflexivity.
Qed.

Lemma getCommandOutput_started h command args s p :
  spawn h (calls s) (command, args) = Started p ->
  getCommandOutput h command args s = (Ok (result_of p), record_call (command, args) s).
Proof.
  intros Hp. unfold getCommandOutput, bind, exec_exec, ret. simpl.
  rewrite Hp. rewrite orb_true_r.
  rewrite listen_stdout, listen_stderr. reflexivity.
Qed.

Lemma getCommandOutput_not_started h command args s e :
  spawn h (calls s) (command, args) = FailedToStart e ->
  getCommandOutput h command args s = (Throw e, record_call (command, args) s).
Proof.
  intros Hp. unfold getCommandOutput, bind, exec_exec. simpl.
  now rewrite Hp.
Qed.

(** C3.  Whatever the command and its arguments, when the child process runs
    to its exit the helper does not raise, whatever the exit code: it returns
    the trimmed text of standard output, the trimmed text of standard error
    and the exit code as the process gave it.  Nothing of the child's streams
    reaches the log of the parent; the state changes by the record of the
    command alone. *)
Theorem getCommandOutput_returns_data h command args s p :
  spawn h (calls s) (command, args) = Started p ->
  let r := getCommandOutput h command args s in
  fst r = Ok {| stdout := Js.trim (all_data (out_chunks p));
                stderr := Js.trim (all_data (err_chunks p));
                exitCode := code p |}
  /\ log (snd r) = log s
  /\ outputs (snd r) = outputs s
  /\ failed (snd r) = failed s
  /\ calls (snd r) = (calls s ++ [(command, args)])%list.
Proof.
  intros Hp r. subst r. rewrite (getCommandOutput_started _ _ _ _ _ Hp).
  simpl. repeat split.
Qed.

Lemma getCommandOutput_returns_data_witness :
  let r := getCommandOutput
             (Demo.host (Some "Linux") None "false" Demo.no_file
                (Demo.exits 3 ["  partial "; "output" ++ Js.chr Js.nl]
                              ["fatal: not a git repository" ++ Js.chr Js.nl]))
             "git" ["rev-parse"; "HEAD"] initial in
  fst r = Ok {| stdout := "partial output";
                stderr := "fatal: not a git repository";
                exitCode := 3 |}
  /\ log (snd r) = []
  /\ outputs (snd r) = []
  /\ failed (snd r) = None
  /\ calls (snd r) = [("git", ["rev-parse"; "HEAD"])].
Proof.
  exact (getCommandOutput_returns_data
           (Demo.host (Some "Linux") None "false" Demo.no_file
              (Demo.exits 3 ["  partial "; "output" ++ Js.chr Js.nl]
                            ["fatal: not a git repository" ++ Js.chr Js.nl]))
           "git" ["rev-parse"; "HEAD"] initial _ eq_refl).
Defined.

(** ** Frame rules *)

Section Frame.

Variable Pc : Call -> Prop.
Variable Pe : Event -> Prop.

Lemma grows_refl s : grows Pc Pe s s.
Proof.
  exists [], []. rewrite !app_nil_r. repeat split; constructor.
Qed.

Lemma grows_trans s1 s2 s3 :
  grows Pc Pe s1 s2 -> grows Pc Pe s2 s3 -> grows Pc Pe s1 s3.
Proof.
  intros (e1 & c1 & Hl1 & Hc1 & He1 & Hp1 & Ho1 & Hf1)
         (e2 & c2 & Hl2 & Hc2 & He2 & Hp2 & Ho2 & Hf2).
  exists (e1 ++ e2)%list, (c1 ++ c2)%list.
  rewrite Hl2, Hl1, Hc2, Hc1, !app_assoc. repeat split.
  - apply Forall_app; split; assumption.
  - apply Forall_app; split; assumption.
  - congruence.
  - congruence.
Qed.

Lemma grows_emit evs s : Forall Pe evs -> grows Pc Pe s (emit evs s).
Proof.
  intros H. exists evs, []. simpl. rewrite app_nil_r. repeat split; auto.
Qed.

Lemma grows_record_call c s : Pc c -> grows Pc Pe s (record_call c s).
Proof.
  intros H. exists [], [c]. simpl. rewrite app_nil_r. repeat split; auto.
Qed.

Lemma keeps_ret {A} (a : A) : keeps Pc Pe (ret a).
Proof. intros s. apply grows_refl. Qed.

Lemma keeps_lift {A} (r : Res A) : keeps Pc Pe (lift r).
Proof. intros s. apply grows_refl. Qed.

Lemma keeps_bind {A B} (m : M A) (f : A -> M B) :
  keeps Pc Pe m -> (forall a, keeps Pc Pe (f a)) -> keeps Pc Pe (bind m f).
Proof.
  intros Hm Hf s. unfold bind. specialize (Hm s).
  destruct (m s) as [[a|e] s']; simpl in *.
  - eapply grows_trans; [exact Hm | apply Hf].
  - exact Hm.
Qed.

Lemma keeps_try_catch {A} (m : M A) (handler : JsError -> M A) :
  keeps Pc Pe m -> (forall e, keeps Pc Pe (handler e)) -> keeps Pc Pe (try_catch m handler).
Proof.
  intros Hm Hh s. unfold try_catch. specialize (Hm s).
  destruct (m s) as [[a|e] s']; simpl in *.
  - exact Hm.
  - eapply grows_trans; [exact Hm | apply Hh].
Qed.

Lemma keeps_console_log line : Pe (Log line) -> keeps Pc Pe (console_log line).
Proof. intros H s. apply grows_emit. auto. Qed.

Lemma keeps_startGroup name : Pe (StartGroup name) -> keeps Pc Pe (startGroup name).
Proof. intros H s. apply grows_emit. auto. Qed.

Lemma keeps_endGroup : Pe EndGroup -> keeps Pc Pe endGroup.
Proof. intros H s. apply grows_emit. auto. Qed.

Lemma keeps_warning msg : Pe (Warning msg) -> keeps Pc Pe (warning msg).
Proof. intros H s. apply grows_emit. auto. Qed.

Lemma keeps_getCommandOutput h command args :
  Pc (command, args) -> keeps Pc Pe (getCommandOutput h command args).
Proof.
  intros H s.
  destruct (spawn h (calls s) (command, args)) as [p|e] eqn:Hs.
  - rewrite (getCommandOutput_started _ _ _ _ _ Hs). now apply grows_record_call.
  - rewrite (getCommandOutput_not_started _ _ _ _ _ Hs). now apply grows_record_call.
Qed.

Lemma keeps_exec_default h command args :
  Pc (command, args) ->
  (forall t, Pe (CommandLine t)) -> (forall d, Pe (ChildOut d)) -> (forall d, Pe (ChildErr d)) ->
  keeps Pc Pe (exec_exec h command args default_options tt).
Proof.
  intros H Hcl Hout Herr s. unfold exec_exec.
  cbn [silent ignoreReturnCode default_options].
  assert (G1 : grows Pc Pe s (record_call (command, args) s))
    by (apply grows_record_call; exact H).
  destruct (spawn h (calls s) (command, args)) as [p|e]; [|exact G1].
  assert (G2 : grows Pc Pe s
                 (emit (CommandLine (Js.join " " (command :: args))
                          :: map ChildOut (out_chunks p) ++ map ChildErr (err_chunks p))
                       (record_call (command, args) s))).
  { eapply grows_trans; [exact G1 | apply grows_emit].
    constructor; [apply Hcl|].
    apply Forall_app; split; apply Forall_forall; intros x Hx;
      apply in_map_iff in Hx; destruct Hx as (d & <- & _); auto. }
  destruct ((code p =? 0) || false); exact G2.
Qed.

End Frame.

Lemma grows_weaken (Pc Qc : Call -> Prop) (Pe Qe : Event -> Prop) s s' :
  (forall c, Pc c -> Qc c) -> (forall e, Pe e -> Qe e) ->
  grows Pc Pe s s' -> grows Qc Qe s s'.
Proof.
  intros Hc He (evs & cs & Hl & Hcs & Fe & Fc & Ho & Hf).
  exists evs, cs. repeat split; auto.
  - eapply Forall_impl; [exact He | exact Fe].
  - eapply Forall_impl; [exact Hc | exact Fc].
Qed.

Ltac frame_step :=
  lazymatch goal with
  | |- keeps _ _ (bind _ _) => apply keeps_bind; [ | intro ]
  | |- keeps _ _ (ret _) => apply keeps_ret
  | |- keeps _ _ (lift _) => apply keeps_lift
  | |- keeps _ _ (try_catch _ _) => apply keeps_try_catch; [ | intro ]
  | |- keeps _ _ (console_log _) => apply keeps_console_log
  | |- keeps _ _ (startGroup _) => apply keeps_startGroup
  | |- keeps _ _ endGroup => apply keeps_endGroup
  | |- keeps _ _ (warning _) => apply keeps_warning
  | |- keeps _ _ (getCommandOutput _ _ _) => apply keeps_getCommandOutput
  | |- keeps _ _ (exec_exec _ _ _ default_options _) => apply keeps_exec_default
  | |- keeps _ _ (if ?b then _ else _) => destruct b
  | |- keeps _ _ (match ?x with _ => _ end) => destruct x
  end.

Ltac frame := repeat frame_step.

(** With no condition on commands and events, every part of the program
    only extends the log and the list of commands. *)
Lemma operatingSystemDetails_extends h ts :
  keeps any_call any_event (operatingSystemDetails h ts).
Proof.
  unfold operatingSystemDetails, platformDetails, distroInfo. frame; exact I.
Qed.

Lemma gitRepositoryDetails_extends h :
  keeps any_call any_event (gitRepositoryDetails h).
Proof.
  unfold gitRepositoryDetails, configureSafeDirectory, branchName, commitSha, env_or_git.
  frame; try exact I; intros; exact I.
Qed.

Lemma extendedInfo_extends h :
  keeps any_call any_event (extendedInfo h).
Proof.
  unfold extendedInfo, javaProbe, treeProbe. frame; exact I.
Qed.

(** The statements of [run] after the timestamp. *)
Lemma run_unfold h :
  run h initial
  = try_catch
      (operatingSystemDetails h (timestamp_of (now h)) ;;
       gitRepositoryDetails h ;;
       extendedInfo h)
      (fun error =>
         setFailed ("Action failed: " ++ message error ++ Js.chr Js.nl ++ stack error))
      (snd (generateTimestamp h initial)).
Proof. reflexivity. Qed.

Lemma after_timestamp_extends h :
  keeps any_call any_event
    (operatingSystemDetails h (timestamp_of (now h)) ;;
     gitRepositoryDetails h ;;
     extendedInfo h).
Proof.
  frame.
  - apply operatingSystemDetails_extends.
  - apply gitRepositoryDetails_extends.
  - apply extendedInfo_extends.
Qed.

Lemma run_outputs h :
  outputs (final h) = [("formatted_run_timestamp", timestamp_of (now h))].
Proof.
  unfold final. rewrite run_unfold. unfold try_catch.
  pose proof (after_timestamp_extends h (snd (generateTimestamp h initial))) as G.
  destruct ((operatingSystemDetails h (timestamp_of (now h)) ;;
             gitRepositoryDetails h ;; extendedInfo h)
              (snd (generateTimestamp h initial))) as [[a|e] s'];
    simpl in *; destruct G as (evs & cs & _ & _ & _ & _ & Ho & _); exact Ho.
Qed.

(** ** The timestamp *)

Lemma two_digits_all : forallb two_digits_ok (Zrange 0 100) = true.
Proof. vm_compute. reflexivity. Qed.

Lemma four_digits_all : forallb four_digits_ok (Zrange 1000 9000) = true.
Proof. vm_compute. reflexivity. Qed.

Lemma pad2_two_digits (n : Z) :
  0 <= n <= 99 ->
  exists a b, pad2 n = String a (String b EmptyString)
              /\ is_digit a = true /\ is_digit b = true
              /\ 10 * digit_value a + digit_value b = n.
Proof.
  intros Hn.
  assert (H : two_digits_ok n = true)
    by (apply (Zrange_forall _ 0 100 two_digits_all); lia).
  unfold two_digits_ok in H. unfold pad2.
  destruct (Js.padStart 2 "0" (Js.String_ n)) as [|a [|b [|c r]]]; try discriminate.
  apply andb_true_iff in H. destruct H as [H Hv].
  apply andb_true_iff in H. destruct H as [Ha Hb].
  exists a, b. repeat split; auto. lia.
Qed.

Lemma year_four_digits (n : Z) :
  1000 <= n <= 9999 ->
  exists a b c d, Js.String_ n = String a (String b (String c (String d EmptyString)))
                  /\ is_digit a = true /\ is_digit b = true
                  /\ is_digit c = true /\ is_digit d = true
                  /\ 1000 * digit_value a + 100 * digit_value b
                     + 10 * digit_value c + digit_value d = n.
Proof.
  intros Hn.
  assert (H : four_digits_ok n = true)
    by (apply (Zrange_forall _ 1000 9000 four_digits_all); lia).
  unfold four_digits_ok in H.
  destruct (Js.String_ n) as [|a [|b [|c [|d [|e r]]]]]; try discriminate.
  apply andb_true_iff in H. destruct H as [H Hv].
  apply andb_true_iff in H. destruct H as [H Hd].
  apply andb_true_iff in H. destruct H as [H Hc].
  apply andb_true_iff in H. destruct H as [Ha Hb].
  exists a, b, c, d. repeat split; auto. lia.
Qed.

(** C4.  For an instant whose year has four digits, the timestamp has the
    shape YYYY-MM-DD HH:MM:SS UTC: four digits of the year, then month (counted
    from 1), day, hour, minute and second, each written with exactly two
    digits, padded with a zero when below ten, and the literal suffix UTC.
    The run sets this string, and nothing else, as the output named
    formatted_run_timestamp. *)
Theorem timestamp_has_fixed_format h :
  valid_instant (now h) ->
  let ts := timestamp_of (now h) in
  matches timestamp_pattern ts = true
  /\ decimal (String.substring 0 4 ts) = getUTCFullYear (now h)
  /\ decimal (String.substring 5 2 ts) = getUTCMonth (now h) + 1
  /\ decimal (String.substring 8 2 ts) = getUTCDate (now h)
  /\ decimal (String.substring 11 2 ts) = getUTCHours (now h)
  /\ decimal (String.substring 14 2 ts) = getUTCMinutes (now h)
  /\ decimal (String.substring 17 2 ts) = getUTCSeconds (now h)
  /\ outputs (final h) = [("formatted_run_timestamp", ts)].
Proof.
  intros (Hy & Hmo & Hd & Hh & Hmi & Hs) ts. subst ts.
  rewrite run_outputs. unfold timestamp_of.
  destruct (year_four_digits _ Hy) as (y1 & y2 & y3 & y4 & -> & Dy1 & Dy2 & Dy3 & Dy4 & Vy).
  destruct (pad2_two_digits (getUTCMonth (now h) + 1)) as (m1 & m2 & -> & Dm1 & Dm2 & Vm); [lia|].
  destruct (pad2_two_digits (getUTCDate (now h))) as (d1 & d2 & -> & Dd1 & Dd2 & Vd); [lia|].
  destruct (pad2_two_digits (getUTCHours (now h))) as (h1 & h2 & -> & Dh1 & Dh2 & Vh); [lia|].
  destruct (pad2_two_digits (getUTCMinutes (now h))) as (i1 & i2 & -> & Di1 & Di2 & Vi); [lia|].
  destruct (pad2_two_digits (getUTCSeconds (now h))) as (s1 & s2 & -> & Ds1 & Ds2 & Vs); [lia|].
  cbn [String.append matches timestamp_pattern String.substring decimal decimal_from].
  repeat split; try lia.
  cbn. rewrite Dy1, Dy2, Dy3, Dy4, Dm1, Dm2, Dd1, Dd2, Dh1, Dh2, Di1, Di2, Ds1, Ds2.
  reflexivity.
Qed.

Lemma timestamp_has_fixed_format_witness :
  let h := Demo.java_host in
  timestamp_of (now h) = "2024-03-05 07:02:09 UTC"
  /\ outputs (final h) = [("formatted_run_timestamp", "2024-03-05 07:02:09 UTC")].
Proof.
  intros h.
  assert (V : valid_instant (now h))
    by (unfold valid_instant, h, Demo.java_host, Demo.host, now, Demo.instant,
          getUTCFullYear, getUTCMonth, getUTCDate, getUTCHours, getUTCMinutes,
          getUTCSeconds; lia).
  pose proof (timestamp_has_fixed_format h V) as H. cbv zeta in H.
  destruct H as (_ & _ & _ & _ & _ & _ & _ & Hout).
  split; [reflexivity | exact Hout].
Defined.

(** ** Blocks of text *)

Lemma split_nonempty sep s : exists x xs, Js.split sep s = x :: xs.
Proof.
  induction s as [|c s IH]; simpl.
  - eauto.
  - destruct (Ascii.eqb c sep); [eauto|].
    destruct IH as (x & xs & ->). eauto.
Qed.

Lemma formatBlock_starts_with_indent text indent :
  exists rest, formatBlock text indent = indent ++ rest.
Proof.
  unfold formatBlock, Js.join.
  destruct (split_nonempty Js.nl text) as (x & xs & ->). simpl.
  destruct (map (fun line => indent ++ line) xs).
  - eauto.
  - rewrite append_assoc. eauto.
Qed.

Lemma skipn_length_app {A} (l l' : list A) : skipn (length l) (l ++ l') = l'.
Proof. induction l; simpl; auto. Qed.

Lemma events_since_emit s evs s' :
  log s' = (log s ++ evs)%list -> events_since s s' = evs.
Proof. intros H. unfold events_since. rewrite H. apply skipn_length_app. Qed.

Lemma calls_since_app s cs s' :
  calls s' = (calls s ++ cs)%list -> calls_since s s' = cs.
Proof. intros H. unfold calls_since. rewrite H. apply skipn_length_app. Qed.

(** The test [exitCode === 0 && stdout] of the probes. *)
Lemma probe_test_false (r : CommandResult) :
  (exitCode r =? 0) && Js.truthy (stdout r) = false <-> no_output r.
Proof.
  unfold no_output. rewrite andb_false_iff, Z.eqb_neq, truthy_false. reflexivity.
Qed.

(** ** The Java probe *)

(** For a version query that ran to its exit, with result [r]: when the
    exit code is zero and one of the two streams is not empty, the probe logs
    the version block, whose text is the standard-error text when that is
    not empty and the standard-output text otherwise; and the probe logs
    its not-found message exactly when both streams are empty or the exit
    code is not zero. *)
Lemma javaProbe_prefers_stderr h s p :
  spawn h (calls s) java_call = Started p ->
  let r := result_of p in
  let reported := events_since s (snd (javaProbe h s)) in
  fst (javaProbe h s) = Ok tt
  /\ (exitCode r = 0 -> stdout r <> EmptyString \/ stderr r <> EmptyString ->
      exists text,
        (stderr r <> EmptyString -> text = stderr r)
        /\ (stderr r = EmptyString -> text = stdout r)
        /\ reported = [Log "  JAVA DETAILS:";
                       Log "    ▶ Version:";
                       Log (formatBlock text "      --> ");
                       Log ("    ▶ JAVA_HOME:    "
                              ++ Js.env_or (JAVA_HOME (env h)) "N/A (Not explicitly set or found)");
                       Log EmptyString])
  /\ (In (Log java_not_found) reported
      <-> (stdout r = EmptyString /\ stderr r = EmptyString) \/ exitCode r <> 0).
Proof.
  intros Hp r reported. subst reported.
  unfold javaProbe, bind, console_log.
  rewrite (getCommandOutput_started h "java" ["-version"] (emit [Log "  JAVA DETAILS:"] s) p Hp).
  fold r.
  destruct (exitCode r =? 0) eqn:Hc; [apply Z.eqb_eq in Hc | apply Z.eqb_neq in Hc];
    [destruct (Js.truthy (stdout r)) eqn:Ho; [|destruct (Js.truthy (stderr r)) eqn:He] | ];
    cbn [andb orb fst snd].
  - (* exit 0, stdout not empty *)
    apply truthy_true in Ho.
    erewrite events_since_emit by (autorewrite with state; rewrite <- !app_assoc; reflexivity).
    split; [reflexivity|]. split.
    + intros _ _. exists (Js.or (stderr r) (stdout r)). unfold Js.or. repeat split.
      * intros H. apply truthy_true in H. now rewrite H.
      * intros H. now rewrite H.
    + split.
      * destruct (formatBlock_starts_with_indent (Js.or (stderr r) (stdout r)) "      --> ")
          as (rest & Hfb).
        rewrite Hfb. cbn. intros [H|[H|[H|[H|[H|[]]]]]]; discriminate H.
      * intros [[H _]|H]; congruence.
  - (* exit 0, stdout empty, stderr not empty *)
    apply truthy_true in He. apply truthy_false in Ho.
    erewrite events_since_emit by (autorewrite with state; rewrite <- !app_assoc; reflexivity).
    split; [reflexivity|]. split.
    + intros _ _. exists (Js.or (stderr r) (stdout r)). unfold Js.or. repeat split.
      * intros H. apply truthy_true in H. now rewrite H.
      * intros H. congruence.
    + split.
      * destruct (formatBlock_starts_with_indent (Js.or (stderr r) (stdout r)) "      --> ")
          as (rest & Hfb).
        rewrite Hfb. cbn. intros [H|[H|[H|[H|[H|[]]]]]]; discriminate H.
      * intros [[_ H]|H]; congruence.
  - (* exit 0, both empty *)
    apply truthy_false in Ho, He.
    erewrite events_since_emit by (autorewrite with state; rewrite <- !app_assoc; reflexivity).
    split; [reflexivity|]. split.
    + intros _ [H|H]; congruence.
    + split; [auto | intros _; cbn; auto].
  - (* exit code not zero *)
    erewrite events_since_emit by (autorewrite with state; rewrite <- !app_assoc; reflexivity).
    split; [reflexivity|]. split.
    + intros H; congruence.
    + split; [auto | intros _; cbn; auto].
Qed.


(** ** The directory-tree probe *)

Lemma tree_is_not_winTree h : tree_call h <> winTree_call h.
Proof. unfold tree_call, winTree_call. intros H. discriminate H. Qed.

(** The probe, case by case on what the two commands lead to. *)
Lemma treeProbe_cases h s :
  let heading := Log "  DIRECTORY TREE (current workspace, max depth 3):" in
  let s0 := emit [heading] s in
  let s1 := record_call (tree_call h) s0 in
  match spawn h (calls s) (tree_call h) with
  | FailedToStart e =>
      treeProbe h s
      = (Ok tt, emit [Log tree_error]
                  (emit [Warning ("Tree command execution error: " ++ message e)] s1))
  | Started p =>
      if (exitCode (result_of p) =? 0) && Js.truthy (stdout (result_of p)) then
        treeProbe h s = (Ok tt, emit [Log (formatBlock (stdout (result_of p)) "    ")] s1)
      else if env_is (RUNNER_OS (env h)) "Windows" then
        let s2 := emit [Log "    ▶ 'tree' command failed or not found. Using 'cmd /c tree /F /A' for Windows (basic):"] s1 in
        let s3 := record_call (winTree_call h) s2 in
        match spawn h (calls s ++ [tree_call h]) (winTree_call h) with
        | FailedToStart e =>
            treeProbe h s
            = (Ok tt, emit [Log tree_error]
                        (emit [Warning ("Tree command execution error: " ++ message e)] s3))
        | Started q =>
            if (exitCode (result_of q) =? 0) && Js.truthy (stdout (result_of q)) then
              treeProbe h s
              = (Ok tt, emit [Log (formatBlock (stdout (result_of q)) "      ")] s3)
            else
              treeProbe h s = (Ok tt, emit [Log winTree_failed] s3)
        end
      else
        treeProbe h s = (Ok tt, emit [Log tree_not_found] s1)
  end.
Proof.
  intros heading s0 s1.
  destruct (spawn h (calls s) (tree_call h)) as [p|e] eqn:Hp.
  - assert (Hp' : spawn h (calls s0) (fst (tree_call h), snd (tree_call h)) = Started p)
      by exact Hp.
    unfold treeProbe, bind, try_catch, console_log. fold heading. fold s0.
    rewrite (getCommandOutput_started _ _ _ _ _ Hp'). fold s1.
    destruct ((exitCode (result_of p) =? 0) && Js.truthy (stdout (result_of p))); [reflexivity|].
    destruct (env_is (RUNNER_OS (env h)) "Windows"); [|reflexivity].
    cbv zeta.
    destruct (spawn h (calls s ++ [tree_call h]) (winTree_call h)) as [q|e] eqn:Hq.
    + rewrite (getCommandOutput_started _ _ _ _ q) by exact Hq.
      destruct ((exitCode (result_of q) =? 0) && Js.truthy (stdout (result_of q))); reflexivity.
    + rewrite (getCommandOutput_not_started _ _ _ _ e) by exact Hq. reflexivity.
  - assert (Hp' : spawn h (calls s0) (fst (tree_call h), snd (tree_call h)) = FailedToStart e)
      by exact Hp.
    unfold treeProbe, bind, try_catch, console_log. fold heading. fold s0.
    rewrite (getCommandOutput_not_started _ _ _ _ _ Hp'). reflexivity.
Qed.

Ltac since :=
  first [ erewrite events_since_emit
            by (autorewrite with state; rewrite <- ?app_assoc; reflexivity)
        | erewrite calls_since_app
            by (autorewrite with state; rewrite <- ?app_assoc; reflexivity) ].

Ltac no_fallback NW :=
  let H := fresh in intros H; exfalso; apply (NW _ H); reflexivity.

Ltac logged e :=
  apply Exists_exists; exists e;
  split; [cbn; repeat (first [left; reflexivity | right]) | unfold unavailable; auto].

(** C6.  The tree probe never raises and starts no command but the tree
    command and, after it, the Windows tree command: there is no listing by
    other means.  The Windows command is started only on a Windows runner
    and only after the primary command has returned a non-zero exit code or
    empty output.  When the primary command fails on a runner that is not
    Windows, and when the Windows command fails after it, a message of
    unavailability is logged. *)
Theorem treeProbe_fallback_only_on_windows h s :
  let started := calls_since s (snd (treeProbe h s)) in
  let reported := events_since s (snd (treeProbe h s)) in
  fst (treeProbe h s) = Ok tt
  /\ (started = [tree_call h] \/ started = [tree_call h; winTree_call h])
  /\ (In (winTree_call h) started ->
      RUNNER_OS (env h) = Some "Windows"
      /\ exists p, spawn h (calls s) (tree_call h) = Started p /\ no_output (result_of p))
  /\ (RUNNER_OS (env h) <> Some "Windows" -> primary_failed h s ->
      started = [tree_call h] /\ Exists unavailable reported)
  /\ (In (winTree_call h) started -> fallback_failed h s ->
      Exists unavailable reported).
Proof.
  intros started reported. subst started reported.
  pose proof (treeProbe_cases h s) as C. cbv zeta in C.
  unfold primary_failed, fallback_failed.
  assert (W : env_is (RUNNER_OS (env h)) "Windows" = true <-> RUNNER_OS (env h) = Some "Windows").
  { unfold env_is. destruct (RUNNER_OS (env h)) as [o|].
    - rewrite String.eqb_eq. split; congruence.
    - split; discriminate. }
  assert (NW : forall c, In (winTree_call h) [c] -> c = tree_call h -> False).
  { intros c [H|[]] ->. now apply (tree_is_not_winTree h). }
  destruct (spawn h (calls s) (tree_call h)) as [p|e].
  - destruct ((exitCode (result_of p) =? 0) && Js.truthy (stdout (result_of p))) eqn:T.
    + (* the listing is printed *)
      rewrite C. cbn [fst snd]. do 2 since.
      apply not_false_iff_true in T. rewrite probe_test_false in T.
      split; [reflexivity | split; [auto | split; [no_fallback NW | split]]].
      * intros _ H. contradiction.
      * no_fallback NW.
    + apply probe_test_false in T.
      destruct (env_is (RUNNER_OS (env h)) "Windows") eqn:Win.
      * pose proof (proj1 W eq_refl) as Windows.
        assert (F : RUNNER_OS (env h) = Some "Windows"
                    /\ exists p0, Started p = Started p0 /\ no_output (result_of p0))
          by (split; [exact Windows | exists p; split; [reflexivity | exact T]]).
        destruct (spawn h (calls s ++ [tree_call h]) (winTree_call h)) as [q|e].
        -- destruct ((exitCode (result_of q) =? 0) && Js.truthy (stdout (result_of q))) eqn:T2;
             rewrite C; cbn [fst snd]; do 2 since;
             (split; [reflexivity | split; [auto | split; [intros _; exact F | split]]]);
             try (intros H; contradiction).
           ++ apply not_false_iff_true in T2. rewrite probe_test_false in T2.
              intros _ H. contradiction.
           ++ intros _ _. logged (Log winTree_failed).
        -- rewrite C; cbn [fst snd]; do 2 since.
           split; [reflexivity | split; [auto | split; [intros _; exact F | split]]].
           ++ intros H. contradiction.
           ++ intros _ _. logged (Log tree_error).
      * rewrite C. cbn [fst snd]. do 2 since.
        split; [reflexivity | split; [auto | split; [no_fallback NW | split]]].
        -- intros _ _. split; [reflexivity | logged (Log tree_not_found)].
        -- no_fallback NW.
  - rewrite C. cbn [fst snd]. do 2 since.
    split; [reflexivity | split; [auto | split; [no_fallback NW | split]]].
    + intros _ _. split; [reflexivity | logged (Log tree_error)].
    + no_fallback NW.
Qed.
(** ** Trimming *)

Lemma length_append (a b : string) :
  String.length (a ++ b) = (String.length a + String.length b)%nat.
Proof. induction a as [|x a IH]; simpl; [reflexivity | now rewrite IH]. Qed.

Lemma append_inv_head (a b c : string) : a ++ b = a ++ c -> b = c.
Proof.
  induction a as [|x a IH]; simpl; [auto|]. intros H. injection H as H. auto.
Qed.

(** What holds of each white-space character holds of every text that
    [is_space] accepts. *)
Lemma each_space (P : string -> Prop) :
  Forall P Js.white_space -> forall w, Js.is_space w = true -> P w.
Proof.
  intros F w H. unfold Js.is_space in H. apply existsb_exists in H.
  destruct H as (x & Hin & E). apply String.eqb_eq in E. subst x.
  rewrite Forall_forall in F. auto.
Qed.

Ltac each_space_character :=
  match goal with
  | |- forall w, Js.is_space w = true -> @?P w => refine (each_space P _)
  end;
  unfold Js.white_space; cbn [map]; repeat constructor.

Lemma space_not_empty w : Js.is_space w = true -> w <> EmptyString.
Proof. intros H ->. discriminate H. Qed.

Lemma space_size w :
  Js.is_space w = true ->
  exists c1, w = Js.chr c1
             \/ exists c2, w = String c1 (Js.chr c2)
                           \/ exists c3, w = String c1 (String c2 (Js.chr c3)).
Proof.
  revert w. each_space_character; eexists;
    first [ left; reflexivity
          | right; eexists; left; reflexivity
          | right; eexists; right; eexists; reflexivity ].
Qed.

Lemma space_first_byte c r : Js.is_space (String c r) = true -> lead_byte c = true.
Proof.
  intros H.
  assert (G : forall w, Js.is_space w = true ->
                forall a x, w = String a x -> lead_byte a = true).
  { each_space_character; intros a x E; injection E as <- _; reflexivity. }
  exact (G _ H c r eq_refl).
Qed.

Lemma trimStart_strip w :
  Js.is_space w = true -> forall s, Js.trimStart (w ++ s) = Js.trimStart s.
Proof. revert w. each_space_character; intros s; reflexivity. Qed.

(** One step of [trimStart]: a white-space character is removed from the
    head, or the text does not begin with one and is the result. *)
Lemma trimStart_step s :
  (exists w r, Js.is_space w = true /\ s = w ++ r /\ Js.trimStart s = Js.trimStart r)
  \/ (Js.trimStart s = s /\ ~ begins_with_space s).
Proof.
  assert (N : forall s, ~ begins_with_space s <->
                forall w r, Js.is_space w = true -> s <> w ++ r).
  { intros t. split.
    - intros H w r Hw E. apply H. now exists w, r.
    - intros H (w & r & Hw & E). exact (H w r Hw E). }
  assert (S : forall w r c x,
                Js.is_space w = true -> String c x = w ++ r ->
                (w = Js.chr c /\ x = r)
                \/ (exists c2 r2, x = String c2 r2
                      /\ ((w = String c (Js.chr c2) /\ r2 = r)
                          \/ (exists c3, r2 = String c3 r
                                         /\ w = String c (String c2 (Js.chr c3)))))).
  { intros w r c x Hw E.
    destruct (space_size w Hw) as (a1 & [->|(a2 & [->|(a3 & ->)])]);
      cbn in E; injection E as -> ->; eauto 10. }
  destruct s as [|c1 r1].
  { right. split; [reflexivity|]. apply N. intros w r Hw E.
    destruct w; [discriminate Hw | discriminate E]. }
  cbn [Js.trimStart].
  destruct (Js.is_space (Js.chr c1)) eqn:E1.
  { left. exists (Js.chr c1), r1. auto. }
  destruct r1 as [|c2 r2].
  { right. split; [reflexivity|]. apply N. intros w r Hw E.
    destruct (S _ _ _ _ Hw E) as [[-> _]|(a2 & x & F & _)]; [congruence | discriminate F]. }
  destruct (Js.is_space (String c1 (Js.chr c2))) eqn:E2.
  { left. exists (String c1 (Js.chr c2)), r2. auto. }
  destruct r2 as [|c3 r3].
  { right. split; [reflexivity|]. apply N. intros w r Hw E.
    destruct (S _ _ _ _ Hw E) as [[-> _]|(a2 & x & F & [[-> _]|(a3 & G & _)])];
      try congruence; injection F as <- <-; congruence. }
  destruct (Js.is_space (String c1 (String c2 (Js.chr c3)))) eqn:E3.
  { left. exists (String c1 (String c2 (Js.chr c3))), r3. auto. }
  right. split; [reflexivity|]. apply N. intros w r Hw E.
  destruct (S _ _ _ _ Hw E) as [[-> _]|(a2 & x & F & [[-> _]|(a3 & G & ->)])];
    try congruence; injection F as <- <-; congruence.
Qed.

Lemma white_app a b : white a -> white b -> white (a ++ b).
Proof.
  intros Ha Hb. induction Ha as [|w s Hw _ IH]; [exact Hb|].
  rewrite append_assoc. now constructor.
Qed.

Lemma white_one w : Js.is_space w = true -> white w.
Proof.
  intros H. rewrite <- (append_empty_r w). constructor; [exact H | constructor].
Qed.

Lemma trimStart_white a : white a -> forall s, Js.trimStart (a ++ s) = Js.trimStart s.
Proof.
  intros Ha s. induction Ha as [|w t Hw _ IH]; [reflexivity|].
  now rewrite append_assoc, trimStart_strip.
Qed.

Lemma trimStart_of_white a : white a -> Js.trimStart a = EmptyString.
Proof.
  intros Ha. rewrite <- (append_empty_r a). now rewrite trimStart_white.
Qed.

(** [trimStart] removes white space, nothing else, and all of it. *)
Lemma trimStart_splits s :
  exists a, white a /\ s = a ++ Js.trimStart s /\ ~ begins_with_space (Js.trimStart s).
Proof.
  remember (String.length s) as n eqn:Hn.
  revert s Hn. induction n as [n IH] using (well_founded_induction lt_wf).
  intros s Hn. destruct (trimStart_step s) as [(w & r & Hw & E & T)|[T B]].
  - assert (L : (String.length r < n)%nat).
    { subst n s. rewrite length_append.
      destruct w; [discriminate Hw | simpl; lia]. }
    destruct (IH _ L r eq_refl) as (a & Ha & Er & Br).
    exists (w ++ a). rewrite T. split; [now constructor|]. split; [|exact Br].
    now rewrite append_assoc, <- Er.
  - exists EmptyString. rewrite T. split; [constructor|]. split; [reflexivity | exact B].
Qed.

Lemma white_of_trimStart s : Js.trimStart s = EmptyString -> white s.
Proof.
  intros H. destruct (trimStart_splits s) as (a & Ha & E & _).
  rewrite H, append_empty_r in E. now subst s.
Qed.

Lemma trimStart_fixed s : ~ begins_with_space s -> Js.trimStart s = s.
Proof.
  intros B. destruct (trimStart_step s) as [(w & r & Hw & E & _)|[T _]]; [|exact T].
  exfalso. apply B. now exists w, r.
Qed.

Lemma trimEnd_white s : Js.trimStart s = EmptyString -> Js.trimEnd s = EmptyString.
Proof. intros H. destruct s as [|c r]; [reflexivity|]. cbn [Js.trimEnd]. now rewrite H. Qed.

Lemma trimEnd_cons c r :
  Js.trimStart (String c r) <> EmptyString ->
  Js.trimEnd (String c r) = String c (Js.trimEnd r).
Proof.
  intros H. cbn [Js.trimEnd].
  destruct (Js.trimStart (String c r)); [congruence | reflexivity].
Qed.

(** [trimEnd] removes white space, nothing else. *)
Lemma trimEnd_splits s : exists b, white b /\ s = Js.trimEnd s ++ b.
Proof.
  induction s as [|c r (b & Hb & E)].
  - exists EmptyString. split; [constructor | reflexivity].
  - destruct (Js.trimStart (String c r)) eqn:T.
    + exists (String c r). rewrite trimEnd_white by exact T.
      split; [now apply white_of_trimStart | reflexivity].
    + rewrite trimEnd_cons by (rewrite T; discriminate).
      exists b. split; [exact Hb|]. simpl. now rewrite <- E.
Qed.

(** What follows a byte that [trimEnd] keeps is not white space only. *)
Lemma trimEnd_kept s : forall x y,
  Js.trimEnd s = x ++ y -> y <> EmptyString ->
  exists b, white b /\ s = x ++ y ++ b /\ Js.trimStart (y ++ b) <> EmptyString.
Proof.
  induction s as [|c r IH]; intros x y E Hy.
  - destruct x; [simpl in E; congruence | discriminate E].
  - destruct (Js.trimStart (String c r)) eqn:T.
    + rewrite trimEnd_white in E by exact T.
      destruct x; [simpl in E; congruence | discriminate E].
    + rewrite trimEnd_cons in E by (rewrite T; discriminate).
      destruct x as [|a0 x].
      * simpl in E. subst y. destruct (trimEnd_splits r) as (b & Hb & Er).
        exists b. split; [exact Hb|]. cbn [append]. rewrite <- Er.
        split; [reflexivity|]. rewrite T. discriminate.
      * simpl in E. injection E as <- E.
        destruct (IH x y E Hy) as (b & Hb & Er & Tb).
        exists b. split; [exact Hb|]. split; [|exact Tb]. simpl. now rewrite <- Er.
Qed.

Lemma trimEnd_ends s : ~ ends_with_space (Js.trimEnd s).
Proof.
  intros (r & w & Hw & E).
  destruct (trimEnd_kept s r w E (space_not_empty w Hw)) as (b & Hb & _ & T).
  apply T. rewrite trimStart_strip by exact Hw. now apply trimStart_of_white.
Qed.

Lemma trimEnd_begins s : ~ begins_with_space s -> ~ begins_with_space (Js.trimEnd s).
Proof.
  intros B (w & r & Hw & E). apply B.
  destruct (trimEnd_splits s) as (b & _ & Es).
  exists w, (r ++ b). split; [exact Hw|]. now rewrite <- append_assoc, <- E.
Qed.

Lemma white_ends b : white b -> b = EmptyString \/ ends_with_space b.
Proof.
  intros Hb. induction Hb as [|w s Hw _ [->|(r & w' & Hw' & ->)]]; [now left| |]; right.
  - exists EmptyString, w. split; [exact Hw|]. now rewrite append_empty_r.
  - exists (w ++ r), w'. split; [exact Hw'|]. now rewrite append_assoc.
Qed.

Lemma trimEnd_fixed s : ~ ends_with_space s -> Js.trimEnd s = s.
Proof.
  intros B. destruct (trimEnd_splits s) as (b & Hb & E).
  destruct (white_ends b Hb) as [->|(r & w & Hw & ->)].
  - now rewrite append_empty_r in E.
  - exfalso. apply B. exists (Js.trimEnd s ++ r), w. split; [exact Hw|].
    now rewrite append_assoc.
Qed.

(** [trim] removes white space at both ends, nothing else, and all of it. *)
Lemma trim_splits s :
  padded (Js.trim s) s
  /\ ~ begins_with_space (Js.trim s) /\ ~ ends_with_space (Js.trim s).
Proof.
  unfold Js.trim.
  destruct (trimStart_splits s) as (a & Ha & Ea & Ba).
  destruct (trimEnd_splits (Js.trimStart s)) as (b & Hb & Eb).
  split; [|split].
  - exists a, b. split; [exact Ha|]. split; [exact Hb|]. now rewrite <- Eb.
  - now apply trimEnd_begins.
  - apply trimEnd_ends.
Qed.

Lemma trim_fixed s : ~ begins_with_space s -> ~ ends_with_space s -> Js.trim s = s.
Proof.
  intros B E. unfold Js.trim. rewrite (trimStart_fixed s B). now apply trimEnd_fixed.
Qed.

Lemma trim_trim s : Js.trim (Js.trim s) = Js.trim s.
Proof. destruct (trim_splits s) as (_ & B & E). now apply trim_fixed. Qed.

Lemma trim_empty s : Js.trim s = EmptyString <-> white s.
Proof.
  split.
  - intros H. destruct (trim_splits s) as ((a & b & Ha & Hb & E) & _).
    rewrite H in E. subst s. now apply white_app.
  - intros H. unfold Js.trim. now rewrite (trimStart_of_white s H).
Qed.

(** A byte that begins no white-space character is kept, whatever
    follows it. *)
Lemma trimStart_keeps c r : lead_byte c = false -> Js.trimStart (String c r) = String c r.
Proof.
  intros L.
  assert (N : forall x, Js.is_space (String c x) = false).
  { intros x. destruct (Js.is_space (String c x)) eqn:E; [|reflexivity].
    apply space_first_byte in E. congruence. }
  cbn [Js.trimStart]. unfold Js.chr. rewrite N.
  destruct r as [|c2 r]; [reflexivity|]. rewrite N.
  destruct r as [|c3 r]; [reflexivity|]. now rewrite N.
Qed.

Lemma trimEnd_keeps c r :
  lead_byte c = false -> Js.trimEnd (String c r) = String c (Js.trimEnd r).
Proof.
  intros L. apply trimEnd_cons. rewrite trimStart_keeps by exact L. discriminate.
Qed.

(** ** The configuration flag *)

Lemma trim_padded_true s : padded "true" s -> Js.trim s = "true".
Proof.
  intros (a & b & Ha & Hb & ->). unfold Js.trim.
  rewrite (trimStart_white a Ha). cbn [append].
  rewrite trimStart_keeps by reflexivity.
  repeat rewrite trimEnd_keeps by reflexivity.
  now rewrite (trimEnd_white b (trimStart_of_white b Hb)).
Qed.

(** C9, as the code has it.  The toolkit trims the input before the
    comparison: the flag is true exactly when the input that the workflow
    gives is the lowercase string true with white space, and nothing else,
    before and after it.  The inputs True, TRUE, 1 and the empty string,
    with or without white space around them, give false, and with a false
    flag the extended section does nothing at all. *)
Theorem showExtendedInfo_for_trimmed_true h :
  (showExtendedInfo h = true <-> padded "true" (action_input h "show_extended_info"))
  /\ (showExtendedInfo h = true <-> Js.trim (action_input h "show_extended_info") = "true")
  /\ (forall v, In v ["True"; "TRUE"; "1"; EmptyString] ->
                padded v (action_input h "show_extended_info") ->
                showExtendedInfo h = false)
  /\ (~ padded "true" (action_input h "show_extended_info") ->
      forall s, extendedInfo h s = (Ok tt, s)).
Proof.
  assert (T : showExtendedInfo h = true
              <-> Js.trim (action_input h "show_extended_info") = "true")
    by apply String.eqb_eq.
  assert (P : showExtendedInfo h = true
              <-> padded "true" (action_input h "show_extended_info")).
  { rewrite T. split; [|apply trim_padded_true].
    intros E. destruct (trim_splits (action_input h "show_extended_info")) as (H & _).
    now rewrite E in H. }
  split; [exact P|]. split; [exact T|]. split.
  - intros v Hv (a & b & Ha & Hb & E).
    apply not_true_is_false. intros F. apply T in F. revert F. rewrite E. unfold Js.trim.
    rewrite (trimStart_white a Ha).
    destruct Hv as [<-|[<-|[<-|[<-|[]]]]]; cbn [append];
      try (rewrite trimStart_keeps by reflexivity;
           repeat rewrite trimEnd_keeps by reflexivity;
           rewrite (trimEnd_white b (trimStart_of_white b Hb)); discriminate).
    rewrite (trimStart_of_white b Hb). discriminate.
  - intros H s. unfold extendedInfo.
    replace (showExtendedInfo h) with false; [reflexivity|].
    symmetry. apply not_true_is_false. intros F. now apply H, P.
Qed.

Lemma showExtendedInfo_for_trimmed_true_witness :
  showExtendedInfo
    (Demo.host (Some "Linux") None ("  true" ++ Js.chr Js.nl) Demo.no_file (Demo.exits 0 [] []))
  = true
  /\ showExtendedInfo
       (Demo.host (Some "Linux") None " TRUE " Demo.no_file (Demo.exits 0 [] []))
     = false.
Proof.
  split.
  - apply (proj2 (proj1 (showExtendedInfo_for_trimmed_true
             (Demo.host (Some "Linux") None ("  true" ++ Js.chr Js.nl) Demo.no_file
                (Demo.exits 0 [] []))))).
    exists "  ", (Js.chr Js.nl). split; [|split; [|reflexivity]].
    + exact (white_more " " " " eq_refl (white_one " " eq_refl)).
    + now apply white_one.
  - destruct (showExtendedInfo_for_trimmed_true
                (Demo.host (Some "Linux") None " TRUE " Demo.no_file (Demo.exits 0 [] [])))
      as (_ & _ & H & _).
    apply (H "TRUE"); [right; left; reflexivity|].
    exists " ", " ". split; [|split; [|reflexivity]]; now apply white_one.
Defined.

(** C9 as stated fails: an input that is not the string true, because of
    the white space around it, gives a true flag, and the extended section
    is run. *)
Lemma showExtendedInfo_for_trimmed_true_counterexample :
  let h := Demo.host (Some "Linux") None (" true" ++ Js.chr Js.nl) Demo.no_file
             (Demo.exits 0 [] []) in
  action_input h "show_extended_info" <> "true"
  /\ showExtendedInfo h = true
  /\ In (StartGroup extended_title) (log (final h))
  /\ In java_call (calls (final h)).
Proof.
  intros h. split; [discriminate|]. split; [reflexivity|].
  split; vm_compute; repeat (first [left; reflexivity | right]).
Qed.

(** ** First characters of a text, and variables that are unset *)







(** ** Reading [/etc/os-release] *)

Lemma has_char_app c a b : has_char c (a ++ b) = has_char c a || has_char c b.
Proof.
  induction a as [|x a IH]; simpl; [reflexivity|].
  now rewrite IH, orb_assoc.
Qed.

Lemma split_without_sep sep s : has_char sep s = false -> Js.split sep s = [s].
Proof.
  induction s as [|c s IH]; simpl; [reflexivity|].
  intros H. apply orb_false_iff in H. destruct H as [Hc Hs].
  rewrite Hc, (IH Hs). reflexivity.
Qed.

Lemma split_at_first_sep sep a b :
  has_char sep a = false ->
  Js.split sep (a ++ String sep b) = a :: Js.split sep b.
Proof.
  induction a as [|c a IH]; simpl.
  - intros _. now rewrite Ascii.eqb_refl.
  - intros H. apply orb_false_iff in H. destruct H as [Hc Ha].
    rewrite Hc, (IH Ha). reflexivity.
Qed.

Lemma remove_all_absent c s : has_char c s = false -> Js.remove_all c s = s.
Proof.
  induction s as [|a s IH]; simpl; [reflexivity|].
  intros H. apply orb_false_iff in H. destruct H as [Ha Hs].
  rewrite Ha, (IH Hs). reflexivity.
Qed.

Lemma remove_all_app c a b :
  Js.remove_all c (a ++ b) = Js.remove_all c a ++ Js.remove_all c b.
Proof.
  induction a as [|x a IH]; simpl; [reflexivity|].
  destruct (Ascii.eqb x c); simpl; now rewrite IH.
Qed.

Lemma prefix_app p s : String.prefix p s = true -> exists rest, s = p ++ rest.
Proof.
  revert s. induction p as [|a p IH]; intros s H.
  - exists s. reflexivity.
  - destruct s as [|b s]; simpl in H; [discriminate|].
    destruct (ascii_dec a b) as [->|]; [|discriminate].
    destruct (IH s H) as (rest & ->). exists rest. reflexivity.
Qed.

(** The value of a well-formed line is what stands between the quotes. *)
Lemma field_value_quoted key v :
  has_char "="%char key = false -> plain v ->
  field_value (quoted key v) = Ok v.
Proof.
  intros Hk [Heq Hdq]. unfold field_value, quoted.
  change (key ++ "=" ++ Js.chr Js.dquote ++ v ++ Js.chr Js.dquote)
    with (key ++ String "="%char (Js.chr Js.dquote ++ v ++ Js.chr Js.dquote)).
  rewrite (split_at_first_sep _ _ _ Hk).
  rewrite split_without_sep.
  - rewrite !remove_all_app, (remove_all_absent _ _ Hdq). simpl.
    now rewrite append_empty_r.
  - rewrite !has_char_app, Heq. reflexivity.
Qed.

(** A line that passed one of the filters has a second part: the callback
    of [map] does not raise on it. *)
Lemma field_value_defined key line :
  has_char "="%char key = false ->
  Js.startsWith (key ++ "=") line = true ->
  exists v, field_value line = Ok v.
Proof.
  intros Hk Hp. apply prefix_app in Hp. destruct Hp as (rest & ->).
  rewrite append_assoc. simpl. unfold field_value.
  rewrite (split_at_first_sep _ _ _ Hk).
  destruct (split_nonempty "="%char rest) as (x & xs & ->). eauto.
Qed.

Lemma map_res_defined {A B} (f : A -> Res B) (l : list A) :
  (forall a, In a l -> exists b, f a = Ok b) ->
  exists bs, map_res f l = Ok bs.
Proof.
  induction l as [|a l IH]; intros H; simpl.
  - eauto.
  - destruct (H a (or_introl eq_refl)) as (b & ->).
    destruct IH as (bs & ->); [intros x Hx; apply H; now right|]. eauto.
Qed.

Lemma pretty_names_defined t : exists names, pretty_names t = Ok names.
Proof.
  apply map_res_defined. intros line Hin. apply filter_In in Hin.
  apply (field_value_defined "PRETTY_NAME"); [reflexivity | apply Hin].
Qed.

Lemma name_and_version_defined t : exists values, name_and_version t = Ok values.
Proof.
  apply map_res_defined. intros line Hin. apply filter_In in Hin.
  destruct Hin as [_ H]. apply orb_true_iff in H. destruct H as [H|H].
  - apply (field_value_defined "NAME"); [reflexivity | exact H].
  - apply (field_value_defined "VERSION"); [reflexivity | exact H].
Qed.

Lemma distroInfo_of_defined t : exists d, distroInfo_of t = Ok d.
Proof.
  unfold distroInfo_of.
  destruct (pretty_names_defined t) as (names & ->).
  destruct (Js.truthy (Js.join ", " names)); [eauto|].
  destruct (name_and_version_defined t) as (values & ->). eauto.
Qed.

(** ** The stages of [run] *)

Lemma emit_emit e1 e2 s : emit e2 (emit e1 s) = emit (e1 ++ e2) s.
Proof. unfold emit. simpl. now rewrite app_assoc. Qed.

Lemma bind_ok {A B} (m : M A) (f : A -> M B) s a s' :
  m s = (Ok a, s') -> bind m f s = f a s'.
Proof. intros H. unfold bind. now rewrite H. Qed.

Lemma bind_throw {A B} (m : M A) (f : A -> M B) s e s' :
  m s = (Throw e, s') -> bind m f s = (Throw e, s').
Proof. intros H. unfold bind. now rewrite H. Qed.

(** The run up to the branch on the family of the runner, and from there. *)
Lemma run_from_platform h :
  run h initial
  = try_catch
      ((platformDetails h ;; console_log rule40 ;; endGroup) ;;
       gitRepositoryDetails h ;;
       extendedInfo h)
      (fun error => fun s => (Ok tt, mark_failed error s))
      (at_platform h).
Proof.
  unfold run, try_catch, bind, generateTimestamp, operatingSystemDetails,
    startGroup, console_log, endGroup, setOutput, ret, at_platform, mark_failed, setFailed.
  cbv beta iota. unfold emit, initial. simpl log. simpl outputs. simpl failed. simpl calls.
  reflexivity.
Qed.

(** The run ends where the first stage that raises leaves it, marked as
    failed, or where the last stage leaves it. *)
Lemma final_cases h :
  match (platformDetails h ;; console_log rule40 ;; endGroup) (at_platform h) with
  | (Throw e, s2) => final h = mark_failed e s2
  | (Ok _, s2) =>
      match gitRepositoryDetails h s2 with
      | (Throw e, s3) => final h = mark_failed e s3
      | (Ok _, s3) =>
          match extendedInfo h s3 with
          | (Throw e, s4) => final h = mark_failed e s4
          | (Ok _, s4) => final h = s4
          end
      end
  end.
Proof.
  unfold final. rewrite run_from_platform.
  set (stage2 := (platformDetails h ;; console_log rule40 ;; endGroup)).
  unfold try_catch, bind.
  destruct (stage2 (at_platform h)) as [[u|e] s2]; cbv beta iota; [|reflexivity].
  destruct (gitRepositoryDetails h s2) as [[u3|e] s3]; cbv beta iota; [|reflexivity].
  destruct (extendedInfo h s3) as [[u4|e] s4]; reflexivity.
Qed.

Lemma log_mark_failed e s : log (mark_failed e s) = log s.
Proof. reflexivity. Qed.

Lemma calls_mark_failed e s : calls (mark_failed e s) = calls s.
Proof. reflexivity. Qed.

(** What the second stage logged stays in the log of the run. *)
Lemma final_keeps_log h u s2 :
  (platformDetails h ;; console_log rule40 ;; endGroup) (at_platform h) = (Ok u, s2) ->
  forall ev, In ev (log s2) -> In ev (log (final h)).
Proof.
  intros H2 ev Hin. pose proof (final_cases h) as F. rewrite H2 in F.
  pose proof (gitRepositoryDetails_extends h s2) as (e3 & _ & L3 & _).
  destruct (gitRepositoryDetails h s2) as [[u3|e] s3]; cbn [snd] in L3; cbv beta iota in F.
  - pose proof (extendedInfo_extends h s3) as (e4 & _ & L4 & _).
    destruct (extendedInfo h s3) as [[u4|e] s4]; cbn [snd] in L4; cbv beta iota in F;
      rewrite F, ?log_mark_failed, L4, L3, !in_app_iff; auto.
  - rewrite F, log_mark_failed, L3, in_app_iff. auto.
Qed.

(** On a Linux runner the branch logs what [distroInfo] evaluates to. *)
Lemma platformDetails_linux h s d s' :
  RUNNER_OS (env h) = Some "Linux" ->
  distroInfo h s = (Ok d, s') ->
  platformDetails h s = (Ok tt, emit [Log ("  DISTRO INFO:    " ++ d)] s').
Proof.
  intros Hos Hd. unfold platformDetails, env_is. rewrite Hos. cbn [String.eqb Ascii.eqb Bool.eqb].
  change (if true then ?a else ?b) with a. 
  rewrite (bind_ok _ _ _ _ _ Hd). reflexivity.
Qed.

Lemma reports_distro_intro h d :
  RUNNER_OS (env h) = Some "Linux" ->
  (forall s, distroInfo h s = (Ok d, s)) ->
  reports_distro h d.
Proof.
  intros Hos Hd. split; [exact Hd|].
  eapply (final_keeps_log h tt).
  - erewrite bind_ok by (apply (platformDetails_linux h _ d _ Hos (Hd _))). reflexivity.
  - cbn [log emit]. rewrite !in_app_iff. cbn [In]. auto.
Qed.

Lemma distroInfo_reads_file h t :
  existsSync (etc_os_release h) = true ->
  readFileSync (etc_os_release h) = Ok t ->
  forall s, distroInfo h s = (distroInfo_of t, s).
Proof.
  intros Hex Hread s. unfold distroInfo. rewrite Hex, Hread. reflexivity.
Qed.

(** ** The distribution of a Linux runner *)

Lemma platformDetails_linux_throws h s e s' :
  RUNNER_OS (env h) = Some "Linux" ->
  distroInfo h s = (Throw e, s') ->
  platformDetails h s = (Throw e, s').
Proof.
  intros Hos Hd. unfold platformDetails, env_is. rewrite Hos.
  cbn [String.eqb Ascii.eqb Bool.eqb].
  change (if true then ?a else ?b) with a.
  now rewrite (bind_throw _ _ _ _ _ Hd).
Qed.

(** Without the file, a [lsb_release] that runs and fails leaves "N/A". *)
Lemma failing_lsb_release_gives_NA h s p :
  existsSync (etc_os_release h) = false ->
  spawn h (calls s) lsb_call = Started p ->
  no_output (result_of p) ->
  distroInfo h s = (Ok "N/A", record_call lsb_call s).
Proof.
  intros Hex Hp Hno. unfold distroInfo. rewrite Hex.
  rewrite (bind_ok _ _ _ _ _ (getCommandOutput_started h _ _ s p Hp)).
  apply probe_test_false in Hno. rewrite Hno. reflexivity.
Qed.

(** C2.  On a Linux runner without [/etc/os-release], when [lsb_release]
    cannot be started the rejection of the toolkit is not handled where the
    command is invoked: it reaches the top-level handler, the run is marked
    as failed, no distribution line is logged, "N/A" included, and no further
    command is started. *)
Theorem absent_lsb_release_fails_the_run h e :
  RUNNER_OS (env h) = Some "Linux" ->
  existsSync (etc_os_release h) = false ->
  spawn h [] lsb_call = FailedToStart e ->
  failed (final h) = Some ("Action failed: " ++ message e ++ Js.chr Js.nl ++ stack e)
  /\ calls (final h) = [lsb_call]
  /\ forall d, ~ In (Log ("  DISTRO INFO:    " ++ d)) (log (final h)).
Proof.
  intros Hos Hex Hlsb.
  assert (D : distroInfo h (at_platform h) = (Throw e, record_call lsb_call (at_platform h))).
  { unfold distroInfo. rewrite Hex.
    apply bind_throw. apply getCommandOutput_not_started. exact Hlsb. }
  pose proof (final_cases h) as F.
  rewrite (bind_throw _ _ _ _ _ (platformDetails_linux_throws h _ _ _ Hos D)) in F.
  rewrite F. split; [reflexivity|]. split; [reflexivity|].
  intros d. rewrite log_mark_failed, log_record_call.
  unfold at_platform, timestamp_events, os_header. cbn [log app In].
  intros H. repeat (destruct H as [H|H]; [discriminate H|]). exact H.
Qed.

Lemma absent_lsb_release_fails_the_run_witness :
  failed (final Demo.bare_linux)
  = Some ("Action failed: Unable to locate executable file: lsb_release"
            ++ Js.chr Js.nl ++ "Error: Unable to locate executable file")
  /\ calls (final Demo.bare_linux) = [lsb_call]
  /\ forall d, ~ In (Log ("  DISTRO INFO:    " ++ d)) (log (final Demo.bare_linux)).
Proof.
  exact (absent_lsb_release_fails_the_run Demo.bare_linux
           (Demo.not_located "lsb_release") eq_refl eq_refl eq_refl).
Defined.

Lemma distroInfo_of_pretty_name t v :
  plain v -> v <> EmptyString ->
  pretty_lines t = [quoted "PRETTY_NAME" v] ->
  distroInfo_of t = Ok v.
Proof.
  intros Hv Hne Hp. unfold distroInfo_of.
  change (pretty_names t) with (map_res field_value (pretty_lines t)).
  rewrite Hp. cbn [map_res].
  rewrite (field_value_quoted "PRETTY_NAME" v eq_refl Hv).
  cbn [Js.join String.concat].
  destruct v; [congruence | reflexivity].
Qed.

Lemma distroInfo_of_name_version t values :
  pretty_lines t = [] ->
  name_and_version t = Ok values ->
  distroInfo_of t = Ok (Js.join " " values).
Proof.
  intros Hp Hv. unfold distroInfo_of.
  change (pretty_names t) with (map_res field_value (pretty_lines t)).
  rewrite Hp. cbn [map_res Js.join String.concat Js.truthy].
  now rewrite Hv.
Qed.

(** The values of well-formed lines, in their order. *)
Lemma map_res_quoted (fields : list (string * string)) :
  Forall (fun kv => has_char "="%char (fst kv) = false /\ plain (snd kv)) fields ->
  map_res field_value (map (fun kv => quoted (fst kv) (snd kv)) fields)
  = Ok (map snd fields).
Proof.
  induction 1 as [|kv rest [Hk Hv] _ IH]; [reflexivity|].
  cbn [map map_res]. now rewrite (field_value_quoted _ _ Hk Hv), IH.
Qed.

Lemma distroInfo_of_pretty_names t vs :
  Forall plain vs -> Js.join ", " vs <> EmptyString ->
  pretty_lines t = map (quoted "PRETTY_NAME") vs ->
  distroInfo_of t = Ok (Js.join ", " vs).
Proof.
  intros Hvs Hne Hp. unfold distroInfo_of.
  change (pretty_names t) with (map_res field_value (pretty_lines t)).
  rewrite Hp.
  assert (Q : map_res field_value (map (quoted "PRETTY_NAME") vs) = Ok vs).
  { clear Hne Hp. induction Hvs as [|v rest Hv _ IH]; [reflexivity|].
    cbn [map map_res]. now rewrite (field_value_quoted "PRETTY_NAME" v eq_refl Hv), IH. }
  rewrite Q. apply truthy_true in Hne. now rewrite Hne.
Qed.

(** C7, as the code has it.  On a Linux runner whose [/etc/os-release] can be
    read: when exactly one line starts with PRETTY_NAME= and holds a quoted
    value, the distribution reported is that value without the quotes; when
    several lines do, it is their values in the order of the file, joined by
    a comma and a space; when no line starts with PRETTY_NAME=, the
    distribution reported is the values of the lines that start with NAME= or
    VERSION=, however many, in the order of the file, joined by single
    spaces, so NAME and VERSION lines give the name, a space, the version. *)
Theorem distro_from_os_release h t :
  RUNNER_OS (env h) = Some "Linux" ->
  existsSync (etc_os_release h) = true ->
  readFileSync (etc_os_release h) = Ok t ->
  (forall v, plain v -> v <> EmptyString ->
     pretty_lines t = [quoted "PRETTY_NAME" v] -> reports_distro h v)
  /\ (forall n v, plain n -> plain v ->
        pretty_lines t = [] ->
        name_version_lines t = [quoted "NAME" n; quoted "VERSION" v] ->
        reports_distro h (n ++ " " ++ v))
  /\ (pretty_lines t = [] ->
      exists values, name_and_version t = Ok values
                     /\ reports_distro h (Js.join " " values))
  /\ (forall vs, Forall plain vs -> Js.join ", " vs <> EmptyString ->
        pretty_lines t = map (quoted "PRETTY_NAME") vs ->
        reports_distro h (Js.join ", " vs))
  /\ (forall fields,
        Forall (fun kv => (fst kv = "NAME" \/ fst kv = "VERSION") /\ plain (snd kv)) fields ->
        pretty_lines t = [] ->
        name_version_lines t = map (fun kv => quoted (fst kv) (snd kv)) fields ->
        reports_distro h (Js.join " " (map snd fields))).
Proof.
  intros Hos Hex Hread.
  pose proof (distroInfo_reads_file h t Hex Hread) as D.
  split; [|split; [|split; [|split]]].
  - intros v Hv Hne Hp. apply (reports_distro_intro h v Hos).
    intros s. rewrite D, (distroInfo_of_pretty_name t v Hv Hne Hp). reflexivity.
  - intros n v Hn Hv Hp Hnv. apply (reports_distro_intro h _ Hos).
    intros s. rewrite D.
    rewrite (distroInfo_of_name_version t [n; v] Hp); [reflexivity|].
    change (name_and_version t) with (map_res field_value (name_version_lines t)).
    rewrite Hnv. cbn [map_res].
    rewrite (field_value_quoted "NAME" n eq_refl Hn).
    rewrite (field_value_quoted "VERSION" v eq_refl Hv). reflexivity.
  - intros Hp. destruct (name_and_version_defined t) as (values & Hv).
    exists values. split; [exact Hv|]. apply (reports_distro_intro h _ Hos).
    intros s. rewrite D, (distroInfo_of_name_version t values Hp Hv). reflexivity.
  - intros vs Hvs Hne Hp. apply (reports_distro_intro h _ Hos).
    intros s. rewrite D, (distroInfo_of_pretty_names t vs Hvs Hne Hp). reflexivity.
  - intros fields Hf Hp Hnv. apply (reports_distro_intro h _ Hos).
    intros s. rewrite D.
    rewrite (distroInfo_of_name_version t (map snd fields) Hp); [reflexivity|].
    change (name_and_version t) with (map_res field_value (name_version_lines t)).
    rewrite Hnv. apply map_res_quoted.
    apply (Forall_impl _ (P := fun kv => (fst kv = "NAME" \/ fst kv = "VERSION")
                                          /\ plain (snd kv))); [|exact Hf].
    intros kv [[->| ->] Hv]; split; auto.
Qed.

Lemma distro_from_os_release_witness :
  reports_distro (Demo.linux_with Demo.test_os) "Test OS 1.0"
  /\ reports_distro (Demo.linux_with Demo.two_pretty_names) "Test OS 1.0, Other OS 2".
Proof.
  split.
  - apply (proj1 (distro_from_os_release (Demo.linux_with Demo.test_os) Demo.test_os
                    eq_refl eq_refl eq_refl) "Test OS 1.0").
    + split; reflexivity.
    + discriminate.
    + reflexivity.
  - destruct (distro_from_os_release (Demo.linux_with Demo.two_pretty_names)
                Demo.two_pretty_names eq_refl eq_refl eq_refl) as (_ & _ & _ & H & _).
    apply (H ["Test OS 1.0"; "Other OS 2"]).
    + repeat constructor.
    + discriminate.
    + reflexivity.
Defined.

(** C7 as stated fails twice.  A file that contains the line of the claim
    and a second PRETTY_NAME line is reported with both values, joined by a
    comma and a space; and a file with NAME and VERSION alone is reported
    with a space between the two values, which is not their concatenation. *)
Lemma distro_from_os_release_counterexample :
  (In (quoted "PRETTY_NAME" "Test OS 1.0") (Js.split Js.nl Demo.two_pretty_names)
   /\ distroInfo (Demo.linux_with Demo.two_pretty_names) initial
      = (Ok "Test OS 1.0, Other OS 2", initial)
   /\ In (Log "  DISTRO INFO:    Test OS 1.0, Other OS 2")
         (log (final (Demo.linux_with Demo.two_pretty_names)))
   /\ ~ In (Log "  DISTRO INFO:    Test OS 1.0")
           (log (final (Demo.linux_with Demo.two_pretty_names))))
  /\ (pretty_lines Demo.name_version_only = []
      /\ name_version_lines Demo.name_version_only = [quoted "NAME" "Test"; quoted "VERSION" "1.0"]
      /\ distroInfo (Demo.linux_with Demo.name_version_only) initial
         = (Ok "Test 1.0", initial)
      /\ "Test 1.0" <> "Test" ++ "1.0"
      /\ In (Log "  DISTRO INFO:    Test 1.0")
            (log (final (Demo.linux_with Demo.name_version_only)))).
Proof.
  split; [split; [|split; [|split]] | split; [|split; [|split; [|split]]]].
  - vm_compute. auto.
  - vm_compute. reflexivity.
  - vm_compute. repeat (first [left; reflexivity | right]).
  - vm_compute. intros H. repeat (destruct H as [H|H]; [discriminate H|]). exact H.
  - vm_compute. reflexivity.
  - vm_compute. reflexivity.
  - vm_compute. reflexivity.
  - vm_compute. discriminate.
  - vm_compute. repeat (first [left; reflexivity | right]).
Qed.

(** ** The first three stages stay clear of the extended section *)

Ltac basic :=
  lazymatch goal with
  | |- basic_call _ => unfold basic_call; cbn [fst]; repeat split; discriminate
  | |- basic_event _ =>
      repeat match goal with
             | |- context [formatBlock ?x ?i] =>
                 let r := fresh "rest" in
                 destruct (formatBlock_starts_with_indent x i) as (r & ->)
             end;
      unfold basic_event, java_heading, tree_heading, extended_title;
      repeat split;
      let H := fresh in intros H; cbn in H; discriminate H
  | |- forall _, _ => intro; basic
  end.

Lemma operatingSystemDetails_basic h ts :
  keeps basic_call basic_event (operatingSystemDetails h ts).
Proof.
  unfold operatingSystemDetails, platformDetails, distroInfo. frame; basic.
Qed.

Lemma gitRepositoryDetails_basic h :
  keeps basic_call basic_event (gitRepositoryDetails h).
Proof.
  unfold gitRepositoryDetails, configureSafeDirectory, branchName, commitSha, env_or_git.
  frame; basic.
Qed.

(** With a false flag, a run starts commands and logs events of the first
    three stages only. *)
Lemma run_basic h :
  showExtendedInfo h = false ->
  Forall basic_call (calls (final h)) /\ Forall basic_event (log (final h)).
Proof.
  intros Hflag. unfold final. rewrite run_unfold.
  set (rest := (operatingSystemDetails h (timestamp_of (now h)) ;;
                gitRepositoryDetails h ;; extendedInfo h)).
  assert (K : keeps basic_call basic_event rest).
  { subst rest. frame.
    - apply operatingSystemDetails_basic.
    - apply gitRepositoryDetails_basic.
    - unfold extendedInfo. rewrite Hflag. apply keeps_ret. }
  specialize (K (snd (generateTimestamp h initial))).
  destruct K as (evs & cs & Hl & Hc & Fe & Fc & _ & _).
  assert (L0 : Forall basic_event (log (snd (generateTimestamp h initial)))).
  { cbn. repeat constructor; unfold extended_title, java_heading, tree_heading;
      intros H; discriminate H. }
  unfold try_catch.
  destruct (rest (snd (generateTimestamp h initial))) as [[u|e] s'];
    cbn [snd setFailed log calls] in *; rewrite Hl, Hc; split;
      try (apply Forall_app; split; assumption); exact Fc.
Qed.

(** ** Runs in which every command starts *)

Lemma completes_eq {A} (m : M A) cs cs' :
  completes m cs' -> cs = cs' -> completes m cs.
Proof. intros H ->. exact H. Qed.

Lemma completes_ret {A} (a : A) : completes (ret a) [].
Proof. intros s. exists a, s. rewrite app_nil_r. auto. Qed.

Lemma completes_lift {A} (r : Res A) a : r = Ok a -> completes (lift r) [].
Proof. intros -> s. exists a, s. rewrite app_nil_r. auto. Qed.

Lemma completes_bind {A B} (m : M A) (f : A -> M B) c1 c2 :
  completes m c1 -> (forall a, completes (f a) c2) -> completes (bind m f) (c1 ++ c2).
Proof.
  intros Hm Hf s.
  destruct (Hm s) as (a & s1 & E1 & C1 & F1).
  destruct (Hf a s1) as (b & s2 & E2 & C2 & F2).
  exists b, s2. rewrite (bind_ok _ _ _ _ _ E1), E2, C2, C1, F2, F1, app_assoc. auto.
Qed.

Lemma completes_emit {A} (m : M A) a evs :
  (forall s, m s = (Ok a, emit evs s)) -> completes m [].
Proof. intros H s. exists a, (emit evs s). rewrite H, app_nil_r. auto. Qed.

Lemma completes_console_log line : completes (console_log line) [].
Proof. now apply (completes_emit _ tt [Log line]). Qed.

Lemma completes_startGroup name : completes (startGroup name) [].
Proof. now apply (completes_emit _ tt [StartGroup name]). Qed.

Lemma completes_endGroup : completes endGroup [].
Proof. now apply (completes_emit _ tt [EndGroup]). Qed.

Lemma completes_warning msg : completes (warning msg) [].
Proof. now apply (completes_emit _ tt [Warning msg]). Qed.

Section EveryCommandStarts.

Variable h : Host.
Hypothesis starts : every_command_starts h.

Lemma completes_getCommandOutput command args :
  completes (getCommandOutput h command args) [(command, args)].
Proof.
  intros s. destruct (starts (calls s) (command, args)) as (p & Hp).
  exists (result_of p), (record_call (command, args) s).
  rewrite (getCommandOutput_started _ _ _ _ _ Hp). auto.
Qed.

Lemma completes_safe_directory workspace :
  safe_directory_succeeds h ->
  completes (exec_exec h (fst (safe_directory_call workspace))
               (snd (safe_directory_call workspace)) default_options tt)
            [safe_directory_call workspace].
Proof.
  intros Hzero s.
  destruct (starts (calls s) (safe_directory_call workspace)) as (p & Hp).
  pose proof (Hzero _ _ _ Hp) as Hc.
  unfold exec_exec.
  change (spawn h (calls s) (fst (safe_directory_call workspace),
                             snd (safe_directory_call workspace)))
    with (spawn h (calls s) (safe_directory_call workspace)).
  rewrite Hp, Hc. cbn [silent ignoreReturnCode default_options Z.eqb orb].
  eexists _, _. split; [reflexivity|]. split; reflexivity.
Qed.

Ltac complete_step :=
  lazymatch goal with
  | |- completes (bind _ _) _ => eapply completes_bind; [ | intro ]
  | |- completes (ret _) _ => apply completes_ret
  | |- completes (console_log _) _ => apply completes_console_log
  | |- completes (startGroup _) _ => apply completes_startGroup
  | |- completes endGroup _ => apply completes_endGroup
  | |- completes (warning _) _ => apply completes_warning
  | |- completes (getCommandOutput _ _ _) _ => apply completes_getCommandOutput
  | |- completes (exec_exec _ _ _ default_options _) _ =>
      apply completes_safe_directory; assumption
  | |- completes (distroInfo _) _ => eassumption
  | |- completes (if ?b then _ else _) _ => destruct b
  end.

Ltac complete := eapply completes_eq; [repeat complete_step | reflexivity].

Lemma distroInfo_completes :
  file_is_readable h ->
  completes (distroInfo h) (if existsSync (etc_os_release h) then [] else [lsb_call]).
Proof.
  intros Hread. unfold distroInfo.
  destruct (existsSync (etc_os_release h)) eqn:Hex.
  - destruct (Hread Hex) as (t & Ht).
    eapply completes_eq.
    + eapply completes_bind; [apply (completes_lift _ _ Ht) | intro a].
      destruct (distroInfo_of_defined a) as (d' & Hd').
      apply (completes_lift _ _ Hd').
    + reflexivity.
  - complete.
Qed.

Lemma platformDetails_completes :
  file_is_readable h ->
  completes (platformDetails h ;; console_log rule40 ;; endGroup) (platform_calls h).
Proof.
  intros Hread. pose proof (distroInfo_completes Hread) as D.
  unfold platformDetails, platform_calls.
  destruct (env_is (RUNNER_OS (env h)) "Linux").
  - destruct (existsSync (etc_os_release h)); complete.
  - destruct (env_is (RUNNER_OS (env h)) "macOS"); [complete|].
    destruct (env_is (RUNNER_OS (env h)) "Windows"); complete.
Qed.

Lemma gitRepositoryDetails_completes :
  safe_directory_succeeds h ->
  completes (gitRepositoryDetails h)
            (safe_directory_calls h ++ rev_parse_calls h ++ git_log_calls).
Proof.
  intros Hzero.
  unfold gitRepositoryDetails, configureSafeDirectory, branchName, commitSha, env_or_git,
    safe_directory_calls, rev_parse_calls.
  destruct (GITHUB_WORKSPACE (env h)) as [[|c r]|];
    destruct (GITHUB_REF_NAME (env h)) as [[|c1 r1]|];
    destruct (GITHUB_SHA (env h)) as [[|c2 r2]|]; complete.
Qed.

Lemma javaProbe_completes : completes (javaProbe h) [java_call].
Proof. unfold javaProbe. complete. Qed.

End EveryCommandStarts.

Lemma completes_upto_intro {A} (m : M A) cs : completes m cs -> completes_upto m cs.
Proof.
  intros H s. destruct (H s) as (a & s' & E & C & F).
  exists a, s', []. rewrite app_nil_r. auto.
Qed.

Lemma completes_then_upto {A B} (m : M A) (f : A -> M B) c1 c2 :
  completes m c1 -> (forall a, completes_upto (f a) c2) ->
  completes_upto (bind m f) (c1 ++ c2).
Proof.
  intros Hm Hf s.
  destruct (Hm s) as (a & s1 & E1 & C1 & F1).
  destruct (Hf a s1) as (b & s2 & extra & E2 & C2 & F2).
  exists b, s2, extra.
  rewrite (bind_ok _ _ _ _ _ E1), E2, C2, C1, F2, F1, <- !app_assoc. auto.
Qed.

Lemma upto_then_silent {A B} (m : M A) (f : A -> M B) cs :
  completes_upto m cs -> (forall a, completes (f a) []) ->
  completes_upto (bind m f) cs.
Proof.
  intros Hm Hf s.
  destruct (Hm s) as (a & s1 & extra & E1 & C1 & F1).
  destruct (Hf a s1) as (b & s2 & E2 & C2 & F2).
  exists b, s2, extra.
  rewrite (bind_ok _ _ _ _ _ E1), E2, C2, C1, F2, F1, app_nil_r. auto.
Qed.

(** The tree probe returns on every runner, having started the tree command
    and at most one more. *)
Lemma treeProbe_returns h : completes_upto (treeProbe h) [tree_call h].
Proof.
  intros s. pose proof (treeProbe_cases h s) as C. cbv zeta in C.
  destruct (spawn h (calls s) (tree_call h)) as [p|e].
  - destruct ((exitCode (result_of p) =? 0) && Js.truthy (stdout (result_of p))).
    + rewrite C. exists tt. eexists. exists []. split; [reflexivity|].
      split; reflexivity.
    + destruct (env_is (RUNNER_OS (env h)) "Windows").
      * destruct (spawn h (calls s ++ [tree_call h]) (winTree_call h)) as [q|e];
          [destruct ((exitCode (result_of q) =? 0) && Js.truthy (stdout (result_of q)))|];
          rewrite C; exists tt; eexists; exists [winTree_call h];
            (split; [reflexivity|]); cbn [calls emit record_call failed];
            rewrite <- app_assoc; split; reflexivity.
      * rewrite C. exists tt. eexists. exists []. split; [reflexivity|].
        split; reflexivity.
  - rewrite C. exists tt. eexists. exists []. split; [reflexivity|].
    split; reflexivity.
Qed.

Lemma extendedInfo_returns h :
  every_command_starts h -> completes_upto (extendedInfo h) (extended_calls h).
Proof.
  intros starts. unfold extendedInfo, extended_calls.
  destruct (showExtendedInfo h).
  - change [java_call; tree_call h]
      with (([] : list Call) ++ [] ++ [java_call] ++ [tree_call h])%list.
    apply completes_then_upto; [apply completes_startGroup | intros _].
    apply completes_then_upto; [apply completes_console_log | intros _].
    apply completes_then_upto; [apply (javaProbe_completes h starts) | intros _].
    apply upto_then_silent; [apply treeProbe_returns | intros _].
    apply (completes_bind _ _ [] []); [apply completes_console_log | intros _].
    apply completes_endGroup.
  - apply completes_upto_intro, completes_ret.
Qed.

(** When every command starts, the file can be read and the safe.directory
    configuration exits with zero, the run is not marked as failed and starts
    every planned command, whatever the exit codes of the others. *)
Lemma run_completes h :
  every_command_starts h -> file_is_readable h -> safe_directory_succeeds h ->
  failed (final h) = None /\ exists extra, calls (final h) = (planned h ++ extra)%list.
Proof.
  intros starts Hread Hzero. pose proof (final_cases h) as F.
  destruct (platformDetails_completes h starts Hread (at_platform h))
    as (u2 & s2 & E2 & C2 & F2).
  rewrite E2 in F.
  destruct (gitRepositoryDetails_completes h starts Hzero s2) as (u3 & s3 & E3 & C3 & F3).
  rewrite E3 in F.
  destruct (extendedInfo_returns h starts s3) as (u4 & s4 & extra & E4 & C4 & F4).
  rewrite E4 in F. rewrite F. split.
  - rewrite F4, F3, F2. reflexivity.
  - exists extra. rewrite C4, C3, C2. unfold planned. cbn [calls at_platform app].
    rewrite <- !app_assoc. reflexivity.
Qed.


(** ** Failing commands and the course of the run *)

Lemma configureSafeDirectory_raises h s workspace p :
  GITHUB_WORKSPACE (env h) = Some workspace -> workspace <> EmptyString ->
  spawn h (calls s) (safe_directory_call workspace) = Started p ->
  code p <> 0 ->
  exists s',
    configureSafeDirectory h s
    = (Throw (exit_error h (safe_directory_call workspace) (code p)), s')
    /\ calls s' = (calls s ++ [safe_directory_call workspace])%list.
Proof.
  intros Hws Hne Hp Hc. unfold configureSafeDirectory. rewrite Hws.
  destruct workspace as [|c r]; [congruence|].
  unfold bind, exec_exec.
  change (spawn h (calls s) (fst (safe_directory_call (String c r)),
                             snd (safe_directory_call (String c r))))
    with (spawn h (calls s) (safe_directory_call (String c r))).
  rewrite Hp. apply Z.eqb_neq in Hc. rewrite Hc.
  cbn [silent ignoreReturnCode default_options orb].
  eexists. split; reflexivity.
Qed.

Lemma safe_directory_failure_stops_run h workspace p :
  every_command_starts h -> file_is_readable h ->
  GITHUB_WORKSPACE (env h) = Some workspace -> workspace <> EmptyString ->
  spawn h (platform_calls h) (safe_directory_call workspace) = Started p ->
  code p <> 0 ->
  failed (final h)
  = Some ("Action failed: "
            ++ message (exit_error h (safe_directory_call workspace) (code p))
            ++ Js.chr Js.nl
            ++ stack (exit_error h (safe_directory_call workspace) (code p)))
  /\ calls (final h) = (platform_calls h ++ [safe_directory_call workspace])%list.
Proof.
  intros starts Hread Hws Hne Hp Hc. pose proof (final_cases h) as F.
  destruct (platformDetails_completes h starts Hread (at_platform h))
    as (u2 & s2 & E2 & C2 & F2).
  rewrite E2 in F. cbn [calls at_platform app] in C2.
  set (s2' := emit [StartGroup "🌳 Git Repository Details"] s2).
  assert (Hp' : spawn h (calls s2') (safe_directory_call workspace) = Started p)
    by (subst s2'; rewrite calls_emit, C2; exact Hp).
  destruct (configureSafeDirectory_raises h s2' workspace p Hws Hne Hp' Hc)
    as (s3 & E3 & C3).
  assert (G : gitRepositoryDetails h s2
              = (Throw (exit_error h (safe_directory_call workspace) (code p)), s3)).
  { unfold gitRepositoryDetails.
    erewrite bind_ok by reflexivity. fold s2'.
    erewrite bind_throw by exact E3. reflexivity. }
  rewrite G in F. rewrite F. split; [reflexivity|].
  rewrite calls_mark_failed, C3. subst s2'. rewrite calls_emit, C2. reflexivity.
Qed.

(** C1, as the code has it.  On a runner where every command starts and
    [/etc/os-release] can be read when it exists: each command run through
    the helper yields its result, whatever its exit code; when moreover the
    safe.directory configuration, which is run without the helper, exits
    with zero, the run is not marked as failed and every planned command is
    started, whatever the exit codes of the others; and when that
    configuration exits with a non-zero code, the run is marked as failed and
    no command is started after it. *)
Theorem command_failure_is_data h :
  every_command_starts h -> file_is_readable h ->
  (forall command args s,
     exists p, spawn h (calls s) (command, args) = Started p
               /\ getCommandOutput h command args s
                  = (Ok (result_of p), record_call (command, args) s))
  /\ (safe_directory_succeeds h ->
      failed (final h) = None /\ incl (planned h) (calls (final h)))
  /\ (forall workspace p,
        GITHUB_WORKSPACE (env h) = Some workspace -> workspace <> EmptyString ->
        spawn h (platform_calls h) (safe_directory_call workspace) = Started p ->
        code p <> 0 ->
        failed (final h) <> None
        /\ calls (final h) = (platform_calls h ++ [safe_directory_call workspace])%list).
Proof.
  intros starts Hread. split; [|split].
  - intros command args s.
    destruct (starts (calls s) (command, args)) as (p & Hp).
    exists p. split; [exact Hp | now apply getCommandOutput_started].
  - intros Hzero.
    destruct (run_completes h starts Hread Hzero) as (Hf & extra & Hc).
    split; [exact Hf|]. rewrite Hc. apply incl_appl, incl_refl.
  - intros workspace p Hws Hne Hp Hc.
    destruct (safe_directory_failure_stops_run h workspace p starts Hread Hws Hne Hp Hc)
      as (Hf & Hcalls).
    split; [rewrite Hf; discriminate | exact Hcalls].
Qed.

Lemma command_failure_is_data_witness :
  let h := Demo.only_config_succeeds (Some "macOS") in
  failed (final h) = None /\ incl (planned h) (calls (final h)).
Proof.
  intros h.
  assert (starts : every_command_starts h) by (intros hist c; eexists; reflexivity).
  assert (Hread : file_is_readable h) by (intros H; discriminate H).
  assert (Hzero : safe_directory_succeeds h)
    by (intros hist workspace p H; injection H as <-; reflexivity).
  exact (proj1 (proj2 (command_failure_is_data h starts Hread)) Hzero).
Defined.

(** C1 as stated fails: on a runner where every command starts and exits
    with 1, the safe.directory configuration ends the run; the run is marked
    as failed and the git queries that follow are not started. *)
Lemma command_failure_is_data_counterexample :
  let h := Demo.all_fail "false" in
  every_command_starts h
  /\ failed (final h) <> None
  /\ calls (final h) = [("sw_vers", []); safe_directory_call "/home/runner/work/repo"]
  /\ ~ In ("git", commitMessage_args) (calls (final h)).
Proof.
  intros h. split; [intros hist c; eexists; reflexivity|].
  split; [vm_compute; discriminate|].
  split; [vm_compute; reflexivity|].
  vm_compute. intros H. repeat (destruct H as [H|H]; [discriminate H|]). exact H.
Qed.

(** ** The extended section and the flag *)

(** C8, as the code has it.  With a false flag no command of the Java probe
    or of the tree probe is started and neither the group nor the headings of
    the extended section are logged, on every runner.  With a true flag, on
    every runner where each command starts, the file can be read when it
    exists and the safe.directory configuration exits with zero, whatever
    the family of the runner, the commands of both probes are started. *)
Theorem extended_section_follows_flag h :
  (showExtendedInfo h = false ->
   Forall basic_call (calls (final h)) /\ Forall basic_event (log (final h)))
  /\ (showExtendedInfo h = true ->
      every_command_starts h -> file_is_readable h -> safe_directory_succeeds h ->
      In java_call (calls (final h)) /\ In (tree_call h) (calls (final h))).
Proof.
  split.
  - apply run_basic.
  - intros Hflag starts Hread Hzero.
    destruct (run_completes h starts Hread Hzero) as (_ & extra & Hc).
    rewrite Hc. unfold planned, extended_calls. rewrite Hflag, !in_app_iff.
    cbn [In]. split; auto 10.
Qed.

Lemma extended_section_follows_flag_witness :
  let h := Demo.only_config_succeeds (Some "Windows") in
  In java_call (calls (final h)) /\ In (tree_call h) (calls (final h)).
Proof.
  intros h.
  assert (starts : every_command_starts h) by (intros hist c; eexists; reflexivity).
  assert (Hread : file_is_readable h) by (intros H; discriminate H).
  assert (Hzero : safe_directory_succeeds h)
    by (intros hist workspace p H; injection H as <-; reflexivity).
  exact (proj2 (extended_section_follows_flag h) eq_refl starts Hread Hzero).
Defined.

(** C8 as stated fails: with a true flag, on a runner where the
    safe.directory configuration exits with 1, neither probe is attempted. *)
Lemma extended_section_follows_flag_counterexample :
  let h := Demo.all_fail "true" in
  showExtendedInfo h = true
  /\ ~ In java_call (calls (final h))
  /\ ~ In (tree_call h) (calls (final h)).
Proof.
  intros h. split; [reflexivity|].
  split; vm_compute; intros H; repeat (destruct H as [H|H]; [discriminate H|]); exact H.
Qed.
(** ** What stage 3 logs *)

Lemma extend_nil s : extend [] [] s = s.
Proof. destruct s. unfold extend. cbn. now rewrite !app_nil_r. Qed.

Lemma emit_extend evs s : emit evs s = extend [] evs s.
Proof. unfold emit, extend. now rewrite app_nil_r. Qed.

Lemma record_call_extend c s : record_call c s = extend [c] [] s.
Proof. unfold record_call, extend. now rewrite app_nil_r. Qed.

Lemma extend_extend c1 e1 c2 e2 s :
  extend c2 e2 (extend c1 e1 s) = extend (c1 ++ c2) (e1 ++ e2) s.
Proof. unfold extend. cbn. now rewrite !app_assoc. Qed.

Lemma runs_ret {A} (a : A) hist : runs_to (ret a) hist [] [] a.
Proof. intros s _. unfold ret. now rewrite extend_nil. Qed.

Lemma runs_console_log line hist : runs_to (console_log line) hist [] [Log line] tt.
Proof. intros s _. unfold console_log. now rewrite emit_extend. Qed.

Lemma runs_startGroup name hist : runs_to (startGroup name) hist [] [StartGroup name] tt.
Proof. intros s _. unfold startGroup. now rewrite emit_extend. Qed.

Lemma runs_endGroup hist : runs_to endGroup hist [] [EndGroup] tt.
Proof. intros s _. unfold endGroup. now rewrite emit_extend. Qed.

Lemma runs_warning msg hist : runs_to (warning msg) hist [] [Warning msg] tt.
Proof. intros s _. unfold warning. now rewrite emit_extend. Qed.

Lemma runs_bind {A B} (m : M A) (f : A -> M B) hist c1 e1 a c2 e2 b :
  runs_to m hist c1 e1 a -> runs_to (f a) (hist ++ c1) c2 e2 b ->
  runs_to (bind m f) hist (c1 ++ c2) (e1 ++ e2) b.
Proof.
  intros Hm Hf s Hs. unfold bind. rewrite (Hm s Hs).
  rewrite (Hf (extend c1 e1 s)) by (cbn; now rewrite Hs).
  now rewrite extend_extend.
Qed.

(** The same, after a statement that starts no command. *)
Lemma runs_after {A B} (m : M A) (f : A -> M B) hist e1 a c2 e2 b :
  runs_to m hist [] e1 a -> runs_to (f a) hist c2 e2 b ->
  runs_to (bind m f) hist c2 (e1 ++ e2) b.
Proof.
  intros Hm Hf. rewrite <- (app_nil_r hist) in Hf.
  exact (runs_bind m f hist [] e1 a c2 e2 b Hm Hf).
Qed.

Lemma runs_getCommandOutput h command args hist p :
  spawn h hist (command, args) = Started p ->
  runs_to (getCommandOutput h command args) hist [(command, args)] [] (result_of p).
Proof.
  intros Hp s Hs. rewrite <- Hs in Hp.
  rewrite (getCommandOutput_started _ _ _ _ _ Hp). now rewrite record_call_extend.
Qed.

Lemma runs_env_or_git h v args hist p :
  spawn h hist ("git", args) = Started p ->
  runs_to (env_or_git h v args) hist
          (if Js.env_truthy v then [] else [("git", args)]) []
          (variable_or_output v p).
Proof.
  intros Hp. unfold env_or_git, variable_or_output.
  destruct v as [[|c r]|]; cbn [Js.env_truthy Js.truthy Js.env_show];
    try apply runs_ret;
    intros s Hs; rewrite <- Hs in Hp; unfold bind, ret;
    rewrite (getCommandOutput_started _ _ _ _ _ Hp), record_call_extend; reflexivity.
Qed.

Section GitStage.

Variable h : Host.
Hypothesis starts : every_command_starts h.
Hypothesis succeeds : safe_directory_succeeds h.

Lemma runs_configureSafeDirectory hist :
  exists evs, runs_to (configureSafeDirectory h) hist (safe_directory_calls h) evs tt.
Proof.
  unfold configureSafeDirectory, safe_directory_calls.
  destruct (GITHUB_WORKSPACE (env h)) as [[|c r]|];
    try (eexists; apply runs_warning).
  destruct (starts hist (safe_directory_call (String c r))) as (p & Hp).
  pose proof (succeeds _ _ _ Hp) as Hc.
  eexists. rewrite <- (app_nil_r [safe_directory_call (String c r)]).
  eapply runs_bind; [|apply runs_console_log].
  intros s Hs. unfold exec_exec.
  change (spawn h (calls s) (fst (safe_directory_call (String c r)),
                             snd (safe_directory_call (String c r))))
    with (spawn h (calls s) (safe_directory_call (String c r))).
  rewrite Hs, Hp, Hc. cbn [silent ignoreReturnCode default_options Z.eqb orb fold_left].
  rewrite record_call_extend, emit_extend, extend_extend. reflexivity.
Qed.

Ltac logged_line :=
  first [ left; reflexivity
        | apply in_or_app; left; logged_line
        | apply in_or_app; right; logged_line ].

(** With the commands of the stage started, the stage returns and has
    logged the branch, the hash, its first characters and the tags as the
    queries or the variables give them. *)
Lemma gitRepositoryDetails_logs hist p1 p2 pt :
  spawn h (hist ++ safe_directory_calls h) branch_query = Started p1 ->
  spawn h (hist ++ safe_directory_calls h
             ++ (if Js.env_truthy (GITHUB_REF_NAME (env h)) then [] else [branch_query]))
        sha_query = Started p2 ->
  spawn h (hist ++ safe_directory_calls h ++ rev_parse_calls h
             ++ [("git", author_args); ("git", commitDate_args); ("git", remoteUrl_args)])
        tags_query = Started pt ->
  exists evs,
    runs_to (gitRepositoryDetails h) hist
            (safe_directory_calls h ++ rev_parse_calls h ++ git_log_calls) evs tt
    /\ In (Log ("  BRANCH:           " ++ variable_or_output (GITHUB_REF_NAME (env h)) p1)) evs
    /\ In (Log ("  COMMIT SHA:       " ++ variable_or_output (GITHUB_SHA (env h)) p2)) evs
    /\ In (Log ("  SHORT SHA:        "
                  ++ shortSha (variable_or_output (GITHUB_SHA (env h)) p2))) evs
    /\ In (Log ("  TAGS AT HEAD:     " ++ tagsAtHead_of (Js.trim (all_data (out_chunks pt)))))
          evs.
Proof.
  intros H1 H2 Ht.
  set (ref_calls := if Js.env_truthy (GITHUB_REF_NAME (env h)) then [] else [branch_query]) in *.
  set (sha_calls := if Js.env_truthy (GITHUB_SHA (env h)) then [] else [sha_query]).
  assert (R : rev_parse_calls h = (ref_calls ++ sha_calls)%list) by reflexivity.
  rewrite R in *. clear R.
  destruct (runs_configureSafeDirectory hist) as (e0 & H0).
  set (h1 := (hist ++ safe_directory_calls h)%list) in *.
  set (h2 := (h1 ++ ref_calls)%list).
  set (h3 := (h2 ++ sha_calls)%list).
  assert (E2 : (hist ++ safe_directory_calls h ++ ref_calls)%list = h2)
    by (unfold h2, h1; now rewrite app_assoc).
  assert (Et : (hist ++ safe_directory_calls h ++ (ref_calls ++ sha_calls)
                  ++ [("git", author_args); ("git", commitDate_args); ("git", remoteUrl_args)])%list
               = (((h3 ++ [("git", author_args)]) ++ [("git", commitDate_args)])
                    ++ [("git", remoteUrl_args)])%list).
  { unfold h3, h2, h1. rewrite <- !app_assoc. reflexivity. }
  rewrite E2 in H2. rewrite Et in Ht.
  destruct (starts h3 ("git", author_args)) as (pa & Ha).
  destruct (starts (h3 ++ [("git", author_args)])%list ("git", commitDate_args)) as (pd & Hd).
  destruct (starts ((h3 ++ [("git", author_args)]) ++ [("git", commitDate_args)])%list
              ("git", remoteUrl_args)) as (pr & Hr).
  destruct (starts ((((h3 ++ [("git", author_args)]) ++ [("git", commitDate_args)])
                       ++ [("git", remoteUrl_args)]) ++ [tags_query])%list
              ("git", commitMessage_args)) as (pm & Hm).
  eexists. split.
  - unfold gitRepositoryDetails, branchName, commitSha.
    replace (safe_directory_calls h ++ (ref_calls ++ sha_calls) ++ git_log_calls)%list
      with (safe_directory_calls h ++ ref_calls ++ sha_calls
              ++ [("git", author_args)] ++ [("git", commitDate_args)]
              ++ [("git", remoteUrl_args)] ++ [tags_query]
              ++ [("git", commitMessage_args)] ++ [])%list
      by (rewrite <- !app_assoc; reflexivity).
    eapply runs_after; [apply runs_startGroup|].
    eapply runs_bind; [exact H0|]. fold h1.
    eapply runs_after; [apply runs_console_log|].
    eapply runs_after; [apply runs_console_log|].
    eapply runs_bind; [exact (runs_env_or_git h _ _ h1 p1 H1)|]. fold h2.
    eapply runs_after; [apply runs_console_log|].
    eapply runs_bind; [exact (runs_env_or_git h _ _ h2 p2 H2)|]. fold h3.
    eapply runs_after; [apply runs_console_log|].
    eapply runs_after; [apply runs_console_log|].
    eapply runs_bind; [exact (runs_getCommandOutput h _ _ _ pa Ha)|].
    eapply runs_after; [apply runs_console_log|].
    eapply runs_bind; [exact (runs_getCommandOutput h _ _ _ pd Hd)|].
    eapply runs_after; [apply runs_console_log|].
    eapply runs_bind; [exact (runs_getCommandOutput h _ _ _ pr Hr)|].
    eapply runs_after; [apply runs_console_log|].
    eapply runs_bind; [exact (runs_getCommandOutput h _ _ _ pt Ht)|].
    eapply runs_after; [apply runs_console_log|].
    eapply runs_after; [apply runs_console_log|].
    eapply runs_bind; [exact (runs_getCommandOutput h _ _ _ pm Hm)|].
    eapply runs_after; [apply runs_console_log|].
    eapply runs_after; [apply runs_console_log|].
    eapply runs_after; [apply runs_console_log|].
    apply runs_endGroup.
  - unfold tagsAtHead_of, result_of. cbn [stdout].
    split; [|split; [|split]]; logged_line.
Qed.

End GitStage.

(** What stage 3 logged stays in the log of the run. *)
Lemma final_keeps_git_log h u2 s2 u3 s3 :
  (platformDetails h ;; console_log rule40 ;; endGroup) (at_platform h) = (Ok u2, s2) ->
  gitRepositoryDetails h s2 = (Ok u3, s3) ->
  forall ev, In ev (log s3) -> In ev (log (final h)).
Proof.
  intros H2 H3 ev Hin. pose proof (final_cases h) as F. rewrite H2, H3 in F.
  pose proof (extendedInfo_extends h s3) as (e4 & _ & L4 & _).
  destruct (extendedInfo h s3) as [[u4|e] s4]; cbn [snd] in L4; cbv beta iota in F;
    rewrite F, ?log_mark_failed, L4, in_app_iff; auto.
Qed.

(** On a runner where the run reaches stage 3 and the stage returns, the
    lines of the stage are in the log of the run. *)
Lemma run_logs_git h p1 p2 pt :
  every_command_starts h -> file_is_readable h -> safe_directory_succeeds h ->
  spawn h (platform_calls h ++ safe_directory_calls h) branch_query = Started p1 ->
  spawn h (platform_calls h ++ safe_directory_calls h
             ++ (if Js.env_truthy (GITHUB_REF_NAME (env h)) then [] else [branch_query]))
        sha_query = Started p2 ->
  spawn h (platform_calls h ++ safe_directory_calls h ++ rev_parse_calls h
             ++ [("git", author_args); ("git", commitDate_args); ("git", remoteUrl_args)])
        tags_query = Started pt ->
  In (Log ("  BRANCH:           " ++ variable_or_output (GITHUB_REF_NAME (env h)) p1))
     (log (final h))
  /\ In (Log ("  COMMIT SHA:       " ++ variable_or_output (GITHUB_SHA (env h)) p2))
        (log (final h))
  /\ In (Log ("  SHORT SHA:        "
                ++ shortSha (variable_or_output (GITHUB_SHA (env h)) p2)))
        (log (final h))
  /\ In (Log ("  TAGS AT HEAD:     " ++ tagsAtHead_of (Js.trim (all_data (out_chunks pt)))))
        (log (final h)).
Proof.
  intros starts Hread Hzero H1 H2 Ht.
  destruct (platformDetails_completes h starts Hread (at_platform h))
    as (u2 & s2 & E2 & C2 & _).
  cbn [calls at_platform app] in C2.
  destruct (gitRepositoryDetails_logs h starts Hzero (platform_calls h) p1 p2 pt H1 H2 Ht)
    as (evs & Hrun & Hb & Hs & Hh & Htags).
  pose proof (Hrun s2 C2) as E3.
  assert (K : forall ev, In ev evs -> In ev (log (final h))).
  { intros ev Hev. apply (final_keeps_git_log h u2 s2 tt _ E2 E3).
    cbn [log extend]. rewrite in_app_iff. now right. }
  auto.
Qed.

(** ** A Java that cannot be started *)

Lemma extendedInfo_without_java h s e :
  showExtendedInfo h = true ->
  spawn h (calls s) java_call = FailedToStart e ->
  extendedInfo h s
  = (Throw e, record_call java_call (emit extended_opening s)).
Proof.
  intros Hflag Hj. unfold extendedInfo. rewrite Hflag.
  assert (J : javaProbe h (emit [Log rule54] (emit [StartGroup extended_title] s))
              = (Throw e, record_call java_call
                            (emit [Log java_heading]
                               (emit [Log rule54] (emit [StartGroup extended_title] s))))).
  { unfold javaProbe. erewrite bind_ok by reflexivity.
    apply bind_throw. now apply getCommandOutput_not_started. }
  erewrite bind_ok by reflexivity. erewrite bind_ok by reflexivity.
  rewrite (bind_throw _ _ _ _ _ J). now rewrite !emit_emit.
Qed.

(** C5.  The probe reports a version query that ran to its exit as the
    claim says: the standard-error text when it is not empty, else the
    standard-output text, and the not-found message exactly when both are
    empty or the exit code is not zero.  A query that cannot be started,
    because no java is installed, is not reported at all: the probe raises
    the error of the toolkit with nothing but its heading logged, and in a
    run that reaches the extended section with a true flag the error marks
    the run as failed and the section ends after its opening lines. *)
Theorem absent_java_is_not_reported h s :
  (forall p,
     spawn h (calls s) java_call = Started p ->
     let r := result_of p in
     let reported := events_since s (snd (javaProbe h s)) in
     fst (javaProbe h s) = Ok tt
     /\ (exitCode r = 0 -> stdout r <> EmptyString \/ stderr r <> EmptyString ->
         exists text,
           (stderr r <> EmptyString -> text = stderr r)
           /\ (stderr r = EmptyString -> text = stdout r)
           /\ reported = [Log "  JAVA DETAILS:";
                          Log "    ▶ Version:";
                          Log (formatBlock text "      --> ");
                          Log ("    ▶ JAVA_HOME:    "
                                 ++ Js.env_or (JAVA_HOME (env h))
                                              "N/A (Not explicitly set or found)");
                          Log EmptyString])
     /\ (In (Log java_not_found) reported
         <-> (stdout r = EmptyString /\ stderr r = EmptyString) \/ exitCode r <> 0))
  /\ (forall e,
        spawn h (calls s) java_call = FailedToStart e ->
        fst (javaProbe h s) = Throw e
        /\ events_since s (snd (javaProbe h s)) = [Log java_heading]
        /\ ~ In (Log java_not_found) (events_since s (snd (javaProbe h s))))
  /\ (forall e,
        showExtendedInfo h = true -> reaches_extended h s ->
        spawn h (calls s) java_call = FailedToStart e ->
        failed (final h)
        = Some ("Action failed: " ++ message e ++ Js.chr Js.nl ++ stack e)
        /\ log (final h) = (log s ++ extended_opening)%list
        /\ calls (final h) = (calls s ++ [java_call])%list).
Proof.
  split; [|split].
  - intros p Hp. exact (javaProbe_prefers_stderr h s p Hp).
  - intros e He.
    assert (J : javaProbe h s
                = (Throw e, record_call java_call (emit [Log java_heading] s))).
    { unfold javaProbe. erewrite bind_ok by reflexivity.
      apply bind_throw. now apply getCommandOutput_not_started. }
    rewrite J. cbn [fst snd].
    assert (E : events_since s (record_call java_call (emit [Log java_heading] s))
                = [Log java_heading]) by (apply events_since_emit; reflexivity).
    rewrite E. split; [reflexivity|]. split; [reflexivity|].
    intros [H|[]]. discriminate H.
  - intros e Hflag (u2 & s2 & u3 & E2 & E3) He.
    pose proof (final_cases h) as F.
    rewrite E2, E3, (extendedInfo_without_java h s e Hflag He) in F.
    rewrite F. repeat split.
Qed.

Lemma absent_java_is_not_reported_witness :
  let h := Demo.host (Some "Linux") None "true" Demo.no_file (Demo.without "java" ["ok"] []) in
  let s := snd (gitRepositoryDetails h
                  (snd ((platformDetails h ;; console_log rule40 ;; endGroup)
                          (at_platform h)))) in
  (fst (javaProbe h s) = Throw (Demo.not_located "java")
   /\ events_since s (snd (javaProbe h s)) = [Log java_heading]
   /\ ~ In (Log java_not_found) (events_since s (snd (javaProbe h s))))
  /\ failed (final h)
     = Some ("Action failed: Unable to locate executable file: java"
               ++ Js.chr Js.nl ++ "Error: Unable to locate executable file")
  /\ log (final h) = (log s ++ extended_opening)%list
  /\ calls (final h) = (calls s ++ [java_call])%list.
Proof.
  intros h s.
  destruct (absent_java_is_not_reported h s) as (_ & Hprobe & Hrun).
  split.
  - exact (Hprobe (Demo.not_located "java") eq_refl).
  - apply (Hrun (Demo.not_located "java") eq_refl); [|reflexivity].
    exists tt, (snd ((platformDetails h ;; console_log rule40 ;; endGroup) (at_platform h))), tt.
    split; vm_compute; reflexivity.
Defined.

(** ** Sample evaluations *)

Example split_keeps_empty_parts :
  Js.split Js.nl ("ab" ++ Js.chr Js.nl ++ "c" ++ Js.chr Js.nl) = ["ab"; "c"; EmptyString].
Proof. reflexivity. Qed.

Example split_of_empty : Js.split Js.nl EmptyString = [EmptyString].
Proof. reflexivity. Qed.

Example trim_both_ends : Js.trim ("  a b " ++ Js.chr Js.nl) = "a b".
Proof. reflexivity. Qed.

(** The letter a with a grave accent ends with the byte 160 and is kept;
    a no-break space, an em space and a byte order mark are stripped. *)
Example trim_keeps_an_accented_letter :
  Js.trim ("voil" ++ Js.bytes [195; 160]%nat ++ Js.chr Js.nl) = "voil" ++ Js.bytes [195; 160]%nat.
Proof. reflexivity. Qed.

Example trim_strips_white_space_of_several_bytes :
  Js.trim (Js.bytes [239; 187; 191]%nat ++ Js.bytes [194; 160]%nat ++ "v1.2"
             ++ Js.bytes [226; 128; 131]%nat ++ Js.bytes [227; 128; 128]%nat)
  = "v1.2".
Proof. reflexivity. Qed.

Example padStart_short_and_long :
  Js.padStart 2 "0" "7" = "07" /\ Js.padStart 2 "0" "12" = "12" /\ Js.padStart 2 "0" "123" = "123".
Proof. repeat split. Qed.

Example padStart_repeats_the_pad : Js.padStart 6 "ab" "x" = "ababax".
Proof. reflexivity. Qed.

Example formatBlock_indents_each_line :
  formatBlock ("one" ++ Js.chr Js.nl ++ "two") "  > "
  = "  > one" ++ Js.chr Js.nl ++ "  > two".
Proof. reflexivity. Qed.

Example tags_are_joined_by_commas :
  Js.or (Js.drop_final ","%char
           (Js.replace_all Js.nl ","%char ("v1.0" ++ Js.chr Js.nl ++ "latest")))
        "N/A"
  = "v1.0,latest".
Proof. reflexivity. Qed.

Example shortSha_of_a_hash :
  shortSha "0123456789abcdef0123456789abcdef01234567" = "0123456" /\ shortSha "abc" = "abc".
Proof. split; reflexivity. Qed.

Example os_release_with_pretty_name :
  distroInfo_of Demo.test_os = Ok "Test OS 1.0".
Proof. reflexivity. Qed.

(** On a Windows runner where every command but the configuration exits
    with 1, the tree probe goes on to the Windows command. *)
Example windows_run_falls_back :
  calls (final (Demo.only_config_succeeds (Some "Windows")))
  = [("powershell", powershell_args);
     safe_directory_call "/home/runner/work/repo";
     ("git", author_args); ("git", commitDate_args); ("git", remoteUrl_args);
     ("git", tagsAtHead_args); ("git", commitMessage_args);
     java_call;
     tree_call (Demo.only_config_succeeds (Some "Windows"));
     winTree_call (Demo.only_config_succeeds (Some "Windows"))]
  /\ failed (final (Demo.only_config_succeeds (Some "Windows"))) = None.
Proof. vm_compute. split; reflexivity. Qed.

(** A Linux runner without the file whose [lsb_release] exits with 1. *)
Example failing_lsb_release_is_logged_as_NA :
  In (Log "  DISTRO INFO:    N/A")
     (log (final (Demo.host (Some "Linux") None "false" Demo.no_file
                    (Demo.exits 1 [] ["error"])))).
Proof. vm_compute. repeat (first [left; reflexivity | right]). Qed.

(** * Further properties of the code *)

(** ** Trimming *)

(** X1.  Whatever result the helper returns, each of its two texts is what
    the stream carried with white space, and nothing else, taken from its
    two ends; it neither begins nor ends with a white-space character, of
    one byte or of several; it is left as it is by a second trim; and it is
    empty exactly when the stream carried white space only: a command that
    prints blank lines counts as one that printed nothing. *)
Theorem getCommandOutput_texts_are_trimmed h command args s r s' :
  getCommandOutput h command args s = (Ok r, s') ->
  exists p,
    spawn h (calls s) (command, args) = Started p
    /\ padded (stdout r) (all_data (out_chunks p))
    /\ padded (stderr r) (all_data (err_chunks p))
    /\ ~ begins_with_space (stdout r) /\ ~ ends_with_space (stdout r)
    /\ ~ begins_with_space (stderr r) /\ ~ ends_with_space (stderr r)
    /\ (stdout r = EmptyString <-> white (all_data (out_chunks p)))
    /\ (stderr r = EmptyString <-> white (all_data (err_chunks p)))
    /\ Js.trim (stdout r) = stdout r /\ Js.trim (stderr r) = stderr r.
Proof.
  intros H.
  destruct (spawn h (calls s) (command, args)) as [p|e] eqn:Hp.
  - rewrite (getCommandOutput_started _ _ _ _ _ Hp) in H.
    injection H as <- _. exists p. unfold result_of. cbn [stdout stderr].
    destruct (trim_splits (all_data (out_chunks p))) as (Po & Bo & Eo).
    destruct (trim_splits (all_data (err_chunks p))) as (Pe & Be & Ee).
    repeat split; auto using trim_trim; apply trim_empty; assumption.
  - rewrite (getCommandOutput_not_started _ _ _ _ _ Hp) in H. discriminate H.
Qed.

Lemma getCommandOutput_texts_are_trimmed_witness :
  let accented := "voil" ++ Js.bytes [195; 160]%nat in
  let h := Demo.host (Some "Linux") None "false" Demo.no_file
             (Demo.exits 0
                [Js.bytes [239; 187; 191]%nat ++ accented ++ Js.bytes [226; 128; 131]%nat; Js.chr Js.nl]
                [Js.bytes [194; 160]%nat; Js.chr Js.nl]) in
  exists p,
    spawn h [] ("git", ["log"]) = Started p
    /\ padded accented (all_data (out_chunks p))
    /\ padded EmptyString (all_data (err_chunks p))
    /\ ~ begins_with_space accented /\ ~ ends_with_space accented
    /\ ~ begins_with_space EmptyString /\ ~ ends_with_space EmptyString
    /\ (accented = EmptyString <-> white (all_data (out_chunks p)))
    /\ (EmptyString = EmptyString <-> white (all_data (err_chunks p)))
    /\ Js.trim accented = accented /\ Js.trim EmptyString = EmptyString.
Proof.
  intros accented h.
  exact (getCommandOutput_texts_are_trimmed h "git" ["log"] initial
           {| stdout := accented; stderr := EmptyString; exitCode := 0 |}
           (record_call ("git", ["log"]) initial) eq_refl).
Defined.

(** ** Lines *)

Lemma join_split sep s : Js.join (Js.chr sep) (Js.split sep s) = s.
Proof.
  unfold Js.join. induction s as [|c s IH]; [reflexivity|]. cbn [Js.split].
  destruct (split_nonempty sep s) as (x & xs & E). rewrite E in IH |- *.
  destruct (Ascii.eqb_spec c sep) as [->|Hne].
  - change (String.concat (Js.chr sep) (EmptyString :: x :: xs))
      with (String sep (String.concat (Js.chr sep) (x :: xs))).
    now rewrite IH.
  - assert (H : String.concat (Js.chr sep) (String c x :: xs)
                = String c (String.concat (Js.chr sep) (x :: xs)))
      by (destruct xs; reflexivity).
    now rewrite H, IH.
Qed.

Lemma split_app_sep sep a b :
  Js.split sep (a ++ String sep b) = (Js.split sep a ++ Js.split sep b)%list.
Proof.
  induction a as [|c a IH]; simpl.
  - now rewrite Ascii.eqb_refl.
  - destruct (Ascii.eqb c sep); rewrite IH; [reflexivity|].
    destruct (split_nonempty sep a) as (x & xs & ->). reflexivity.
Qed.

Lemma split_join sep x xs :
  Js.split sep (Js.join (Js.chr sep) (x :: xs)) = flat_map (Js.split sep) (x :: xs).
Proof.
  unfold Js.join. revert x. induction xs as [|y ys IH]; intros x.
  - simpl. now rewrite app_nil_r.
  - change (String.concat (Js.chr sep) (x :: y :: ys))
      with (x ++ String sep (String.concat (Js.chr sep) (y :: ys))).
    rewrite split_app_sep, IH. reflexivity.
Qed.

Lemma split_parts sep s : Forall (fun part => has_char sep part = false) (Js.split sep s).
Proof.
  induction s as [|c s IH]; simpl.
  - repeat constructor.
  - destruct (Ascii.eqb c sep) eqn:E.
    + constructor; [reflexivity | exact IH].
    + destruct (Js.split sep s) as [|x xs]; [repeat constructor; simpl; now rewrite E|].
      inversion IH as [|? ? Hx Hxs]; subst. constructor; [|exact Hxs].
      simpl. now rewrite E, Hx.
Qed.

Lemma formatBlock_lines text indent :
  Js.split Js.nl (formatBlock text indent)
  = flat_map (fun line => Js.split Js.nl (indent ++ line)) (Js.split Js.nl text).
Proof.
  unfold formatBlock.
  destruct (split_nonempty Js.nl text) as (x & xs & ->).
  change (map (fun line => indent ++ line) (x :: xs))
    with ((indent ++ x) :: map (fun line => indent ++ line) xs).
  rewrite split_join. now rewrite <- map_cons, flat_map_concat_map, map_map,
                        <- flat_map_concat_map.
Qed.

(** X2.  The block that [formatBlock] builds has one line for each line of
    the text, in order, each with the indent before it, when the indent is on
    one line; and with an empty indent the block is the text. *)
Theorem formatBlock_indents_line_by_line text indent :
  has_char Js.nl indent = false ->
  Js.split Js.nl (formatBlock text indent)
  = map (fun line => indent ++ line) (Js.split Js.nl text)
  /\ length (Js.split Js.nl (formatBlock text indent)) = length (Js.split Js.nl text)
  /\ formatBlock text EmptyString = text.
Proof.
  intros Hi.
  assert (E : Js.split Js.nl (formatBlock text indent)
              = map (fun line => indent ++ line) (Js.split Js.nl text)).
  { rewrite formatBlock_lines.
    pose proof (split_parts Js.nl text) as P.
    induction P as [|line rest Hl _ IH]; [reflexivity|]. simpl.
    rewrite IH, split_without_sep; [reflexivity|].
    now rewrite has_char_app, Hi, Hl. }
  split; [exact E|]. split.
  - now rewrite E, length_map.
  - unfold formatBlock.
    replace (map (fun line => EmptyString ++ line) (Js.split Js.nl text))
      with (Js.split Js.nl text) by (now rewrite map_id).
    apply join_split.
Qed.

Lemma formatBlock_indents_line_by_line_witness :
  Js.split Js.nl (formatBlock ("On branch main" ++ Js.chr Js.nl ++ "nothing to commit") "    ")
  = ["    On branch main"; "    nothing to commit"].
Proof.
  exact (proj1 (formatBlock_indents_line_by_line
                  ("On branch main" ++ Js.chr Js.nl ++ "nothing to commit") "    " eq_refl)).
Defined.

(** ** Blocks under a heading *)

Lemma formatBlock_under_heading text heading mark :
  has_char Js.nl heading = false -> has_char Js.nl mark = false ->
  Js.split Js.nl (formatBlock text (heading ++ Js.chr Js.nl ++ mark))
  = flat_map (fun line => [heading; mark ++ line]) (Js.split Js.nl text).
Proof.
  intros Hh Hm. rewrite formatBlock_lines.
  pose proof (split_parts Js.nl text) as P.
  induction P as [|line rest Hl _ IH]; [reflexivity|]. cbn [flat_map].
  rewrite IH, append_assoc.
  change ((Js.chr Js.nl ++ mark) ++ line) with (String Js.nl (mark ++ line)).
  rewrite split_app_sep, (split_without_sep _ _ Hh), split_without_sep; [reflexivity|].
  now rewrite has_char_app, Hm, Hl.
Qed.

Lemma platformDetails_macos h s p :
  RUNNER_OS (env h) = Some "macOS" ->
  spawn h (calls s) sw_vers_call = Started p ->
  platformDetails h s
  = (Ok tt,
     if (exitCode (result_of p) =? 0) && Js.truthy (stdout (result_of p))
     then emit [Log (formatBlock (stdout (result_of p))
                       (macos_heading ++ Js.chr Js.nl ++ bullet))]
               (record_call sw_vers_call s)
     else record_call sw_vers_call s).
Proof.
  intros Hos Hp. unfold platformDetails, env_is. rewrite Hos.
  cbn [String.eqb Ascii.eqb Bool.eqb]. cbv iota.
  rewrite (bind_ok _ _ _ _ _ (getCommandOutput_started h _ _ s p Hp)).
  destruct ((exitCode (result_of p) =? 0) && Js.truthy (stdout (result_of p))); reflexivity.
Qed.

Lemma platformDetails_windows h s p :
  RUNNER_OS (env h) = Some "Windows" ->
  spawn h (calls s) powershell_call = Started p ->
  platformDetails h s
  = (Ok tt,
     if (exitCode (result_of p) =? 0) && Js.truthy (stdout (result_of p))
     then emit [Log (formatBlock (stdout (result_of p))
                       (windows_heading ++ Js.chr Js.nl ++ bullet))]
               (record_call powershell_call s)
     else record_call powershell_call s).
Proof.
  intros Hos Hp. unfold platformDetails, env_is. rewrite Hos.
  cbn [String.eqb Ascii.eqb Bool.eqb]. cbv iota.
  rewrite (bind_ok _ _ _ _ _ (getCommandOutput_started h _ _ s p Hp)).
  destruct ((exitCode (result_of p) =? 0) && Js.truthy (stdout (result_of p))); reflexivity.
Qed.

(** X3.  On a macOS runner whose version query exits with zero and prints
    something, one event is logged, and its text has two lines for each line
    of the output: the heading, then the line behind the mark; so the heading
    is repeated before every line.  When the query exits with a non-zero code
    or prints nothing, nothing is logged.  The same holds on a Windows runner
    for its query and its heading. *)
Theorem platform_heading_is_repeated h s p :
  let r := result_of p in
  (RUNNER_OS (env h) = Some "macOS" -> spawn h (calls s) sw_vers_call = Started p ->
   fst (platformDetails h s) = Ok tt
   /\ (no_output r -> events_since s (snd (platformDetails h s)) = [])
   /\ (~ no_output r ->
       exists block,
         events_since s (snd (platformDetails h s)) = [Log block]
         /\ Js.split Js.nl block
            = flat_map (fun line => [macos_heading; bullet ++ line])
                       (Js.split Js.nl (stdout r))))
  /\ (RUNNER_OS (env h) = Some "Windows" -> spawn h (calls s) powershell_call = Started p ->
      fst (platformDetails h s) = Ok tt
      /\ (no_output r -> events_since s (snd (platformDetails h s)) = [])
      /\ (~ no_output r ->
          exists block,
            events_since s (snd (platformDetails h s)) = [Log block]
            /\ Js.split Js.nl block
               = flat_map (fun line => [windows_heading; bullet ++ line])
                          (Js.split Js.nl (stdout r)))).
Proof.
  intros r. subst r. split; intros Hos Hp.
  - rewrite (platformDetails_macos h s p Hos Hp). cbn [fst snd].
    destruct ((exitCode (result_of p) =? 0) && Js.truthy (stdout (result_of p))) eqn:T.
    + apply not_false_iff_true in T. rewrite probe_test_false in T.
      split; [reflexivity|]. split; [intros H; contradiction|]. intros _.
      eexists. split.
      * apply events_since_emit. reflexivity.
      * now apply formatBlock_under_heading.
    + apply probe_test_false in T.
      split; [reflexivity|]. split; [|intros H; contradiction]. intros _.
      apply events_since_emit. cbn [log record_call]. now rewrite app_nil_r.
  - rewrite (platformDetails_windows h s p Hos Hp). cbn [fst snd].
    destruct ((exitCode (result_of p) =? 0) && Js.truthy (stdout (result_of p))) eqn:T.
    + apply not_false_iff_true in T. rewrite probe_test_false in T.
      split; [reflexivity|]. split; [intros H; contradiction|]. intros _.
      eexists. split.
      * apply events_since_emit. reflexivity.
      * now apply formatBlock_under_heading.
    + apply probe_test_false in T.
      split; [reflexivity|]. split; [|intros H; contradiction]. intros _.
      apply events_since_emit. cbn [log record_call]. now rewrite app_nil_r.
Qed.

(** ** Tags *)

Lemma replace_all_app c d a b :
  Js.replace_all c d (a ++ b) = Js.replace_all c d a ++ Js.replace_all c d b.
Proof. induction a as [|x a IH]; simpl; [reflexivity | now rewrite IH]. Qed.

Lemma replace_all_absent c d s : has_char c s = false -> Js.replace_all c d s = s.
Proof.
  induction s as [|a s IH]; simpl; [reflexivity|].
  intros H. apply orb_false_iff in H. destruct H as [Ha Hs].
  now rewrite Ha, (IH Hs).
Qed.

Lemma has_char_replace_all c d s : c <> d -> has_char c (Js.replace_all c d s) = false.
Proof.
  intros Hne. induction s as [|a s IH]; simpl; [reflexivity|].
  rewrite IH, orb_false_r.
  destruct (Ascii.eqb_spec a c) as [->|Ha].
  - apply Ascii.eqb_neq. congruence.
  - now apply Ascii.eqb_neq.
Qed.

Lemma has_char_cons c a s : has_char c (String a s) = Ascii.eqb a c || has_char c s.
Proof. reflexivity. Qed.

Lemma has_char_drop_final c d s : has_char c s = false -> has_char c (Js.drop_final d s) = false.
Proof.
  induction s as [|a s IH]; [reflexivity|]. intros H.
  simpl in H. apply orb_false_iff in H. destruct H as [Ha Hs].
  destruct s as [|b r].
  - simpl. destruct (Ascii.eqb a d); simpl; [reflexivity | now rewrite Ha].
  - change (Js.drop_final d (String a (String b r)))
      with (String a (Js.drop_final d (String b r))).
    now rewrite has_char_cons, Ha, (IH Hs).
Qed.

Lemma drop_final_fixed c s : last_char s <> Some c -> Js.drop_final c s = s.
Proof.
  induction s as [|a s IH]; [reflexivity|]. destruct s as [|b r].
  - simpl. intros H. destruct (Ascii.eqb_spec a c) as [->|]; congruence.
  - intros H. change (Js.drop_final c (String a (String b r)))
      with (String a (Js.drop_final c (String b r))).
    now rewrite (IH H).
Qed.

Lemma last_char_app a b : b <> EmptyString -> last_char (a ++ b) = last_char b.
Proof.
  intros Hb. induction a as [|x a IH]; [reflexivity|].
  simpl. destruct (a ++ b) eqn:E; [|exact IH].
  destruct a; simpl in E; [congruence | discriminate].
Qed.

Lemma last_char_has c s : last_char s = Some c -> has_char c s = true.
Proof.
  induction s as [|a s IH]; [discriminate|]. destruct s as [|b r].
  - simpl. intros [= ->]. now rewrite Ascii.eqb_refl.
  - intros H. change (last_char (String a (String b r))) with (last_char (String b r)) in H.
    rewrite has_char_cons, (IH H). apply orb_true_r.
Qed.

Lemma join_tags_replaced tags :
  Forall tag_name tags ->
  Js.replace_all Js.nl ","%char (Js.join (Js.chr Js.nl) tags) = Js.join "," tags.
Proof.
  unfold Js.join. induction 1 as [|t ts (_ & Hnl & _) _ IH]; [reflexivity|].
  destruct ts as [|u us].
  - simpl. now apply replace_all_absent.
  - change (String.concat (Js.chr Js.nl) (t :: u :: us))
      with (t ++ String Js.nl (String.concat (Js.chr Js.nl) (u :: us))).
    change (String.concat "," (t :: u :: us))
      with (t ++ String ","%char (String.concat "," (u :: us))).
    rewrite replace_all_app, (replace_all_absent _ _ _ Hnl).
    cbn [Js.replace_all]. rewrite IH. reflexivity.
Qed.

Lemma join_tags_last tags :
  tags <> [] -> Forall tag_name tags ->
  Js.join "," tags <> EmptyString /\ last_char (Js.join "," tags) <> Some ","%char.
Proof.
  unfold Js.join. intros Hne F. induction F as [|t ts (Ht & _ & Hc) F IH]; [congruence|].
  destruct ts as [|u us].
  - simpl. split; [exact Ht|]. intros H. apply last_char_has in H. congruence.
  - change (String.concat "," (t :: u :: us))
      with (t ++ String ","%char (String.concat "," (u :: us))).
    destruct IH as [IH1 IH2]; [discriminate|]. split.
    + destruct t; [congruence | discriminate].
    + rewrite last_char_app by discriminate.
      change (last_char (String ","%char (String.concat "," (u :: us))))
        with (match String.concat "," (u :: us) with
              | EmptyString => Some ","%char
              | _ => last_char (String.concat "," (u :: us))
              end).
      destruct (String.concat "," (u :: us)); [congruence | exact IH2].
Qed.

(** X4.  In a run that reaches the tag query, on a runner where every
    command starts, the line logged for the tags holds the trimmed output of
    the query with each line break turned into a comma, on one line: when the
    query prints one tag name per line, the names joined by commas, in the
    order printed; when it prints nothing, or white space only, N/A. *)
Theorem tags_are_comma_joined h pt :
  every_command_starts h -> file_is_readable h -> safe_directory_succeeds h ->
  spawn h (platform_calls h ++ safe_directory_calls h ++ rev_parse_calls h
             ++ [("git", author_args); ("git", commitDate_args); ("git", remoteUrl_args)])
        tags_query = Started pt ->
  In (Log ("  TAGS AT HEAD:     " ++ tagsAtHead_of (Js.trim (all_data (out_chunks pt)))))
     (log (final h))
  /\ (forall tags, tags <> [] -> Forall tag_name tags ->
        Js.trim (all_data (out_chunks pt)) = Js.join (Js.chr Js.nl) tags ->
        In (Log ("  TAGS AT HEAD:     " ++ Js.join "," tags)) (log (final h)))
  /\ (white (all_data (out_chunks pt)) ->
      In (Log "  TAGS AT HEAD:     N/A") (log (final h)))
  /\ (forall out, has_char Js.nl (tagsAtHead_of out) = false)
  /\ (forall tags, tags <> [] -> Forall tag_name tags ->
        tagsAtHead_of (Js.join (Js.chr Js.nl) tags) = Js.join "," tags)
  /\ tagsAtHead_of EmptyString = "N/A".
Proof.
  intros starts Hread Hzero Ht.
  assert (J : forall tags, tags <> [] -> Forall tag_name tags ->
                tagsAtHead_of (Js.join (Js.chr Js.nl) tags) = Js.join "," tags).
  { intros tags Hne F. unfold tagsAtHead_of.
    rewrite (join_tags_replaced tags F).
    destruct (join_tags_last tags Hne F) as [Hn Hl].
    rewrite (drop_final_fixed _ _ Hl). unfold Js.or.
    destruct (Js.join "," tags); [congruence | reflexivity]. }
  assert (L : In (Log ("  TAGS AT HEAD:     "
                         ++ tagsAtHead_of (Js.trim (all_data (out_chunks pt)))))
                 (log (final h))).
  { destruct (starts (platform_calls h ++ safe_directory_calls h)%list branch_query)
      as (p1 & H1).
    destruct (starts (platform_calls h ++ safe_directory_calls h
                        ++ (if Js.env_truthy (GITHUB_REF_NAME (env h)) then []
                            else [branch_query]))%list sha_query) as (p2 & H2).
    exact (proj2 (proj2 (proj2 (run_logs_git h p1 p2 pt starts Hread Hzero H1 H2 Ht)))). }
  split; [exact L|]. split; [|split; [|split; [|split; [exact J | reflexivity]]]].
  - intros tags Hne F E. rewrite E, (J tags Hne F) in L. exact L.
  - intros W. apply trim_empty in W. rewrite W in L. exact L.
  - intros out. unfold tagsAtHead_of, Js.or.
    destruct (Js.truthy _); [|reflexivity].
    apply has_char_drop_final, has_char_replace_all. discriminate.
Qed.

Lemma tags_are_comma_joined_witness :
  In (Log "  TAGS AT HEAD:     v1.2.0,latest") (log (final Demo.detached)).
Proof.
  assert (starts : every_command_starts Demo.detached)
    by (intros hist c; eexists; reflexivity).
  assert (Hread : file_is_readable Demo.detached) by (intros H; discriminate H).
  assert (Hzero : safe_directory_succeeds Demo.detached)
    by (intros hist workspace p H; injection H as <-; reflexivity).
  apply (proj1 (proj2 (tags_are_comma_joined Demo.detached
                         {| out_chunks := Demo.git_answer tags_query; err_chunks := [];
                            code := 0 |}
                         starts Hread Hzero eq_refl)) ["v1.2.0"; "latest"]).
  - discriminate.
  - repeat constructor; discriminate.
  - reflexivity.
Defined.

(** ** The commands a run starts *)

Lemma prefix_of_refl {A} (l : list A) : prefix_of l l.
Proof. exists []. now rewrite app_nil_r. Qed.

Lemma prefix_of_nil {A} (l : list A) : prefix_of [] l.
Proof. exists l. reflexivity. Qed.

Lemma prefix_of_app {A} (a pre l : list A) :
  prefix_of pre l -> prefix_of (a ++ pre) (a ++ l).
Proof. intros (rest & ->). exists rest. now rewrite app_assoc. Qed.

Lemma prefix_of_longer {A} (pre l more : list A) :
  prefix_of pre l -> prefix_of pre (l ++ more).
Proof. intros (rest & ->). exists (rest ++ more)%list. now rewrite app_assoc. Qed.

Lemma prefix_of_In {A} (pre l : list A) x : prefix_of pre l -> In x pre -> In x l.
Proof. intros (rest & ->) H. apply in_or_app. now left. Qed.

Lemma distinct_NoDup l : distinct l = true -> NoDup l.
Proof.
  induction l as [|a l IH]; simpl; [constructor|].
  intros H. apply andb_true_iff in H. destruct H as [Ha Hl].
  constructor; [|now apply IH].
  intros Hin. apply negb_true_iff in Ha.
  assert (E : existsb (String.eqb a) l = true)
    by (apply existsb_exists; exists a; split; [exact Hin | apply String.eqb_refl]).
  congruence.
Qed.

Lemma exactly_within {A} (m : M A) cs : starts_exactly m cs -> starts_within m cs.
Proof.
  intros H s. destruct (H s) as (pre & Hc & Hp). exists pre. split; [exact Hc|].
  destruct (fst (m s)); [subst; apply prefix_of_refl | exact Hp].
Qed.

Lemma exactly_eq {A} (m : M A) cs cs' :
  starts_exactly m cs' -> cs = cs' -> starts_exactly m cs.
Proof. intros H ->. exact H. Qed.

Lemma exactly_silent {A} (m : M A) :
  (forall s, calls (snd (m s)) = calls s) -> starts_exactly m [].
Proof.
  intros H s. exists []. rewrite H, app_nil_r. split; [reflexivity|].
  destruct (fst (m s)); [reflexivity | apply prefix_of_nil].
Qed.

Lemma exactly_ret {A} (a : A) : starts_exactly (ret a) [].
Proof. now apply exactly_silent. Qed.

Lemma exactly_lift {A} (r : Res A) : starts_exactly (lift r) [].
Proof. now apply exactly_silent. Qed.

Lemma exactly_console_log line : starts_exactly (console_log line) [].
Proof. now apply exactly_silent. Qed.

Lemma exactly_startGroup name : starts_exactly (startGroup name) [].
Proof. now apply exactly_silent. Qed.

Lemma exactly_endGroup : starts_exactly endGroup [].
Proof. now apply exactly_silent. Qed.

Lemma exactly_warning msg : starts_exactly (warning msg) [].
Proof. now apply exactly_silent. Qed.

Lemma exactly_setOutput name value : starts_exactly (setOutput name value) [].
Proof. now apply exactly_silent. Qed.

Lemma exactly_bind {A B} (m : M A) (f : A -> M B) c1 c2 :
  starts_exactly m c1 -> (forall a, starts_exactly (f a) c2) ->
  starts_exactly (bind m f) (c1 ++ c2).
Proof.
  intros Hm Hf s. unfold bind.
  destruct (Hm s) as (pre1 & C1 & P1).
  destruct (m s) as [[a|e] s1]; cbn [fst snd] in *.
  - subst pre1. destruct (Hf a s1) as (pre2 & C2 & P2).
    exists (c1 ++ pre2)%list. rewrite C2, C1, app_assoc. split; [reflexivity|].
    destruct (fst (f a s1)); [now subst | now apply prefix_of_app].
  - exists pre1. split; [exact C1 | now apply prefix_of_longer].
Qed.

Lemma within_bind {A B} (m : M A) (f : A -> M B) c1 l :
  starts_exactly m c1 -> (forall a, starts_within (f a) l) ->
  starts_within (bind m f) (c1 ++ l).
Proof.
  intros Hm Hf s. unfold bind.
  destruct (Hm s) as (pre1 & C1 & P1).
  destruct (m s) as [[a|e] s1]; cbn [fst snd] in *.
  - subst pre1. destruct (Hf a s1) as (pre2 & C2 & P2).
    exists (c1 ++ pre2)%list. rewrite C2, C1, app_assoc. split; [reflexivity|].
    now apply prefix_of_app.
  - exists pre1. split; [exact C1 | now apply prefix_of_longer].
Qed.

Lemma within_then_silent {A B} (m : M A) (f : A -> M B) l :
  starts_within m l -> (forall a, starts_exactly (f a) []) ->
  starts_within (bind m f) l.
Proof.
  intros Hm Hf s. unfold bind.
  destruct (Hm s) as (pre1 & C1 & P1).
  destruct (m s) as [[a|e] s1]; cbn [fst snd] in *.
  - destruct (Hf a s1) as (pre2 & C2 & P2).
    assert (pre2 = []) as ->.
    { destruct (fst (f a s1)); [exact P2|].
      destruct P2 as (rest & E). symmetry in E. now apply app_eq_nil in E. }
    exists pre1. rewrite C2, app_nil_r. auto.
  - exists pre1. auto.
Qed.

Lemma exactly_getCommandOutput h command args :
  starts_exactly (getCommandOutput h command args) [(command, args)].
Proof.
  intros s. exists [(command, args)].
  destruct (spawn h (calls s) (command, args)) as [p|e] eqn:Hp.
  - rewrite (getCommandOutput_started _ _ _ _ _ Hp). split; reflexivity.
  - rewrite (getCommandOutput_not_started _ _ _ _ _ Hp).
    split; [reflexivity | apply prefix_of_refl].
Qed.

Lemma exactly_exec_default h command args :
  starts_exactly (exec_exec h command args default_options tt) [(command, args)].
Proof.
  intros s. exists [(command, args)]. unfold exec_exec.
  cbn [silent ignoreReturnCode default_options].
  destruct (spawn h (calls s) (command, args)) as [p|e];
    [destruct ((code p =? 0) || false)|];
    (split; [reflexivity | try reflexivity; apply prefix_of_refl]).
Qed.

Ltac exactly_step :=
  lazymatch goal with
  | |- starts_exactly (bind _ _) _ => eapply exactly_bind; [ | intro ]
  | |- starts_exactly (ret _) _ => apply exactly_ret
  | |- starts_exactly (lift _) _ => apply exactly_lift
  | |- starts_exactly (console_log _) _ => apply exactly_console_log
  | |- starts_exactly (startGroup _) _ => apply exactly_startGroup
  | |- starts_exactly endGroup _ => apply exactly_endGroup
  | |- starts_exactly (warning _) _ => apply exactly_warning
  | |- starts_exactly (setOutput _ _) _ => apply exactly_setOutput
  | |- starts_exactly (getCommandOutput _ _ _) _ => apply exactly_getCommandOutput
  | |- starts_exactly (exec_exec _ _ _ default_options _) _ => apply exactly_exec_default
  | |- starts_exactly (if ?b then _ else _) _ => destruct b
  end.

Ltac exactly := eapply exactly_eq; [repeat exactly_step | reflexivity].

Lemma generateTimestamp_starts_nothing h : starts_exactly (generateTimestamp h) [].
Proof. unfold generateTimestamp. exactly. Qed.

Lemma operatingSystemDetails_starts h ts :
  starts_exactly (operatingSystemDetails h ts) (platform_calls h).
Proof.
  unfold operatingSystemDetails, platformDetails, distroInfo, platform_calls.
  destruct (env_is (RUNNER_OS (env h)) "Linux").
  - destruct (existsSync (etc_os_release h)); exactly.
  - destruct (env_is (RUNNER_OS (env h)) "macOS"); [exactly|].
    destruct (env_is (RUNNER_OS (env h)) "Windows"); exactly.
Qed.

Lemma gitRepositoryDetails_starts h :
  starts_exactly (gitRepositoryDetails h)
                 (safe_directory_calls h ++ rev_parse_calls h ++ git_log_calls).
Proof.
  unfold gitRepositoryDetails, configureSafeDirectory, branchName, commitSha, env_or_git,
    safe_directory_calls, rev_parse_calls.
  destruct (GITHUB_WORKSPACE (env h)) as [[|c r]|];
    destruct (GITHUB_REF_NAME (env h)) as [[|c1 r1]|];
    destruct (GITHUB_SHA (env h)) as [[|c2 r2]|]; exactly.
Qed.

Lemma javaProbe_starts h : starts_exactly (javaProbe h) [java_call].
Proof. unfold javaProbe. exactly. Qed.

Lemma treeProbe_starts h : starts_within (treeProbe h) [tree_call h; winTree_call h].
Proof.
  intros s. pose proof (treeProbe_cases h s) as T. cbv zeta in T.
  destruct (spawn h (calls s) (tree_call h)) as [p|e].
  - destruct ((exitCode (result_of p) =? 0) && Js.truthy (stdout (result_of p))).
    + rewrite T. exists [tree_call h]. split; [reflexivity|]. now exists [winTree_call h].
    + destruct (env_is (RUNNER_OS (env h)) "Windows").
      * exists [tree_call h; winTree_call h]. split; [|apply prefix_of_refl].
        destruct (spawn h (calls s ++ [tree_call h]) (winTree_call h)) as [q|e];
          [destruct ((exitCode (result_of q) =? 0) && Js.truthy (stdout (result_of q)))|];
          rewrite T; cbn [snd calls emit record_call]; now rewrite <- app_assoc.
      * rewrite T. exists [tree_call h]. split; [reflexivity|]. now exists [winTree_call h].
  - rewrite T. exists [tree_call h]. split; [reflexivity|]. now exists [winTree_call h].
Qed.

Lemma extendedInfo_starts h :
  starts_within (extendedInfo h)
    (if showExtendedInfo h then [java_call; tree_call h; winTree_call h] else []).
Proof.
  unfold extendedInfo. destruct (showExtendedInfo h).
  - change [java_call; tree_call h; winTree_call h]
      with (([] : list Call) ++ [] ++ [java_call] ++ [tree_call h; winTree_call h])%list.
    apply within_bind; [apply exactly_startGroup | intros _].
    apply within_bind; [apply exactly_console_log | intros _].
    apply within_bind; [apply javaProbe_starts | intros _].
    apply within_then_silent; [apply treeProbe_starts | intros _].
    apply (exactly_bind _ _ [] []); [apply exactly_console_log | intros _].
    apply exactly_endGroup.
  - apply exactly_within, exactly_ret.
Qed.

Lemma run_starts h : prefix_of (calls (final h)) (possible h).
Proof.
  assert (W : starts_within
                (timestamp <- generateTimestamp h ;;
                 operatingSystemDetails h timestamp ;;
                 gitRepositoryDetails h ;;
                 extendedInfo h)
                ([] ++ platform_calls h
                    ++ (safe_directory_calls h ++ rev_parse_calls h ++ git_log_calls)
                    ++ (if showExtendedInfo h
                        then [java_call; tree_call h; winTree_call h] else []))%list).
  { apply within_bind; [apply generateTimestamp_starts_nothing | intros ts].
    apply within_bind; [apply operatingSystemDetails_starts | intros _].
    apply within_bind; [apply gitRepositoryDetails_starts | intros _].
    apply extendedInfo_starts. }
  rewrite app_nil_l, <- !app_assoc in W. fold (possible h) in W.
  destruct (W initial) as (pre & C & P).
  unfold final, run, try_catch.
  destruct ((timestamp <- generateTimestamp h ;;
             operatingSystemDetails h timestamp ;;
             gitRepositoryDetails h ;; extendedInfo h) initial) as [[u|e] s'];
    cbn [snd setFailed calls] in *; rewrite C; exact P.
Qed.

Lemma env_is_true v name : env_is v name = true <-> v = Some name.
Proof.
  unfold env_is. destruct v as [o|]; [|split; discriminate].
  rewrite String.eqb_eq. split; congruence.
Qed.

Lemma possible_distinct h :
  NoDup (possible h) /\ (length (possible h) <= 12)%nat.
Proof.
  assert (K : distinct (map call_key (possible h)) = true
              /\ (length (possible h) <=? 12)%nat = true).
  { unfold possible, platform_calls, safe_directory_calls, rev_parse_calls.
    destruct (env_is (RUNNER_OS (env h)) "Linux");
      destruct (existsSync (etc_os_release h));
      destruct (env_is (RUNNER_OS (env h)) "macOS");
      destruct (env_is (RUNNER_OS (env h)) "Windows");
      destruct (GITHUB_WORKSPACE (env h)) as [[|c r]|];
      destruct (Js.env_truthy (GITHUB_REF_NAME (env h)));
      destruct (Js.env_truthy (GITHUB_SHA (env h)));
      destruct (showExtendedInfo h); split; reflexivity. }
  destruct K as [D L]. split.
  - apply (NoDup_map_inv call_key), distinct_NoDup, D.
  - now apply Nat.leb_le.
Qed.

(** X5.  On every runner, whatever the commands do, the commands a run
    starts are the first ones, some or all, of one fixed sequence: the
    platform query, the safe.directory configuration, the two rev-parse
    queries, the five git queries and, with a true flag, java, tree and the
    Windows tree command, each present as the environment decides.  So no
    command is started twice and a run starts at most twelve commands. *)
Theorem run_starts_each_command_once h :
  prefix_of (calls (final h)) (possible h)
  /\ NoDup (calls (final h))
  /\ (length (calls (final h)) <= 12)%nat.
Proof.
  pose proof (run_starts h) as P. destruct (possible_distinct h) as [D L].
  split; [exact P|]. destruct P as (rest & E). rewrite E in D, L. split.
  - now apply NoDup_app_remove_r in D.
  - rewrite length_app in L. lia.
Qed.

Lemma platform_calls_inv h c :
  In c (platform_calls h) ->
  (c = lsb_call /\ RUNNER_OS (env h) = Some "Linux" /\ existsSync (etc_os_release h) = false)
  \/ (c = sw_vers_call /\ RUNNER_OS (env h) = Some "macOS")
  \/ (c = powershell_call /\ RUNNER_OS (env h) = Some "Windows").
Proof.
  unfold platform_calls.
  destruct (env_is (RUNNER_OS (env h)) "Linux") eqn:L.
  - apply env_is_true in L.
    destruct (existsSync (etc_os_release h)); [intros [] | intros [<-|[]]; auto].
  - destruct (env_is (RUNNER_OS (env h)) "macOS") eqn:Mc.
    + apply env_is_true in Mc. intros [<-|[]]. auto.
    + destruct (env_is (RUNNER_OS (env h)) "Windows") eqn:W; [|intros []].
      apply env_is_true in W. intros [<-|[]]. auto.
Qed.

Lemma safe_directory_calls_inv h c :
  In c (safe_directory_calls h) ->
  exists workspace,
    c = safe_directory_call workspace
    /\ GITHUB_WORKSPACE (env h) = Some workspace /\ workspace <> EmptyString.
Proof.
  unfold safe_directory_calls.
  destruct (GITHUB_WORKSPACE (env h)) as [[|a r]|]; [intros [] | | intros []].
  intros [<-|[]]. exists (String a r). repeat split. discriminate.
Qed.

Lemma rev_parse_calls_inv h c :
  In c (rev_parse_calls h) ->
  (c = ("git", ["rev-parse"; "--abbrev-ref"; "HEAD"])
   /\ Js.env_truthy (GITHUB_REF_NAME (env h)) = false)
  \/ (c = ("git", ["rev-parse"; "HEAD"])
      /\ Js.env_truthy (GITHUB_SHA (env h)) = false).
Proof.
  unfold rev_parse_calls. rewrite in_app_iff.
  destruct (Js.env_truthy (GITHUB_REF_NAME (env h)));
    destruct (Js.env_truthy (GITHUB_SHA (env h))); cbn [In]; intuition auto.
Qed.

Lemma possible_inv h c :
  In c (possible h) ->
  In c (platform_calls h) \/ In c (safe_directory_calls h) \/ In c (rev_parse_calls h)
  \/ In c git_log_calls
  \/ (showExtendedInfo h = true /\ In c [java_call; tree_call h; winTree_call h]).
Proof.
  unfold possible. rewrite !in_app_iff.
  destruct (showExtendedInfo h); cbn [In]; intuition auto.
Qed.

Ltac other_command H :=
  first [ discriminate H
        | exact (False_ind _ H)
        | destruct H as [H|H]; [try discriminate H | try other_command H] ].

(** X6.  On every runner, a command is started only when the environment
    asks for it: the distribution query only on Linux without the file, the
    macOS and Windows queries only on their family, the safe.directory
    configuration only for the workspace that is set and not empty, each
    rev-parse query only when its variable is unset or empty, and java, tree
    and cmd only with a true flag.  No program other than these seven is ever
    started. *)
Theorem commands_follow_the_environment h :
  (In lsb_call (calls (final h)) ->
   RUNNER_OS (env h) = Some "Linux" /\ existsSync (etc_os_release h) = false)
  /\ (In sw_vers_call (calls (final h)) -> RUNNER_OS (env h) = Some "macOS")
  /\ (In powershell_call (calls (final h)) -> RUNNER_OS (env h) = Some "Windows")
  /\ (forall workspace,
        In (safe_directory_call workspace) (calls (final h)) ->
        GITHUB_WORKSPACE (env h) = Some workspace /\ workspace <> EmptyString)
  /\ (In ("git", ["rev-parse"; "--abbrev-ref"; "HEAD"]) (calls (final h)) ->
      Js.env_truthy (GITHUB_REF_NAME (env h)) = false)
  /\ (In ("git", ["rev-parse"; "HEAD"]) (calls (final h)) ->
      Js.env_truthy (GITHUB_SHA (env h)) = false)
  /\ (forall c, In c (calls (final h)) -> In (fst c) ["java"; "tree"; "cmd"] ->
        showExtendedInfo h = true)
  /\ (forall c, In c (calls (final h)) ->
        In (fst c) ["lsb_release"; "sw_vers"; "powershell"; "git"; "java"; "tree"; "cmd"]).
Proof.
  assert (P : forall c, In c (calls (final h)) -> In c (possible h))
    by (intros c; apply prefix_of_In, run_starts).
  assert (Q : forall c, In c (calls (final h)) ->
                ((c = lsb_call /\ RUNNER_OS (env h) = Some "Linux"
                  /\ existsSync (etc_os_release h) = false)
                 \/ (c = sw_vers_call /\ RUNNER_OS (env h) = Some "macOS")
                 \/ (c = powershell_call /\ RUNNER_OS (env h) = Some "Windows"))
                \/ (exists workspace,
                      c = safe_directory_call workspace
                      /\ GITHUB_WORKSPACE (env h) = Some workspace
                      /\ workspace <> EmptyString)
                \/ ((c = ("git", ["rev-parse"; "--abbrev-ref"; "HEAD"])
                     /\ Js.env_truthy (GITHUB_REF_NAME (env h)) = false)
                    \/ (c = ("git", ["rev-parse"; "HEAD"])
                        /\ Js.env_truthy (GITHUB_SHA (env h)) = false))
                \/ In c git_log_calls
                \/ (showExtendedInfo h = true
                    /\ In c [java_call; tree_call h; winTree_call h])).
  { intros c Hc. apply P, possible_inv in Hc.
    destruct Hc as [H|[H|[H|[H|H]]]].
    - left. now apply platform_calls_inv.
    - right; left. now apply safe_directory_calls_inv.
    - right; right; left. now apply rev_parse_calls_inv.
    - auto.
    - auto 6. }
  split; [|split; [|split; [|split; [|split; [|split; [|split]]]]]].
  - intros H. destruct (Q _ H) as [[(_ & A & B)|[(E & _)|(E & _)]]
                                  |[(w & E & _)|[[(E & _)|(E & _)]|[G|(_ & G)]]]];
      try discriminate E; auto; exfalso; other_command G.
  - intros H. destruct (Q _ H) as [[(E & _)|[(_ & A)|(E & _)]]
                                  |[(w & E & _)|[[(E & _)|(E & _)]|[G|(_ & G)]]]];
      try discriminate E; auto; exfalso; other_command G.
  - intros H. destruct (Q _ H) as [[(E & _)|[(E & _)|(_ & A)]]
                                  |[(w & E & _)|[[(E & _)|(E & _)]|[G|(_ & G)]]]];
      try discriminate E; auto; exfalso; other_command G.
  - intros workspace H.
    destruct (Q _ H) as [[(E & _)|[(E & _)|(E & _)]]
                        |[(w & E & A & B)|[[(E & _)|(E & _)]|[G|(_ & G)]]]];
      try discriminate E.
    + injection E as <-. auto.
    + exfalso; other_command G.
    + exfalso; other_command G.
  - intros H. destruct (Q _ H) as [[(E & _)|[(E & _)|(E & _)]]
                                  |[(w & E & _)|[[(_ & A)|(E & _)]|[G|(_ & G)]]]];
      try discriminate E; auto; exfalso; other_command G.
  - intros H. destruct (Q _ H) as [[(E & _)|[(E & _)|(E & _)]]
                                  |[(w & E & _)|[[(E & _)|(_ & A)]|[G|(_ & G)]]]];
      try discriminate E; auto; exfalso; other_command G.
  - intros c H K. destruct (Q _ H) as [[(E & _)|[(E & _)|(E & _)]]
                                      |[(w & E & _)|[[(E & _)|(E & _)]|[G|(F & _)]]]];
      try exact F; exfalso; try subst c;
      try (cbn [fst In safe_directory_call lsb_call sw_vers_call powershell_call] in K;
           other_command K).
    all: unfold git_log_calls in G; cbn [In] in G;
      repeat (destruct G as [<-|G]; [discriminate K|]); exact G.
  - intros c H. destruct (Q _ H) as [[(E & _)|[(E & _)|(E & _)]]
                                    |[(w & E & _)|[[(E & _)|(E & _)]|[G|(_ & G)]]]];
      try (subst c; cbn; tauto).
    + unfold git_log_calls in G. cbn [In] in G.
      repeat (destruct G as [<-|G]; [cbn; tauto|]). contradiction.
    + cbn [In] in G. repeat (destruct G as [<-|G]; [cbn; tauto|]). contradiction.
Qed.

(** ** Branch name and commit hash in the run *)




(** ** Groups *)


















(** ** More on [/etc/os-release] *)

Lemma has_char_remove_all c s : has_char c (Js.remove_all c s) = false.
Proof.
  induction s as [|a s IH]; [reflexivity|]. simpl.
  destruct (Ascii.eqb a c) eqn:E; [exact IH|]. simpl. now rewrite E, IH.
Qed.

(** X8.  The value read from a line of the file is what stands between the
    first equals sign and the next one, with every double quote removed,
    wherever it stands: a value that holds an equals sign is cut there, and
    an unquoted value is read as it is. *)
Theorem os_release_value_is_cut_at_equals key v :
  has_char "="%char key = false ->
  field_value (key ++ "=" ++ v) = Ok (Js.remove_all Js.dquote (before_equals v))
  /\ (forall rest, has_char "="%char v = false ->
        field_value (key ++ "=" ++ v ++ "=" ++ rest) = Ok (Js.remove_all Js.dquote v))
  /\ (plain v -> field_value (key ++ "=" ++ v) = Ok v)
  /\ has_char Js.dquote (Js.remove_all Js.dquote (before_equals v)) = false.
Proof.
  intros Hk.
  assert (G : forall w, field_value (key ++ "=" ++ w)
                        = Ok (Js.remove_all Js.dquote (before_equals w))).
  { intros w. unfold field_value, before_equals.
    change (key ++ "=" ++ w) with (key ++ String "="%char w).
    rewrite (split_at_first_sep _ _ _ Hk).
    destruct (split_nonempty "="%char w) as (x & xs & ->). reflexivity. }
  split; [apply G|]. split; [|split].
  - intros rest Hv. rewrite G. unfold before_equals.
    change (v ++ "=" ++ rest) with (v ++ String "="%char rest).
    now rewrite (split_at_first_sep _ _ _ Hv).
  - intros [Heq Hdq]. rewrite G. unfold before_equals.
    now rewrite (split_without_sep _ _ Heq), (remove_all_absent _ _ Hdq).
  - apply has_char_remove_all.
Qed.

Lemma os_release_value_is_cut_at_equals_witness :
  field_value ("PRETTY_NAME=" ++ Js.chr Js.dquote ++ "Test OS" ++ "=" ++ "1.0" ++ Js.chr Js.dquote)
  = Ok "Test OS".
Proof.
  exact (proj1 (os_release_value_is_cut_at_equals "PRETTY_NAME"
                  (Js.chr Js.dquote ++ "Test OS" ++ "=" ++ "1.0" ++ Js.chr Js.dquote)
                  eq_refl)).
Defined.

(** X9.  Reading the file never raises in the parsing: every line kept by a
    filter has a second part, so [replace] is never called on a missing
    value.  On a Linux runner whose file exists and can be read,
    [distroInfo] returns without starting a command.  When the file has no
    line for PRETTY_NAME, NAME or VERSION, or when its PRETTY_NAME is empty
    and it has no NAME and no VERSION, the distribution reported is the
    empty text, not N/A. *)
Theorem os_release_parsing_never_raises h t :
  RUNNER_OS (env h) = Some "Linux" ->
  existsSync (etc_os_release h) = true ->
  readFileSync (etc_os_release h) = Ok t ->
  (exists d, distroInfo_of t = Ok d /\ forall s, distroInfo h s = (Ok d, s))
  /\ (name_version_lines t = [] ->
      pretty_lines t = [] \/ pretty_lines t = ["PRETTY_NAME="]
      \/ pretty_lines t = [quoted "PRETTY_NAME" EmptyString] ->
      reports_distro h EmptyString).
Proof.
  intros Hos Hex Hread. pose proof (distroInfo_reads_file h t Hex Hread) as D. split.
  - destruct (distroInfo_of_defined t) as (d & Hd). exists d. split; [exact Hd|].
    intros s. now rewrite D, Hd.
  - intros Hnv Hp. apply (reports_distro_intro h _ Hos). intros s. rewrite D.
    unfold distroInfo_of.
    change (pretty_names t) with (map_res field_value (pretty_lines t)).
    change (name_and_version t) with (map_res field_value (name_version_lines t)).
    rewrite Hnv. destruct Hp as [-> | [-> | ->]]; reflexivity.
Qed.

Lemma os_release_parsing_never_raises_witness :
  reports_distro (Demo.linux_with "ID=test") EmptyString.
Proof.
  apply (proj2 (os_release_parsing_never_raises (Demo.linux_with "ID=test") "ID=test"
                  eq_refl eq_refl eq_refl)).
  - reflexivity.
  - left. reflexivity.
Defined.



(** ** The Java probe has no guard of its own *)

(** X11.  With a true flag, when the java command cannot be started the
    extended section raises the error of the toolkit: the tree command is not
    started, and after the opening of the section nothing more is logged,
    neither the tree heading nor the closing rule nor the end of the
    group. *)
Theorem java_that_does_not_start_ends_the_section h s e :
  showExtendedInfo h = true ->
  spawn h (calls s) java_call = FailedToStart e ->
  fst (extendedInfo h s) = Throw e
  /\ calls_since s (snd (extendedInfo h s)) = [java_call]
  /\ events_since s (snd (extendedInfo h s)) = extended_opening.
Proof.
  intros Hflag Hj. unfold extendedInfo. rewrite Hflag.
  assert (J : javaProbe h (emit [Log rule54] (emit [StartGroup extended_title] s))
              = (Throw e, record_call java_call
                            (emit [Log java_heading]
                               (emit [Log rule54] (emit [StartGroup extended_title] s))))).
  { unfold javaProbe. erewrite bind_ok by reflexivity.
    apply bind_throw. now apply getCommandOutput_not_started. }
  erewrite bind_ok by reflexivity. erewrite bind_ok by reflexivity.
  rewrite (bind_throw _ _ _ _ _ J). cbn [fst snd].
  split; [reflexivity|]. split.
  - apply calls_since_app. reflexivity.
  - apply events_since_emit. cbn [log emit record_call]. now rewrite <- !app_assoc.
Qed.

Lemma java_that_does_not_start_ends_the_section_witness :
  let h := Demo.host (Some "Linux") None "true" Demo.no_file (Demo.without "java" ["ok"] []) in
  fst (extendedInfo h initial) = Throw (Demo.not_located "java")
  /\ calls_since initial (snd (extendedInfo h initial)) = [java_call]
  /\ events_since initial (snd (extendedInfo h initial)) = extended_opening.
Proof.
  exact (java_that_does_not_start_ends_the_section
           (Demo.host (Some "Linux") None "true" Demo.no_file (Demo.without "java" ["ok"] []))
           initial (Demo.not_located "java") eq_refl eq_refl).
Defined.

(** ** The head of the log *)

(** X12.  Every run, failed or not, begins its log with the timestamp group
    and the nine lines that open the system group; the timestamp of the two
    lines that show it is the one set as output. *)
Theorem log_begins_with_the_host_lines h :
  let ts := timestamp_of (now h) in
  (exists more, log (final h) = (timestamp_events h ++ os_header h ts ++ more)%list)
  /\ In (Log ("Generated Timestamp: " ++ ts)) (timestamp_events h)
  /\ In (Log ("  ACTION TIME:    " ++ ts)) (os_header h ts)
  /\ outputs (final h) = [("formatted_run_timestamp", ts)].
Proof.
  intros ts. subst ts.
  split; [|split; [|split]]; try apply run_outputs; try (cbn; tauto).
  unfold final. rewrite run_from_platform. unfold try_catch.
  assert (K : keeps any_call any_event
                ((platformDetails h ;; console_log rule40 ;; endGroup) ;;
                 gitRepositoryDetails h ;; extendedInfo h)).
  { apply keeps_bind; [|intro; apply keeps_bind; [|intro]].
    - unfold platformDetails, distroInfo. frame; exact I.
    - apply gitRepositoryDetails_extends.
    - apply extendedInfo_extends. }
  destruct (K (at_platform h)) as (evs & _ & L & _).
  destruct (((platformDetails h ;; console_log rule40 ;; endGroup) ;;
             gitRepositoryDetails h ;; extendedInfo h) (at_platform h)) as [[u|e] s'];
    cbn [snd] in *; exists evs; rewrite ?log_mark_failed, L;
    cbn [log at_platform]; now rewrite <- app_assoc.
Qed.

(** ** Timestamps as sort keys *)

Lemma digit_bounds a : is_digit a = true -> 0 <= digit_value a <= 9.
Proof.
  unfold is_digit, digit_value. intros H. apply andb_true_iff in H.
  destruct H as [H1 H2]. apply Nat.leb_le in H1, H2. lia.
Qed.

Lemma digit_compare a b :
  match Ascii.compare a b with
  | Eq => digit_value a = digit_value b
  | Lt => digit_value a < digit_value b
  | Gt => digit_value a > digit_value b
  end.
Proof.
  unfold Ascii.compare, digit_value, nat_of_ascii. rewrite !N_nat_Z.
  destruct (N.compare_spec (N_of_ascii a) (N_of_ascii b)); lia.
Qed.

Lemma timestamp_digits d :
  valid_instant d ->
  exists y1 y2 y3 y4 m1 m2 d1 d2 h1 h2 i1 i2 s1 s2,
    timestamp_of d
    = String y1 (String y2 (String y3 (String y4 (String "-"
        (String m1 (String m2 (String "-"
          (String d1 (String d2 (String " "
            (String h1 (String h2 (String ":"
              (String i1 (String i2 (String ":"
                (String s1 (String s2 " UTC"))))))))))))))))))
    /\ getUTCFullYear d
       = 1000 * digit_value y1 + 100 * digit_value y2 + 10 * digit_value y3 + digit_value y4
    /\ getUTCMonth d + 1 = 10 * digit_value m1 + digit_value m2
    /\ getUTCDate d = 10 * digit_value d1 + digit_value d2
    /\ getUTCHours d = 10 * digit_value h1 + digit_value h2
    /\ getUTCMinutes d = 10 * digit_value i1 + digit_value i2
    /\ getUTCSeconds d = 10 * digit_value s1 + digit_value s2
    /\ Forall (fun c => 0 <= digit_value c <= 9)
              [y1; y2; y3; y4; m1; m2; d1; d2; h1; h2; i1; i2; s1; s2].
Proof.
  intros (Hy & Hmo & Hd & Hh & Hmi & Hs). unfold timestamp_of.
  destruct (year_four_digits _ Hy) as (y1 & y2 & y3 & y4 & -> & Dy1 & Dy2 & Dy3 & Dy4 & Vy).
  destruct (pad2_two_digits (getUTCMonth d + 1)) as (m1 & m2 & -> & Dm1 & Dm2 & Vm); [lia|].
  destruct (pad2_two_digits (getUTCDate d)) as (d1 & d2 & -> & Dd1 & Dd2 & Vd); [lia|].
  destruct (pad2_two_digits (getUTCHours d)) as (h1 & h2 & -> & Dh1 & Dh2 & Vh); [lia|].
  destruct (pad2_two_digits (getUTCMinutes d)) as (i1 & i2 & -> & Di1 & Di2 & Vi); [lia|].
  destruct (pad2_two_digits (getUTCSeconds d)) as (s1 & s2 & -> & Ds1 & Ds2 & Vs); [lia|].
  exists y1, y2, y3, y4, m1, m2, d1, d2, h1, h2, i1, i2, s1, s2.
  repeat split; try (symmetry; assumption); try reflexivity.
  repeat constructor; now apply digit_bounds.
Qed.

Ltac next_digit a b :=
  let C := fresh "C" in
  pose proof (digit_compare a b) as C;
  destruct (Ascii.compare a b); cbv iota.

Lemma timestamp_compare a b :
  valid_instant a -> valid_instant b ->
  match String.compare (timestamp_of a) (timestamp_of b) with
  | Lt => earlier a b
  | Eq => a = b
  | Gt => earlier b a
  end.
Proof.
  intros Va Vb.
  destruct (timestamp_digits a Va)
    as (y1 & y2 & y3 & y4 & m1 & m2 & d1 & d2 & h1 & h2 & i1 & i2 & s1 & s2
        & -> & Ay & Am & Ad & Ah & Ai & As & Ab).
  destruct (timestamp_digits b Vb)
    as (z1 & z2 & z3 & z4 & n1 & n2 & e1 & e2 & k1 & k2 & j1 & j2 & t1 & t2
        & -> & By & Bm & Bd & Bh & Bi & Bs & Bb).
  repeat match goal with H : Forall _ (_ :: _) |- _ => inversion_clear H end.
  unfold earlier.
  cbn [String.compare].
  change (Ascii.compare "-" "-") with Eq. change (Ascii.compare " " " ") with Eq.
  change (Ascii.compare ":" ":") with Eq. change (Ascii.compare "U" "U") with Eq.
  change (Ascii.compare "T" "T") with Eq. change (Ascii.compare "C" "C") with Eq.
  cbv iota.
  next_digit y1 z1; [|lia|lia]. next_digit y2 z2; [|lia|lia].
  next_digit y3 z3; [|lia|lia]. next_digit y4 z4; [|lia|lia].
  next_digit m1 n1; [|lia|lia]. next_digit m2 n2; [|lia|lia].
  next_digit d1 e1; [|lia|lia]. next_digit d2 e2; [|lia|lia].
  next_digit h1 k1; [|lia|lia]. next_digit h2 k2; [|lia|lia].
  next_digit i1 j1; [|lia|lia]. next_digit i2 j2; [|lia|lia].
  next_digit s1 t1; [|lia|lia]. next_digit s2 t2; [|lia|lia].
  destruct a as [ya ma da ha ia sa], b as [yb mb db hb ib sb].
  cbn [getUTCFullYear getUTCMonth getUTCDate getUTCHours getUTCMinutes getUTCSeconds] in *.
  f_equal; lia.
Qed.

Lemma string_compare_refl s : String.compare s s = Eq.
Proof.
  induction s as [|c s IH]; [reflexivity|]. simpl.
  unfold Ascii.compare. now rewrite N.compare_refl.
Qed.

(** X13.  Timestamps of instants whose year has four digits sort as the
    instants do: one timestamp comes before another in the order of strings
    exactly when its instant is the earlier one, and two instants have the
    same timestamp only when they agree to the second. *)
Theorem timestamps_sort_as_instants a b :
  valid_instant a -> valid_instant b ->
  (String.ltb (timestamp_of a) (timestamp_of b) = true <-> earlier a b)
  /\ (timestamp_of a = timestamp_of b <-> a = b).
Proof.
  intros Va Vb. pose proof (timestamp_compare a b Va Vb) as C.
  assert (N : forall x y, earlier x y -> earlier y x -> False)
    by (unfold earlier; intros x y; lia).
  assert (R : forall x, ~ earlier x x) by (unfold earlier; intros x; lia).
  unfold String.ltb. split.
  - destruct (String.compare (timestamp_of a) (timestamp_of b)).
    + split; [discriminate|]. subst b. intros H. now apply R in H.
    + tauto.
    + split; [discriminate|]. intros H. exfalso. now apply (N a b).
  - split; [|now intros ->].
    intros E. rewrite E in C.
    now rewrite string_compare_refl in C.
Qed.

Lemma timestamps_sort_as_instants_witness :
  String.ltb (timestamp_of Demo.instant)
             (timestamp_of {| getUTCFullYear := 2024; getUTCMonth := 10; getUTCDate := 1;
                              getUTCHours := 0; getUTCMinutes := 0; getUTCSeconds := 0 |})
  = true.
Proof.
  apply (proj1 (timestamps_sort_as_instants Demo.instant
                  {| getUTCFullYear := 2024; getUTCMonth := 10; getUTCDate := 1;
                     getUTCHours := 0; getUTCMinutes := 0; getUTCSeconds := 0 |}
                  ltac:(unfold valid_instant, Demo.instant; cbn; lia)
                  ltac:(unfold valid_instant; cbn; lia))).
  unfold earlier, Demo.instant. cbn. lia.
Defined.

Lemma short_years_all : forallb short_year_ok (Zrange 0 1000) = true.
Proof. vm_compute. reflexivity. Qed.

Lemma matches_length pat s : matches pat s = true -> String.length s = String.length pat.
Proof.
  revert s. induction pat as [|p pat IH]; intros [|c s] H; simpl in H; try discriminate.
  - reflexivity.
  - apply andb_true_iff in H. destruct H as [_ H]. simpl. now rewrite (IH s H).
Qed.

(** X14.  The year is written as it is, without padding: the timestamp is
    the digits of the year followed by nineteen characters, so for a year
    from 0 to 999 it is shorter than twenty-three characters and does not
    have the fixed shape. *)
Theorem years_below_1000_are_not_padded d :
  valid_clock d ->
  String.length (timestamp_of d)
  = (String.length (Js.String_ (getUTCFullYear d)) + 19)%nat
  /\ (0 <= getUTCFullYear d <= 999 ->
      (String.length (timestamp_of d) < 23)%nat
      /\ matches timestamp_pattern (timestamp_of d) = false).
Proof.
  intros (Hmo & Hd & Hh & Hmi & Hs).
  assert (L : String.length (timestamp_of d)
              = (String.length (Js.String_ (getUTCFullYear d)) + 19)%nat).
  { unfold timestamp_of.
    destruct (pad2_two_digits (getUTCMonth d + 1)) as (m1 & m2 & -> & _); [lia|].
    destruct (pad2_two_digits (getUTCDate d)) as (d1 & d2 & -> & _); [lia|].
    destruct (pad2_two_digits (getUTCHours d)) as (h1 & h2 & -> & _); [lia|].
    destruct (pad2_two_digits (getUTCMinutes d)) as (i1 & i2 & -> & _); [lia|].
    destruct (pad2_two_digits (getUTCSeconds d)) as (s1 & s2 & -> & _); [lia|].
    cbv zeta. rewrite length_append. reflexivity. }
  split; [exact L|]. intros Hy.
  assert (S : short_year_ok (getUTCFullYear d) = true)
    by (apply (Zrange_forall _ 0 1000 short_years_all); lia).
  unfold short_year_ok in S. apply Nat.leb_le in S.
  assert (B : (String.length (timestamp_of d) < 23)%nat) by lia.
  split; [exact B|].
  destruct (matches timestamp_pattern (timestamp_of d)) eqn:M; [|reflexivity].
  apply matches_length in M. change (String.length timestamp_pattern) with 23%nat in M. lia.
Qed.

Lemma years_below_1000_are_not_padded_witness :
  String.length
    (timestamp_of {| getUTCFullYear := 987; getUTCMonth := 0; getUTCDate := 1;
                     getUTCHours := 0; getUTCMinutes := 0; getUTCSeconds := 0 |})
  = 22%nat.
Proof.
  exact (proj1 (years_below_1000_are_not_padded
                  {| getUTCFullYear := 987; getUTCMonth := 0; getUTCDate := 1;
                     getUTCHours := 0; getUTCMinutes := 0; getUTCSeconds := 0 |}
                  ltac:(unfold valid_clock; cbn; lia))).
Defined.

Lemma platform_heading_is_repeated_witness :
  exists block,
    events_since initial (snd (platformDetails macos_host initial)) = [Log block]
    /\ Js.split Js.nl block
       = [macos_heading; bullet ++ "ProductName: macOS";
          macos_heading; bullet ++ "ProductVersion: 14.5"].
Proof.
  assert (N : ~ no_output (result_of macos_exit))
    by (intros [H|H]; [apply H; reflexivity | discriminate H]).
  exact (proj2 (proj2 (proj1 (platform_heading_is_repeated macos_host initial macos_exit)
                         eq_refl eq_refl)) N).
Defined.
